(** * GitMirror worker: router, URL validation, short links, proxy and cache

    A shallow embedding of [src/worker.js].  The worker is a single
    request handler running on an edge platform.  Everything the handler
    reaches outside its own text (the URL parser, the key-value store, the
    edge cache, the outbound HTTP client, the random source, regular
    expression search inside a header value) is part of the platform and is
    either modelled as explicit state ([world]) or taken as an operation of
    the [Platform] class.  The handler itself is translated line by line. *)

From Stdlib Require Import NArith ZArith QArith Qround Lia List String Ascii Bool.
From stdpp Require Import base option list gmap.

Set Warnings "-register-all".

Local Open Scope N_scope.
Local Open Scope list_scope.

(** ** JavaScript strings

    A JavaScript string is a sequence of UTF-16 code units; a code unit is
    a number below 65536, held in [N].  String literals of the source are
    ASCII and are written [js "..."]. *)

Abbreviation jstr := (list N).

Definition js (s : string) : jstr :=
  List.map N_of_ascii (list_ascii_of_string s).

(** The code unit of the double quote, which cannot be written as a
    literal here. *)
Definition dquote : N := 34.

(** WhiteSpace and LineTerminator code points of ECMAScript: the
    characters removed by [String.prototype.trim] (and matched by [\s]). *)
Definition is_space (c : N) : bool :=
  (c =? 9) || (c =? 10) || (c =? 11) || (c =? 12) || (c =? 13) || (c =? 32)
  || (c =? 160) || (c =? 5760) || ((8192 <=? c) && (c <=? 8202))
  || (c =? 8232) || (c =? 8233) || (c =? 8239) || (c =? 8287)
  || (c =? 12288) || (c =? 65279).

Fixpoint trim_start (s : jstr) : jstr :=
  match s with
  | c :: s' => if is_space c then trim_start s' else s
  | [] => []
  end.

Definition trim_end (s : jstr) : jstr := rev (trim_start (rev s)).

(** [String.prototype.trim] *)
Definition trim (s : jstr) : jstr := trim_end (trim_start s).

Definition jstr_eqb (a b : jstr) : bool := bool_decide (a = b).

(** [String.prototype.startsWith] *)
Fixpoint startsWith (s p : jstr) {struct p} : bool :=
  match p with
  | [] => true
  | c :: p' =>
      match s with
      | d :: s' => (c =? d) && startsWith s' p'
      | [] => false
      end
  end.

(** [String.prototype.slice] with one non-negative argument *)
Definition slice (s : jstr) (n : nat) : jstr := drop n s.

(** [Array.prototype.includes] on an array of strings *)
Definition includes (l : list jstr) (s : jstr) : bool :=
  existsb (jstr_eqb s) l.

(** Lower-casing of the letters A to Z.  The source applies
    [toLowerCase] to header names, which are ASCII tokens, and to the
    piece of a URL after its last dot; the lower-casing of letters outside
    ASCII is not part of this model. *)
Definition lower_unit (c : N) : N :=
  if (65 <=? c) && (c <=? 90) then c + 32 else c.

Definition toLowerCase (s : jstr) : jstr := List.map lower_unit s.

(** A string is falsy exactly when it is empty. *)
Definition nonempty (s : jstr) : bool :=
  match s with [] => false | _ => true end.

(** [s.indexOf(p) >= 0], which is what [RegExp.prototype.test] computes for
    a pattern made of literal characters only *)
Fixpoint contains (s p : jstr) : bool :=
  startsWith s p ||
  match s with
  | [] => false
  | _ :: s' => contains s' p
  end.

(** [String.prototype.split] for a separator that is not empty: the pieces
    between the leftmost, non-overlapping occurrences of [sep].  [skip]
    counts the characters of a separator still to be passed over and [cur]
    is the current piece, last character first. *)
Fixpoint split_go (sep : jstr) (skip : nat) (cur : jstr) (s : jstr) : list jstr :=
  match s with
  | [] => [rev cur]
  | c :: s' =>
      match skip with
      | S k => split_go sep k cur s'
      | O =>
          if startsWith s sep
          then rev cur :: split_go sep (length sep - 1) [] s'
          else split_go sep 0 (c :: cur) s'
      end
  end.

Definition split (sep s : jstr) : list jstr := split_go sep 0 [] s.

(** [Array.prototype.pop] on the array [split] returns, which is never
    empty *)
Definition pop (l : list jstr) : jstr := List.last l [].

Example split_quotes :
  split (js "''") (js "UTF-8''a%20b") = [js "UTF-8"; js "a%20b"].
Proof. reflexivity. Qed.

Example split_three : split (js "''") (js "'''") = [[]; js "'"].
Proof. reflexivity. Qed.

Example pop_path : pop (split (js "/") (js "/a/b/main.zip")) = js "main.zip".
Proof. reflexivity. Qed.

Example trim_both : trim (js "  github.com/a ") = js "github.com/a".
Proof. reflexivity. Qed.

(** ** SHA-1 over the UTF-8 encoding ([TextEncoder], [crypto.subtle.digest])

    Words are 32-bit, held in [N] and reduced modulo 2^32 after each
    addition and rotation. *)
Module SHA1.

Definition w32 (x : N) : N := N.land x 4294967295.

Definition rotl (n x : N) : N :=
  w32 (N.lor (N.shiftl x n) (N.shiftr (w32 x) (32 - n))).

Definition add32 (x y : N) : N := w32 (x + y).

Definition not32 (x : N) : N := N.lxor (w32 x) 4294967295.

(** Big-endian bytes of a number, [n] of them. *)
Fixpoint be_bytes (n : nat) (x : N) : list N :=
  match n with
  | O => []
  | S n' => N.land (N.shiftr x (8 * N.of_nat n')) 255 :: be_bytes n' x
  end.

Definition pad (msg : list N) : list N :=
  let len := N.of_nat (length msg) in
  let zeros := N.to_nat ((119 - len mod 64) mod 64) in
  msg ++ [128] ++ repeat 0 zeros ++ be_bytes 8 (8 * len).

Fixpoint words (fuel : nat) (bs : list N) : list N :=
  match fuel, bs with
  | S fuel', a :: b :: c :: d :: rest =>
      (N.shiftl a 24 + N.shiftl b 16 + N.shiftl c 8 + d) :: words fuel' rest
  | _, _ => []
  end.

(** Message schedule, most recent word first. *)
Fixpoint extend (n : nat) (rw : list N) : list N :=
  match n with
  | O => rw
  | S n' =>
      let x := N.lxor (N.lxor (nth 2 rw 0) (nth 7 rw 0))
                      (N.lxor (nth 13 rw 0) (nth 15 rw 0)) in
      extend n' (rotl 1 x :: rw)
  end.

Definition schedule (block : list N) : list N :=
  rev (extend 64 (rev (words 16 block))).

Record regs := Regs { ra : N; rb : N; rc : N; rd : N; re : N }.

Definition round (i : nat) (w : N) (r : regs) : regs :=
  let '(Regs a b c d e) := r in
  let '(f, k) :=
    if (i <? 20)%nat then
      (N.lor (N.land b c) (N.land (not32 b) d), 1518500249)
    else if (i <? 40)%nat then
      (N.lxor (N.lxor b c) d, 1859775393)
    else if (i <? 60)%nat then
      (N.lor (N.lor (N.land b c) (N.land b d)) (N.land c d), 2400959708)
    else
      (N.lxor (N.lxor b c) d, 3395469782) in
  let temp := add32 (add32 (add32 (add32 (rotl 5 a) f) e) k) w in
  Regs temp a (rotl 30 b) c d.

Fixpoint rounds (i : nat) (ws : list N) (r : regs) : regs :=
  match ws with
  | [] => r
  | w :: ws' => rounds (S i) ws' (round i w r)
  end.

Definition compress (h : regs) (block : list N) : regs :=
  let r := rounds 0 (schedule block) h in
  Regs (add32 (ra h) (ra r)) (add32 (rb h) (rb r)) (add32 (rc h) (rc r))
       (add32 (rd h) (rd r)) (add32 (re h) (re r)).

Fixpoint blocks (fuel : nat) (h : regs) (bs : list N) : regs :=
  match fuel, bs with
  | S fuel', _ :: _ => blocks fuel' (compress h (take 64 bs)) (drop 64 bs)
  | _, _ => h
  end.

Definition init : regs :=
  Regs 1732584193 4023233417 2562383102 271733878 3285377520.

Definition digest (msg : list N) : list N :=
  let p := pad msg in
  let h := blocks (length p) init p in
  be_bytes 4 (ra h) ++ be_bytes 4 (rb h) ++ be_bytes 4 (rc h)
    ++ be_bytes 4 (rd h) ++ be_bytes 4 (re h).

End SHA1.

(** UTF-8 bytes of a string, as [TextEncoder.encode] gives them: a
    surrogate pair is one code point, a lone surrogate is replaced by
    U+FFFD. *)
Definition utf8_point (cp : N) : list N :=
  if cp <? 128 then [cp]
  else if cp <? 2048 then [192 + N.shiftr cp 6; 128 + N.land cp 63]
  else if cp <? 65536 then
    [224 + N.shiftr cp 12; 128 + N.land (N.shiftr cp 6) 63; 128 + N.land cp 63]
  else
    [240 + N.shiftr cp 18; 128 + N.land (N.shiftr cp 12) 63;
     128 + N.land (N.shiftr cp 6) 63; 128 + N.land cp 63].

Definition is_high (c : N) : bool := (55296 <=? c) && (c <=? 56319).
Definition is_low (c : N) : bool := (56320 <=? c) && (c <=? 57343).

Fixpoint utf8 (s : jstr) : list N :=
  match s with
  | [] => []
  | c :: s' =>
      if is_high c then
        match s' with
        | d :: s'' =>
            if is_low d then
              utf8_point (65536 + N.shiftl (c - 55296) 10 + (d - 56320))
                ++ utf8 s''
            else utf8_point 65533 ++ utf8 s'
        | [] => utf8_point 65533
        end
      else if is_low c then utf8_point 65533 ++ utf8 s'
      else utf8_point c ++ utf8 s'
  end.

Definition hex_digit (d : N) : N := if d <? 10 then 48 + d else 87 + d.

(** [b.toString(16).padStart(2, "0")] for a byte *)
Definition hex_byte (b : N) : jstr := [hex_digit (b / 16); hex_digit (b mod 16)].

(** [sha1(str)] of the source: lower-case hexadecimal SHA-1 of the UTF-8
    encoding. *)
Definition sha1 (str : jstr) : jstr :=
  concat (List.map hex_byte (SHA1.digest (utf8 str))).

Example sha1_abc : sha1 (js "abc") = js "a9993e364706816aba3e25717850c26c9cd0d89d".
Proof. vm_compute. reflexivity. Qed.

Example sha1_empty : sha1 [] = js "da39a3ee5e6b4b0d3255bfef95601890afd80709".
Proof. vm_compute. reflexivity. Qed.

Example sha1_two_blocks :
  sha1 (js "abcdbcdecdefdefgefghfghighijhijkijkljklmklmnlmnomnopnopq")
  = js "84983e441c3bd26ebaae4aa1f95129e5e54670f1".
Proof. vm_compute. reflexivity. Qed.

(** ** Values, headers, responses, requests *)

(** A JavaScript number: a finite double is a rational number. *)
Inductive jsnum :=
| Finite (q : Q)
| NaN
| Infinite (negative : bool).

(** The value [request.json()] resolves to. *)
Inductive json :=
| JNull
| JBool (b : bool)
| JNum (x : jsnum)
| JStr (s : jstr)
| JArr (items : list json)
| JObj (fields : list (jstr * json)).

(** An exception: its constructor and its [message]. *)
Inductive exn_kind := KError | KTypeError | KURIError | KSyntaxError | KAbortError.

Record exn := Exn { kind : exn_kind; message : jstr }.

(** What a call returns: a value, or an exception thrown. *)
Inductive result (A : Type) :=
| Ok (a : A)
| Throw (e : exn).
Arguments Ok {A} a.
Arguments Throw {A} e.

(** A [Headers] object: a list of entries whose names are kept in lower
    case, as the platform's [Headers] class does. *)
Abbreviation headers := (list (jstr * jstr)).

Definition name_is (k : jstr) (e : jstr * jstr) : bool :=
  jstr_eqb (toLowerCase (fst e)) (toLowerCase k).

Definition hdelete (k : jstr) (h : headers) : headers :=
  List.filter (fun e => negb (name_is k e)) h.

Definition hset (k v : jstr) (h : headers) : headers :=
  hdelete k h ++ [(toLowerCase k, v)].

Definition hhas (k : jstr) (h : headers) : bool := existsb (name_is k) h.

Fixpoint join (sep : jstr) (l : list jstr) : jstr :=
  match l with
  | [] => []
  | [x] => x
  | x :: l' => x ++ sep ++ join sep l'
  end.

(** [Headers.prototype.get]: [None] is null; several entries of one name
    are joined with a comma and a space. *)
Definition hget (k : jstr) (h : headers) : option jstr :=
  match List.filter (name_is k) h with
  | [] => None
  | es => Some (join (js ", ") (List.map snd es))
  end.

(** The data handed to [JSON.stringify] by [json()]. *)
Inductive jdata :=
| DStr (s : jstr)
| DNum (x : jsnum)
| DBool (b : bool).

(** The two page templates, [renderUI(origin)] and [render404()]; their
    text is not transcribed. *)
Inductive page :=
| PageUI (origin : jstr)
| Page404.

Inductive body :=
| BodyNull
| BodyText (s : jstr)
| BodyPage (p : page)
| BodyJSON (data : list (jstr * jdata))
| BodyStream (bytes : list N).

Record response := Response {
  status : N;
  resp_headers : headers;
  resp_body : body
}.

(** [Response.prototype.ok] *)
Definition ok (r : response) : bool := (200 <=? status r) && (status r <=? 299).

(** [new Response(body, {status, headers})].  For a body given as a string
    the constructor adds a [content-type] when the headers have none. *)
Definition is_string_body (b : body) : bool :=
  match b with
  | BodyText _ | BodyPage _ | BodyJSON _ => true
  | BodyNull | BodyStream _ => false
  end.

Definition new_Response (b : body) (st : N) (h : headers) : response :=
  Response st
    (if is_string_body b && negb (hhas (js "content-type") h)
     then h ++ [(js "content-type", js "text/plain;charset=UTF-8")]
     else h)
    b.

(** [new Headers(init)] from an object literal, given as its list of
    properties in order. *)
Definition new_Headers (init : list (jstr * jstr)) : headers :=
  fold_left (fun h e => hset (fst e) (snd e) h) init [].

Record request := Request {
  method : jstr;
  url : jstr;
  req_headers : headers;
  (** what [request.json()] resolves to, or the exception it rejects with *)
  req_json : result json
}.

(** The parts of a parsed [URL] the source reads. *)
Record URL := MkURL {
  href : jstr;
  origin : jstr;
  hostname : jstr;
  pathname : jstr;
  (** the decoded pairs of the query string, for [searchParams.get] *)
  searchParams : list (jstr * jstr)
}.

(** [URLSearchParams.prototype.get]: the first value of that name *)
Definition searchParams_get (k : jstr) (u : URL) : option jstr :=
  snd <$> List.find (fun e => jstr_eqb (fst e) k) (searchParams u).

(** An outbound [fetch(url, {method, headers, redirect: "follow", signal})];
    [fc_timeout] is the delay in milliseconds after which the signal
    aborts the request, if there is a signal. *)
Record fetch_call := FetchCall {
  fc_url : jstr;
  fc_method : jstr;
  fc_headers : headers;
  fc_timeout : option N
}.

(** ** The platform *)

Class Platform := {
  (** [new URL(s)]: [None] when the constructor throws its [TypeError],
      whose message is [URL_invalid s] *)
  URL_parse : jstr -> option URL;
  URL_invalid : jstr -> jstr;
  (** a URL of the scheme [https] has a host *)
  URL_parse_no_host : URL_parse (js "https://") = None;
  (** the serialization of a URL starts with its scheme *)
  href_nonempty : forall s u, URL_parse s = Some u -> href u <> [];
  (** the [k]-th value [Math.random()] returns, in [0, 1) *)
  Math_random : nat -> Q;
  Math_random_range : forall k, (0 <= Math_random k)%Q /\ (Math_random k < 1)%Q;
  (** the outcome of the [k]-th outbound [fetch] *)
  upstream : nat -> fetch_call -> result response;
  (** [String(v)] for a value that is not a string *)
  String_of : json -> jstr;
  (** [Number(s)] *)
  Number_of : jstr -> jsnum;
  (** [decodeURIComponent], which throws a [URIError] on a malformed
      escape sequence *)
  decodeURIComponent : jstr -> result jstr;
  (** the first capture group of the leftmost match of
      [/filename\*\s*=\s*([^;]+)/i] in a string, and the second capture
      group of the leftmost match of [/filename\s*=\s*("?)([^";]+)\1/i];
      [None] when [String.prototype.match] returns null *)
  match_filename_star : jstr -> option jstr;
  match_filename : jstr -> option jstr
}.

(** ** The world: key-value store, edge cache, background work, trace *)

Inductive event :=
| KvGet (key : jstr)
| KvPut (key value : jstr)
| CacheMatch (key : jstr)
| CachePut (key : jstr) (r : response)
| Fetch (c : fetch_call)
| Random.

Record world := World {
  (** the namespace bound as [env.SHORT_KV] *)
  SHORT_KV : gmap jstr jstr;
  (** [caches.default], keyed by the URL of the GET request used as key *)
  edge_cache : gmap jstr response;
  (** promises handed to [ctx.waitUntil]: cache writes not yet settled *)
  background : list (jstr * response);
  (** number of [Math.random()] calls and of outbound fetches so far *)
  draws : nat;
  fetches : nat;
  (** every platform call made, oldest first *)
  trace : list event
}.

Definition log (e : event) (w : world) : world :=
  World (SHORT_KV w) (edge_cache w) (background w) (draws w) (fetches w)
        (trace w ++ [e]).

Definition with_kv (m : gmap jstr jstr) (w : world) : world :=
  World m (edge_cache w) (background w) (draws w) (fetches w) (trace w).

Definition with_background (b : list (jstr * response)) (w : world) : world :=
  World (SHORT_KV w) (edge_cache w) b (draws w) (fetches w) (trace w).

Definition one_more_draw (w : world) : world :=
  World (SHORT_KV w) (edge_cache w) (background w) (S (draws w)) (fetches w)
        (trace w).

Definition one_more_fetch (w : world) : world :=
  World (SHORT_KV w) (edge_cache w) (background w) (draws w) (S (fetches w))
        (trace w).

(** How a computation of the handler ends.  [OutOfFuel] is not an outcome
    of the program: it is what a loop of the model gives when the bound put
    on its iterations was too small, and no [catch] sees it. *)
Inductive outcome (A : Type) :=
| Returned (a : A)
| Thrown (e : exn)
| OutOfFuel.
Arguments Returned {A} a.
Arguments Thrown {A} e.
Arguments OutOfFuel {A}.

(** A computation of the handler: it reads and changes the world and
    returns a value or throws.  The world changes made before a throw
    stay. *)
Definition M (A : Type) : Type := world -> outcome A * world.

Definition ret {A} (a : A) : M A := fun w => (Returned a, w).

Definition throw {A} (e : exn) : M A := fun w => (Thrown e, w).

Definition out_of_fuel {A} : M A := fun w => (OutOfFuel, w).

Definition outcome_of {A} (r : result A) : outcome A :=
  match r with
  | Ok a => Returned a
  | Throw e => Thrown e
  end.

Definition bind {A B} (c : M A) (k : A -> M B) : M B :=
  fun w =>
    match c w with
    | (Returned a, w') => k a w'
    | (Thrown e, w') => (Thrown e, w')
    | (OutOfFuel, w') => (OutOfFuel, w')
    end.

(** [try { c } catch (e) { h(e) }] *)
Definition try_catch {A} (c : M A) (h : exn -> M A) : M A :=
  fun w =>
    match c w with
    | (Returned a, w') => (Returned a, w')
    | (Thrown e, w') => h e w'
    | (OutOfFuel, w') => (OutOfFuel, w')
    end.

Definition lift {A} (r : result A) : M A := fun w => (outcome_of r, w).

Notation "'let*' x ':=' c 'in' k" := (bind c (fun x => k))
  (at level 10, x name, c at level 100, k at level 200).

(** [env.SHORT_KV.get(key)]: [None] is null *)
Definition kv_get (key : jstr) : M (option jstr) :=
  fun w => (Returned (SHORT_KV w !! key), log (KvGet key) w).

(** [env.SHORT_KV.put(key, value)] *)
Definition kv_put (key value : jstr) : M unit :=
  fun w =>
    (Returned tt, log (KvPut key value) (with_kv (<[key := value]> (SHORT_KV w)) w)).

(** [cache.match(cacheKey)] *)
Definition cache_match (key : jstr) : M (option response) :=
  fun w => (Returned (edge_cache w !! key), log (CacheMatch key) w).

(** [ctx.waitUntil(cache.put(cacheKey, response.clone()))]: the write is
    started and left to settle after the handler has returned. *)
Definition waitUntil_cache_put (key : jstr) (r : response) : M unit :=
  fun w =>
    (Returned tt,
     log (CachePut key r) (with_background (background w ++ [(key, r)]) w)).

(** The platform settling the background writes of a finished request. *)
Definition settle (w : world) : world :=
  World (SHORT_KV w)
        (fold_left (fun c e => <[fst e := snd e]> c) (background w) (edge_cache w))
        [] (draws w) (fetches w) (trace w).

(** ** [encodeURIComponent]

    Every character outside the unreserved set is replaced by the escaped
    bytes of its UTF-8 encoding; a lone surrogate throws a [URIError]. *)
Definition unreserved (c : N) : bool :=
  ((65 <=? c) && (c <=? 90)) || ((97 <=? c) && (c <=? 122))
  || ((48 <=? c) && (c <=? 57))
  || existsb (N.eqb c) (js "-_.!~*'()").

Definition upper_hex_digit (d : N) : N := if d <? 10 then 48 + d else 55 + d.

Definition escape_byte (b : N) : jstr :=
  [37; upper_hex_digit (b / 16); upper_hex_digit (b mod 16)].

Definition escape (bytes : list N) : jstr := concat (List.map escape_byte bytes).

Definition URI_malformed : exn := Exn KURIError (js "URI malformed").

Definition prepend {A} (p : list A) (r : result (list A)) : result (list A) :=
  match r with
  | Ok s => Ok (p ++ s)
  | Throw e => Throw e
  end.

Fixpoint encodeURIComponent (s : jstr) : result jstr :=
  match s with
  | [] => Ok []
  | c :: s' =>
      if unreserved c then prepend [c] (encodeURIComponent s')
      else if is_high c then
        match s' with
        | d :: s'' =>
            if is_low d then
              prepend
                (escape (utf8_point (65536 + N.shiftl (c - 55296) 10 + (d - 56320))))
                (encodeURIComponent s'')
            else Throw URI_malformed
        | [] => Throw URI_malformed
        end
      else if is_low c then Throw URI_malformed
      else prepend (escape (utf8_point c)) (encodeURIComponent s')
  end.

Example encode_space : encodeURIComponent (js "a b.zip") = Ok (js "a%20b.zip").
Proof. reflexivity. Qed.

(** ** The worker *)

Section Worker.

Context {P : Platform}.

Definition CACHE_TTL : jstr := js "31536000".

Definition CORS_HEADERS : list (jstr * jstr) :=
  [ (js "Access-Control-Allow-Origin", js "*");
    (js "Access-Control-Allow-Methods", js "GET, HEAD, POST, OPTIONS");
    (js "Access-Control-Allow-Headers", js "Content-Type, Range") ].

(** [Object.keys(CORS_HEADERS).forEach(k => h.set(k, CORS_HEADERS[k]))] *)
Definition set_cors (h : headers) : headers :=
  fold_left (fun h e => hset (fst e) (snd e) h) CORS_HEADERS h.

(** *** [normalize] *)

(** A letter of a pattern with the [i] flag: [c] is the lower-case
    letter. *)
Definition ci (c x : N) : bool := lower_unit x =? c.

(** [/^https?:\/\//i.test(s)] *)
Definition test_http_scheme (s : jstr) : bool :=
  match s with
  | h :: t :: t' :: p :: r =>
      ci 104 h && ci 116 t && ci 116 t' && ci 112 p
      && (startsWith r (js "://")
          || match r with
             | s :: r' => ci 115 s && startsWith r' (js "://")
             | [] => false
             end)
  | _ => false
  end.

Definition truthy (v : json) : bool :=
  match v with
  | JNull => false
  | JBool b => b
  | JNum (Finite q) => negb (Qeq_bool q 0)
  | JNum NaN => false
  | JNum (Infinite _) => true
  | JStr s => nonempty s
  | JArr _ | JObj _ => true
  end.

(** [String(v)] *)
Definition to_String (v : json) : jstr :=
  match v with
  | JStr s => s
  | _ => String_of v
  end.

Definition allowed : list jstr :=
  [ js "github.com"; js "raw.githubusercontent.com";
    js "objects.githubusercontent.com"; js "releases.githubusercontent.com";
    js "gist.githubusercontent.com" ].

Definition Host_not_allowed : exn := Exn KError (js "Host not allowed").

(** The string [normalize] hands to the URL parser. *)
Definition prepared (raw : json) : jstr :=
  let urlStr := trim (to_String (if truthy raw then raw else JStr [])) in
  if negb (test_http_scheme urlStr) then js "https://" ++ urlStr else urlStr.

Definition normalize (raw : json) : result jstr :=
  let urlStr := prepared raw in
  match URL_parse urlStr with
  | None => Throw (Exn KTypeError (URL_invalid urlStr))
  | Some u =>
      if negb (includes allowed (hostname u)) then Throw Host_not_allowed
      else Ok (href u)
  end.

(** *** [getFilename] *)

Definition is_quote (c : N) : bool := (c =? 39) || (c =? dquote).

(** [s.replace(/(^['"]|['"]$)/g, "")] *)
Definition strip_quotes (s : jstr) : jstr :=
  let s1 := match s with
            | c :: s' => if is_quote c then s' else s
            | [] => []
            end in
  match rev s1 with
  | c :: r => if is_quote c then rev r else s1
  | [] => []
  end.

Definition getFilename (url : jstr) (res : response) : result jstr :=
  match URL_parse url with
  | None => Throw (Exn KTypeError (URL_invalid url))
  | Some u =>
      let name := pop (split (js "/") (pathname u)) in
      let fallback := Ok (if nonempty name then name else js "downloaded-file") in
      match hget (js "content-disposition") (resp_headers res) with
      | Some cd =>
          if nonempty cd then
            match match_filename_star cd with
            | Some g1 =>
                let parts := split (js "''") (strip_quotes (trim g1)) in
                decodeURIComponent
                  (if (length parts =? 2)%nat then nth 1 parts [] else nth 0 parts [])
            | None =>
                match match_filename cd with
                | Some g2 => Ok g2
                | None => fallback
                end
            end
          else fallback
      | None => fallback
      end
  end.

(** *** [detectType] *)
Definition detectType (url : jstr) : jstr :=
  if contains url (js "/releases/") then js "Release"
  else if contains url (js "/archive/") then js "Source Code"
  else if contains url (js "raw.github") then js "Raw File"
  else
    let ext := toLowerCase (pop (split (js ".") url)) in
    if includes [js "zip"; js "rar"; js "7z"; js "tar"; js "gz"] ext
    then js "Archive"
    else if includes [js "exe"; js "msi"; js "apk"; js "dmg"; js "iso"] ext
    then js "Binary"
    else js "File".

(** *** [json] *)
Definition json_response (data : list (jstr * jdata)) (st : N) : response :=
  new_Response (BodyJSON data) st
    (new_Headers (CORS_HEADERS ++ [(js "content-type", js "application/json")])).

(** *** [makeShortCode] *)
Definition chars : jstr :=
  js "abcdefghijkmnopqrstuvwxyzABCDEFGHJKLMNPQRSTUVWXYZ123456789".

(** [String.prototype.charAt]: the empty string out of range *)
Definition charAt (s : jstr) (i : nat) : jstr :=
  match s !! i with
  | Some c => [c]
  | None => []
  end.

(** [Math.floor(Math.random() * n)] *)
Definition random_floor (n : nat) : M nat :=
  fun w =>
    (Returned (Z.to_nat (Qfloor (Math_random (draws w) * inject_Z (Z.of_nat n)))),
     log Random (one_more_draw w)).

(** The [for] loop of [makeShortCode], with [n] iterations left. *)
Fixpoint makeShortCode_from (n : nat) (s : jstr) : M jstr :=
  match n with
  | O => ret s
  | S n' =>
      let* i := random_floor (length chars) in
      makeShortCode_from n' (s ++ charAt chars i)
  end.

Definition makeShortCode (len : nat) : M jstr := makeShortCode_from len [].

(** *** [fetchWithTimeout] and the plain [fetch] *)
Definition platform_fetch (c : fetch_call) : M response :=
  fun w =>
    (outcome_of (upstream (fetches w) c), log (Fetch c) (one_more_fetch w)).

Definition fetchWithTimeout (url meth : jstr) (hdrs : headers) (timeout : N)
  : M response :=
  platform_fetch (FetchCall url meth hdrs (Some timeout)).

Definition default_timeout : N := 5000.

(** *** [proxyFetch] *)
Definition headersToKeep : list jstr :=
  [js "range"; js "user-agent"; js "accept"; js "accept-encoding"].

Definition upstream_headers (request : request) : headers :=
  let kept :=
    fold_left
      (fun acc e =>
         if includes headersToKeep (toLowerCase (fst e))
         then hset (fst e) (snd e) acc else acc)
      (req_headers request) [] in
  hset (js "User-Agent") (js "Mozilla/5.0 (GitMirror)") kept.

Definition immutable : jstr := js "public, max-age=" ++ CACHE_TTL ++ js ", immutable".

(** The condition of lines 164 and 173. *)
Definition cacheable (upstreamRes : response) (isRange : bool) (request : request)
  : bool :=
  (status upstreamRes =? 200) && negb isRange
  && jstr_eqb (method request) (js "GET").

(** The body of the [try] block once [fetch] has resolved. *)
Definition proxy_rewrite (target : jstr) (request : request) (isRange : bool)
    (upstreamRes : response) : M response :=
  let responseHeaders := resp_headers upstreamRes in
  let responseHeaders := hdelete (js "link") responseHeaders in
  let responseHeaders := hdelete (js "strict-transport-security") responseHeaders in
  let responseHeaders := set_cors responseHeaders in
  let responseHeaders :=
    hset (js "X-Cache-Status") (if isRange then js "BYPASS" else js "MISS")
      responseHeaders in
  let responseHeaders := hset (js "X-Powered-By") (js "GitMirror-Pro") responseHeaders in
  let* filename := lift (getFilename target upstreamRes) in
  let* encoded := lift (encodeURIComponent filename) in
  let responseHeaders :=
    hset (js "Content-Disposition")
      (js "attachment; filename*=UTF-8''" ++ encoded) responseHeaders in
  let responseHeaders :=
    if cacheable upstreamRes isRange request
    then hset (js "Cache-Control") immutable responseHeaders
    else hset (js "Cache-Control") (js "no-store") responseHeaders in
  let response :=
    new_Response (resp_body upstreamRes) (status upstreamRes) responseHeaders in
  let* _ :=
    (if cacheable upstreamRes isRange request
     then waitUntil_cache_put target response
     else ret tt) in
  ret response.

Definition proxyFetch (target : jstr) (request : request) : M response :=
  let isRange := hhas (js "Range") (req_headers request) in
  (* [new Request(target, {method: "GET"})] throws on an invalid URL *)
  match URL_parse target with
  | None => throw (Exn KTypeError (URL_invalid target))
  | Some _ =>
      let cacheKey := target in
      let* cached :=
        (if negb isRange && jstr_eqb (method request) (js "GET")
         then cache_match cacheKey
         else ret None) in
      match cached with
      | Some cached =>
          let h := resp_headers cached in
          let h := hset (js "X-Cache-Status") (js "HIT") h in
          let h := hset (js "X-Powered-By") (js "GitMirror-Pro") h in
          let h := set_cors h in
          ret (new_Response (resp_body cached) (status cached) h)
      | None =>
          try_catch
            (let* upstreamRes :=
               platform_fetch
                 (FetchCall target (method request) (upstream_headers request) None) in
             proxy_rewrite target request isRange upstreamRes)
            (fun err =>
               ret (new_Response (BodyText (js "Upstream Error: " ++ message err))
                      502 []))
      end
  end.

(** *** The request handler [fetch] *)

Definition html_headers : list (jstr * jstr) :=
  [(js "content-type", js "text/html; charset=UTF-8")].

Definition not_found : response :=
  new_Response (BodyPage Page404) 404 (new_Headers html_headers).

(** A value read from the store is falsy when it is null or empty. *)
Definition truthy_str (o : option jstr) : bool :=
  match o with
  | Some s => nonempty s
  | None => false
  end.

(** Branch 2: [/d/<code>] *)
Definition short_link (code : jstr) (request : request) : M response :=
  let* target := kv_get (js "c:" ++ code) in
  match target with
  | Some t => if nonempty t then proxyFetch t request else ret not_found
  | None => ret not_found
  end.

(** [payload?.url]: [None] is undefined.  [JSON.parse] keeps the last of
    several properties of one name. *)
Definition prop_url (payload : json) : option json :=
  match payload with
  | JObj fields =>
      snd <$> List.find (fun e => jstr_eqb (fst e) (js "url")) (rev fields)
  | _ => None
  end.

(** The [do ... while] loop of lines 50 to 54, entered with [retries]
    retries made.  [fuel] bounds the iterations of the model. *)
Fixpoint candidate_loop (fuel retries : nat) : M jstr :=
  match fuel with
  | O => out_of_fuel
  | S fuel' =>
      let* code := makeShortCode 6 in
      let retries := S retries in
      let* occupant := kv_get (js "c:" ++ code) in
      if truthy_str occupant && (retries <? 5)%nat
      then candidate_loop fuel' retries
      else ret code
  end.

(** Lines 50 to 56: draw a code, then write both keys. *)
Definition issue (target hash : jstr) : M jstr :=
  let* code := candidate_loop 5 0 in
  let* _ := kv_put (js "c:" ++ code) target in
  let* _ := kv_put (js "u:" ++ hash) code in
  ret code.

Definition shortened (code target : jstr) : response :=
  json_response
    [ (js "short", DStr (js "d/" ++ code));
      (js "long", DStr target);
      (js "code", DStr code) ] 200.

Definition URL_is_required : response :=
  json_response [(js "error", DStr (js "URL is required"))] 400.

(** Branch 3, the body of the [try] block *)
Definition shorten_try (request : request) : M response :=
  let* payload := lift (req_json request) in
  match prop_url payload with
  | None => ret URL_is_required
  | Some original =>
      if negb (truthy original) then ret URL_is_required
      else
        let* target := lift (normalize original) in
        let hash := sha1 target in
        let* code := kv_get (js "u:" ++ hash) in
        let* code :=
          (if negb (truthy_str code) then issue target hash
           else ret (default [] code)) in
        ret (shortened code target)
  end.

(** Branch 3: [POST /api/shorten] *)
Definition shorten (request : request) : M response :=
  try_catch (shorten_try request)
    (fun e => ret (json_response [(js "error", DStr (message e))] 400)).

Definition num_truthy (x : jsnum) : bool :=
  match x with
  | Finite q => negb (Qeq_bool q 0)
  | NaN => false
  | Infinite _ => true
  end.

(** [Number(res.headers.get("content-length")) || 0]; [Number(null)] is 0 *)
Definition size_of (res : response) : jsnum :=
  match hget (js "content-length") (resp_headers res) with
  | Some s => if num_truthy (Number_of s) then Number_of s else Finite 0
  | None => Finite 0
  end.

Definition File_not_reachable : exn := Exn KError (js "File not reachable").

(** Branch 4, the body of the [try] block *)
Definition meta_try (raw : jstr) : M response :=
  let* target := lift (normalize (JStr raw)) in
  let* res := fetchWithTimeout target (js "HEAD") [] default_timeout in
  let* res :=
    (if negb (ok res)
        || negb (truthy_str (hget (js "content-length") (resp_headers res)))
     then fetchWithTimeout target (js "GET")
            (new_Headers [(js "Range", js "bytes=0-0")]) default_timeout
     else ret res) in
  if negb (ok res) then throw File_not_reachable
  else
    let* name := lift (getFilename target res) in
    ret (json_response
           [ (js "name", DStr name);
             (js "size", DNum (size_of res));
             (js "type", DStr (detectType target));
             (js "ok", DBool true) ] 200).

(** Branch 4: [/api/meta] *)
Definition meta (url : URL) : M response :=
  match searchParams_get (js "url") url with
  | None => ret (json_response [(js "error", DStr (js "URL missing"))] 400)
  | Some raw =>
      if negb (nonempty raw)
      then ret (json_response [(js "error", DStr (js "URL missing"))] 400)
      else
        try_catch (meta_try raw)
          (fun e =>
             ret (json_response
                    [ (js "error", DStr (js "Failed to fetch metadata"));
                      (js "details", DStr (message e)) ] 400))
  end.

(** Branch 5 after the test of the empty path: lines 109 to 119 *)
Definition proxy (rawPath : jstr) (request : request) : M response :=
  let target :=
    if startsWith rawPath (js "https") || startsWith rawPath (js "http")
    then normalize (JStr rawPath)
    else if startsWith rawPath (js "github.com")
            || startsWith rawPath (js "raw.githubusercontent.com")
    then normalize (JStr (js "https://" ++ rawPath))
    else normalize (JStr rawPath) in
  match target with
  | Ok target => proxyFetch target request
  | Throw _ => ret (new_Response (BodyText (js "Invalid URL format")) 400 [])
  end.

(** The branch a request takes: the chain of tests of [fetch], in the
    order of the source. *)
Inductive branch :=
| Preflight
| UI
| ShortLink (code : jstr)
| Shorten
| Meta
| BadRequest
| Proxy (rawPath : jstr).

Definition dispatch (request : request) (url : URL) : branch :=
  if jstr_eqb (method request) (js "OPTIONS") then Preflight
  else if jstr_eqb (pathname url) (js "/") then UI
  else if startsWith (pathname url) (js "/d/") then ShortLink (slice (pathname url) 3)
  else if jstr_eqb (pathname url) (js "/api/shorten")
          && jstr_eqb (method request) (js "POST") then Shorten
  else if jstr_eqb (pathname url) (js "/api/meta") then Meta
  else
    let rawPath := slice (pathname url) 1 in
    if negb (nonempty rawPath) then BadRequest else Proxy rawPath.

Definition ui_headers : list (jstr * jstr) :=
  [ (js "content-type", js "text/html; charset=UTF-8");
    (js "x-content-type-options", js "nosniff");
    (js "Strict-Transport-Security", js "max-age=31536000; includeSubDomains") ].

Definition fetch_handler (request : request) : M response :=
  match URL_parse (url request) with
  | None => throw (Exn KTypeError (URL_invalid (url request)))
  | Some url =>
      match dispatch request url with
      | Preflight => ret (new_Response BodyNull 200 (new_Headers CORS_HEADERS))
      | UI =>
          ret (new_Response (BodyPage (PageUI (origin url))) 200
                 (new_Headers ui_headers))
      | ShortLink code => short_link code request
      | Shorten => shorten request
      | Meta => meta url
      | BadRequest => ret (new_Response (BodyText (js "Bad Request")) 400 [])
      | Proxy rawPath => proxy rawPath request
      end
  end.

End Worker.

(** ** A platform for closed examples

    The answers of the platform on the strings the examples below use.
    The URL parser is a table of the URLs that occur; every other string is
    answered as unparsable.  The upstream responses of the examples carry
    no [content-disposition], so that the two pattern searches and
    [decodeURIComponent] are never asked. *)
Module Fixture.

Definition https (host path : jstr) (query : list (jstr * jstr)) (suffix : jstr)
  : jstr * URL :=
  (js "https://" ++ host ++ path ++ suffix,
   MkURL (js "https://" ++ host ++ path ++ suffix) (js "https://" ++ host)
         host path query).

Definition main_zip : jstr := js "/a/b/archive/refs/heads/main.zip".
Definition tool_exe : jstr := js "/c/d/releases/download/v1/tool.exe".

Definition urls : list (jstr * URL) :=
  [ https (js "github.com") main_zip [] [];
    https (js "github.com") tool_exe [] [];
    https (js "example.com") (js "/x") [] [];
    (js "https://ftp://github.com/a",
     MkURL (js "https://ftp//github.com/a") (js "https://ftp") (js "ftp")
           (js "//github.com/a") []);
    https (js "mirror.example") (js "/") [] [];
    https (js "mirror.example") (js "/api/shorten") [] [];
    https (js "mirror.example") (js "/d/aaaaaa") [] [];
    https (js "mirror.example") (js "/api/meta") [(js "url", js "example.com/x")]
          (js "?url=example.com/x");
    https (js "mirror.example") (js "/api/meta")
          [(js "url", js "github.com" ++ main_zip)]
          (js "?url=github.com" ++ main_zip);
    https (js "mirror.example") (js "/github.com" ++ main_zip) [] [] ].

Definition parse (s : jstr) : option URL :=
  snd <$> List.find (fun e => jstr_eqb (fst e) s) urls.

(** The [k]-th random number is [(rnd k mod 58) / 58]. *)
Definition random (rnd : nat -> nat) (k : nat) : Q :=
  Z.of_nat (rnd k mod 58) # 58.

(** [Number(s)] on a string of decimal digits *)
Definition number (s : jstr) : jsnum :=
  if forallb (fun c => (48 <=? c) && (c <=? 57)) s
  then Finite (inject_Z (Z.of_N (fold_left (fun a c => 10 * a + (c - 48)) s 0)))
  else NaN.

Lemma parse_href_nonempty s u : parse s = Some u -> href u <> [].
Proof.
  unfold parse. intros H.
  apply fmap_Some in H as (e & Hfind & ->).
  apply find_some in Hfind as [Hin _].
  repeat (destruct Hin as [<- | Hin]; [discriminate |]).
  destruct Hin.
Qed.

Lemma random_range rnd k : (0 <= random rnd k)%Q /\ (random rnd k < 1)%Q.
Proof.
  unfold random, Qle, Qlt. cbn [Qnum Qden].
  pose proof (Nat.mod_upper_bound (rnd k) 58 ltac:(discriminate)).
  split; lia.
Qed.

(** The platform of the examples, for a source [rnd] of random numbers
    and the outcomes [up] of the outbound requests. *)
Definition platform (rnd : nat -> nat)
    (up : nat -> fetch_call -> result response) : Platform :=
  {| URL_parse := parse;
     URL_invalid := fun _ => js "Invalid URL";
     URL_parse_no_host := eq_refl;
     href_nonempty := parse_href_nonempty;
     Math_random := random rnd;
     Math_random_range := random_range rnd;
     upstream := up;
     String_of := fun _ => js "[object Object]";
     Number_of := number;
     decodeURIComponent := fun s => Ok s;
     match_filename_star := fun _ => None;
     match_filename := fun _ => None |}.

Definition empty_world : world := World ∅ ∅ [] 0 0 [].

Definition no_upstream (k : nat) (c : fetch_call) : result response :=
  Throw (Exn KTypeError (js "Network connection lost.")).

Definition post_shorten (u : jstr) : request :=
  Request (js "POST") (js "https://mirror.example/api/shorten") []
          (Ok (JObj [(js "url", JStr u)])).

End Fixture.

(** * Reasoning about the embedding *)

(** ** Headers *)

Lemma lower_unit_idem c : lower_unit (lower_unit c) = lower_unit c.
Proof.
  unfold lower_unit.
  destruct ((65 <=? c) && (c <=? 90)) eqn:E; [| by rewrite E].
  apply andb_true_iff in E as [H1 H2].
  apply N.leb_le in H1, H2.
  destruct (65 <=? c + 32) eqn:E1, (c + 32 <=? 90) eqn:E2; cbn; try reflexivity.
  apply N.leb_le in E2. lia.
Qed.

Lemma toLowerCase_idem s : toLowerCase (toLowerCase s) = toLowerCase s.
Proof.
  unfold toLowerCase. rewrite List.map_map.
  apply List.map_ext. intros; apply lower_unit_idem.
Qed.

Lemma jstr_eqb_eq a b : jstr_eqb a b = true <-> a = b.
Proof. unfold jstr_eqb. apply bool_decide_eq_true. Qed.

Lemma jstr_eqb_neq a b : jstr_eqb a b = false <-> a <> b.
Proof. unfold jstr_eqb. apply bool_decide_eq_false. Qed.

Lemma jstr_eqb_refl a : jstr_eqb a a = true.
Proof. by apply jstr_eqb_eq. Qed.

(** Two header names are the same header. *)
Definition same_name (k k' : jstr) : Prop := toLowerCase k = toLowerCase k'.

Lemma name_is_set k k' v : name_is k' (toLowerCase k, v) = jstr_eqb (toLowerCase k) (toLowerCase k').
Proof. unfold name_is. cbn. by rewrite toLowerCase_idem. Qed.

Lemma named_hdelete_same k k' h :
  same_name k k' -> List.filter (name_is k') (hdelete k h) = [].
Proof.
  unfold same_name, hdelete. intros E.
  induction h as [| e h IH]; [done |]. cbn.
  destruct (name_is k e) eqn:Hk; cbn; [done |].
  assert (name_is k' e = false) as ->; [| done].
  unfold name_is in *. by rewrite <- E.
Qed.

Lemma named_hdelete_other k k' h :
  ~ same_name k k' ->
  List.filter (name_is k') (hdelete k h) = List.filter (name_is k') h.
Proof.
  unfold same_name, hdelete. intros E.
  induction h as [| e h IH]; [done |]. cbn.
  destruct (name_is k e) eqn:Hk, (name_is k' e) eqn:Hk'; cbn;
    rewrite ?Hk'; rewrite ?IH; try done.
  unfold name_is in *.
  apply jstr_eqb_eq in Hk, Hk'. congruence.
Qed.

Lemma hget_hset_same k k' v h : same_name k k' -> hget k' (hset k v h) = Some v.
Proof.
  intros E. unfold hget, hset.
  rewrite List.filter_app, (named_hdelete_same _ _ _ E). cbn.
  rewrite name_is_set.
  assert (jstr_eqb (toLowerCase k) (toLowerCase k') = true) as ->; [| done].
  by apply jstr_eqb_eq.
Qed.

Lemma hget_hset_other k k' v h : ~ same_name k k' -> hget k' (hset k v h) = hget k' h.
Proof.
  intros E. unfold hget, hset.
  rewrite List.filter_app, (named_hdelete_other _ _ _ E). cbn.
  rewrite name_is_set.
  assert (jstr_eqb (toLowerCase k) (toLowerCase k') = false) as ->.
  { by apply jstr_eqb_neq. }
  by rewrite app_nil_r.
Qed.

Lemma hget_hdelete_other k k' h : ~ same_name k k' -> hget k' (hdelete k h) = hget k' h.
Proof. intros E. unfold hget. by rewrite (named_hdelete_other _ _ _ E). Qed.

Lemma hget_app_other k k' v h :
  ~ same_name k k' -> hget k' (h ++ [(k, v)]) = hget k' h.
Proof.
  intros E. unfold hget. rewrite List.filter_app.
  cbn [List.filter]. unfold name_is at 2. cbn [fst].
  assert (jstr_eqb (toLowerCase k) (toLowerCase k') = false) as ->.
  { by apply jstr_eqb_neq. }
  by rewrite app_nil_r.
Qed.

(** Decides that two literal header names differ. *)
Ltac names_differ :=
  let H := fresh in
  unfold same_name; intro H; vm_compute in H; discriminate H.

Lemma hget_new_Response k b st h :
  ~ same_name (js "content-type") k ->
  hget k (resp_headers (new_Response b st h)) = hget k h.
Proof.
  intros E. unfold new_Response. cbn [resp_headers].
  destruct (is_string_body b && negb (hhas (js "content-type") h)); [| done].
  by apply hget_app_other.
Qed.

Lemma name_is_same k k' e : same_name k k' -> name_is k e = name_is k' e.
Proof. unfold same_name, name_is. by intros ->. Qed.

Lemma filter_swap {A} (p q : A -> bool) (l : list A) :
  List.filter p (List.filter q l) = List.filter q (List.filter p l).
Proof.
  induction l as [| a l IH]; [done |]. cbn.
  destruct (q a) eqn:Hq, (p a) eqn:Hp; cbn; rewrite ?Hq, ?Hp, ?IH; done.
Qed.

Lemma filter_twice {A} (p : A -> bool) (l : list A) :
  List.filter p (List.filter p l) = List.filter p l.
Proof.
  induction l as [| a l IH]; [done |]. cbn.
  destruct (p a) eqn:Hp; cbn; rewrite ?Hp, ?IH; done.
Qed.

Lemma hdelete_hset_same k k' v h :
  same_name k k' -> hdelete k' (hset k v h) = hdelete k' h.
Proof.
  intros E. unfold hset, hdelete.
  rewrite List.filter_app. cbn [List.filter]. rewrite name_is_set.
  assert (jstr_eqb (toLowerCase k) (toLowerCase k') = true) as ->.
  { by apply jstr_eqb_eq. }
  cbn. rewrite app_nil_r.
  rewrite (List.filter_ext (fun e => negb (name_is k e)) (fun e => negb (name_is k' e))).
  - apply filter_twice.
  - intros e. by rewrite (name_is_same _ _ e E).
Qed.

Lemma hdelete_hset_other k k' v h :
  ~ same_name k k' -> hdelete k' (hset k v h) = hset k v (hdelete k' h).
Proof.
  intros E. unfold hset, hdelete.
  rewrite List.filter_app. cbn [List.filter]. rewrite name_is_set.
  assert (jstr_eqb (toLowerCase k) (toLowerCase k') = false) as ->.
  { by apply jstr_eqb_neq. }
  cbn. by rewrite filter_swap.
Qed.

(** ** The headers of the upstream request *)

Definition keep_step (acc : headers) (e : jstr * jstr) : headers :=
  if includes headersToKeep (toLowerCase (fst e))
  then hset (fst e) (snd e) acc else acc.

Lemma upstream_headers_unfold request :
  upstream_headers request
  = hset (js "User-Agent") (js "Mozilla/5.0 (GitMirror)")
      (fold_left keep_step (req_headers request) []).
Proof. reflexivity. Qed.

Lemma keep_user_agent (e : jstr * jstr) :
  same_name (fst e) (js "user-agent") ->
  includes headersToKeep (toLowerCase (fst e)) = true.
Proof. unfold same_name. intros ->. reflexivity. Qed.

Lemma hdelete_cons k (e : jstr * jstr) (h : headers) :
  hdelete k (e :: h) = if name_is k e then hdelete k h else e :: hdelete k h.
Proof. unfold hdelete. cbn [List.filter]. by destruct (name_is k e). Qed.

Lemma kept_without_user_agent (h acc : headers) :
  hdelete (js "user-agent") (fold_left keep_step h acc)
  = hdelete (js "user-agent")
      (fold_left keep_step (hdelete (js "user-agent") h)
                 (hdelete (js "user-agent") acc)).
Proof.
  revert acc. induction h as [| e h IH]; intros acc.
  - unfold hdelete. cbn [List.filter fold_left]. by rewrite filter_twice.
  - cbn [fold_left]. rewrite (IH (keep_step acc e)).
    rewrite hdelete_cons.
    destruct (name_is (js "user-agent") e) eqn:Hn.
    + assert (same_name (fst e) (js "user-agent")) as Hs.
      { unfold name_is in Hn. by apply jstr_eqb_eq in Hn. }
      unfold keep_step at 2. rewrite (keep_user_agent e Hs).
      by rewrite (hdelete_hset_same _ _ _ _ Hs).
    + assert (~ same_name (fst e) (js "user-agent")) as Hs.
      { unfold name_is in Hn. by apply jstr_eqb_neq in Hn. }
      cbn [fold_left].
      f_equal. f_equal.
      unfold keep_step.
      destruct (includes headersToKeep (toLowerCase (fst e))); [| done].
      by apply hdelete_hset_other.
Qed.

(** ** The proxy engine *)

Section ProxyFacts.

Context {P : Platform}.

(** The response of line 169, for the upstream response [up] and the
    encoded file name [enc]. *)
Definition rewritten (request : request) (isRange : bool) (up : response)
    (enc : jstr) : response :=
  let h := hdelete (js "strict-transport-security") (hdelete (js "link") (resp_headers up)) in
  let h := hset (js "X-Powered-By") (js "GitMirror-Pro")
             (hset (js "X-Cache-Status") (if isRange then js "BYPASS" else js "MISS")
                (set_cors h)) in
  let h := hset (js "Content-Disposition") (js "attachment; filename*=UTF-8''" ++ enc) h in
  new_Response (resp_body up) (status up)
    (if cacheable up isRange request
     then hset (js "Cache-Control") immutable h
     else hset (js "Cache-Control") (js "no-store") h).

(** The response of line 137, for the cached entry. *)
Definition served_from_cache (cached : response) : response :=
  new_Response (resp_body cached) (status cached)
    (set_cors (hset (js "X-Powered-By") (js "GitMirror-Pro")
                 (hset (js "X-Cache-Status") (js "HIT") (resp_headers cached)))).

(** The response of line 178. *)
Definition upstream_error (e : exn) : response :=
  new_Response (BodyText (js "Upstream Error: " ++ message e)) 502 [].

(** The file name and its encoding, or the exception of the first of the
    two that throws. *)
Definition encoded_name (target : jstr) (up : response) : result jstr :=
  match getFilename target up with
  | Ok name => encodeURIComponent name
  | Throw e => Throw e
  end.

(** The cache write handed to [ctx.waitUntil]. *)
Definition queued (target : jstr) (resp : response) (w : world) : world :=
  log (CachePut target resp) (with_background (background w ++ [(target, resp)]) w).

Lemma proxy_rewrite_run target request isRange up w :
  proxy_rewrite target request isRange up w =
    match encoded_name target up with
    | Ok enc =>
        let resp := rewritten request isRange up enc in
        (Returned resp,
         if cacheable up isRange request
         then queued target resp w
         else w)
    | Throw e => (Thrown e, w)
    end.
Proof.
  unfold proxy_rewrite, encoded_name, bind, lift, rewritten.
  destruct (getFilename target up) as [name | e]; cbn [outcome_of]; [| done].
  destruct (encodeURIComponent name) as [enc | e]; cbn [outcome_of]; [| done].
  destruct (cacheable up isRange request); reflexivity.
Qed.

(** Whether [proxyFetch] asks the cache. *)
Definition looks_up (request : request) : bool :=
  negb (hhas (js "Range") (req_headers request))
  && jstr_eqb (method request) (js "GET").

Definition upstream_call (target : jstr) (request : request) : fetch_call :=
  FetchCall target (method request) (upstream_headers request) None.

(** The world once the cache has been asked, if it is. *)
Definition asked (target : jstr) (request : request) (w : world) : world :=
  if looks_up request then log (CacheMatch target) w else w.

Definition sent (target : jstr) (request : request) (w : world) : world :=
  log (Fetch (upstream_call target request))
    (one_more_fetch (asked target request w)).

Lemma proxyFetch_run target request w :
  proxyFetch target request w =
    match URL_parse target with
    | None => (Thrown (Exn KTypeError (URL_invalid target)), w)
    | Some _ =>
        match (if looks_up request then edge_cache w !! target else None) with
        | Some cached => (Returned (served_from_cache cached), asked target request w)
        | None =>
            let isRange := hhas (js "Range") (req_headers request) in
            match upstream (fetches w) (upstream_call target request) with
            | Throw e => (Returned (upstream_error e), sent target request w)
            | Ok up =>
                match encoded_name target up with
                | Throw e => (Returned (upstream_error e), sent target request w)
                | Ok enc =>
                    let resp := rewritten request isRange up enc in
                    (Returned resp,
                     if cacheable up isRange request
                     then queued target resp (sent target request w)
                     else sent target request w)
                end
            end
        end
    end.
Proof.
  unfold proxyFetch.
  destruct (URL_parse target) as [u |]; [| done].
  unfold bind at 1. unfold sent, asked, looks_up.
  set (isRange := hhas (js "Range") (req_headers request)).
  destruct (negb isRange && jstr_eqb (method request) (js "GET")) eqn:Hl.
  - unfold cache_match. destruct (edge_cache w !! target) as [cached |] eqn:Hc.
    + reflexivity.
    + unfold try_catch, bind at 1, platform_fetch, upstream_call.
      cbn [fetches log one_more_fetch].
      destruct (upstream (fetches w) _) as [up | e]; cbn [outcome_of]; [| done].
      rewrite proxy_rewrite_run.
      destruct (encoded_name target up); [| done].
      cbv zeta. by destruct (cacheable up isRange request).
  - unfold ret, try_catch, bind at 1, platform_fetch, upstream_call.
    destruct (upstream (fetches w) _) as [up | e]; cbn [outcome_of]; [| done].
    rewrite proxy_rewrite_run.
    destruct (encoded_name target up); [| done].
    cbv zeta. by destruct (cacheable up isRange request).
Qed.

End ProxyFacts.

(** ** What a response carries *)

Definition carries (k v : jstr) (r : response) : Prop :=
  hget k (resp_headers r) = Some v.

(** The CORS headers, the product header and a cache-status marker. *)
Definition marked (r : response) : Prop :=
  carries (js "Access-Control-Allow-Origin") (js "*") r
  /\ carries (js "Access-Control-Allow-Methods") (js "GET, HEAD, POST, OPTIONS") r
  /\ carries (js "Access-Control-Allow-Headers") (js "Content-Type, Range") r
  /\ carries (js "X-Powered-By") (js "GitMirror-Pro") r
  /\ (carries (js "X-Cache-Status") (js "HIT") r
      \/ carries (js "X-Cache-Status") (js "MISS") r
      \/ carries (js "X-Cache-Status") (js "BYPASS") r).

(** A [Content-Disposition] with a percent-encoded file name. *)
Definition names_file (r : response) : Prop :=
  exists name enc,
    encodeURIComponent name = Ok enc
    /\ carries (js "Content-Disposition") (js "attachment; filename*=UTF-8''" ++ enc) r.

(** Every response in the cache, or on its way there, names its file. *)
Definition stored_name_files (w : world) : Prop :=
  (forall k c, edge_cache w !! k = Some c -> names_file c)
  /\ Forall (fun e => names_file (snd e)) (background w).

Lemma set_cors_unfold h :
  set_cors h
  = hset (js "Access-Control-Allow-Headers") (js "Content-Type, Range")
      (hset (js "Access-Control-Allow-Methods") (js "GET, HEAD, POST, OPTIONS")
         (hset (js "Access-Control-Allow-Origin") (js "*") h)).
Proof. reflexivity. Qed.

(** Reads a header through the [set], [delete] and constructor calls made
    on literal names. *)
Ltac same_literal := unfold same_name; vm_compute; reflexivity.

Ltac read_header :=
  unfold carries;
  repeat first
    [ rewrite hget_new_Response by names_differ
    | rewrite set_cors_unfold
    | rewrite hget_hset_same by same_literal
    | rewrite hget_hset_other by names_differ
    | rewrite hget_hdelete_other by names_differ ].

Lemma rewritten_marked (request : request) (isRange : bool) (up : response) (enc : jstr) :
  marked (rewritten request isRange up enc).
Proof.
  unfold marked, rewritten. cbv zeta.
  destruct (cacheable up isRange request); repeat split; try (read_header; reflexivity);
    destruct isRange; read_header; auto.
Qed.

Lemma rewritten_disposition (request : request) (isRange : bool) (up : response) (enc : jstr) :
  carries (js "Content-Disposition") (js "attachment; filename*=UTF-8''" ++ enc)
    (rewritten request isRange up enc).
Proof.
  unfold rewritten. cbv zeta.
  destruct (cacheable up isRange request); read_header; reflexivity.
Qed.

Lemma rewritten_status (request : request) (isRange : bool) (up : response) (enc : jstr) :
  carries (js "X-Cache-Status") (if isRange then js "BYPASS" else js "MISS")
    (rewritten request isRange up enc).
Proof.
  unfold rewritten. cbv zeta.
  destruct (cacheable up isRange request); read_header; reflexivity.
Qed.

Lemma rewritten_cache_control (request : request) (isRange : bool) (up : response) (enc : jstr) :
  carries (js "Cache-Control")
    (if cacheable up isRange request then immutable else js "no-store")
    (rewritten request isRange up enc).
Proof.
  unfold rewritten. cbv zeta.
  destruct (cacheable up isRange request); read_header; reflexivity.
Qed.

Lemma served_from_cache_marked (cached : response) : marked (served_from_cache cached).
Proof.
  unfold marked, served_from_cache.
  repeat split; try (read_header; reflexivity).
  left. read_header. reflexivity.
Qed.

Lemma served_from_cache_names (cached : response) :
  names_file cached -> names_file (served_from_cache cached).
Proof.
  intros (name & enc & Henc & Hcd). exists name, enc. split; [done |].
  unfold served_from_cache. read_header. exact Hcd.
Qed.

Lemma upstream_error_bare e :
  resp_headers (upstream_error e) = [(js "content-type", js "text/plain;charset=UTF-8")]
  /\ status (upstream_error e) = 502.
Proof. split; reflexivity. Qed.

Section ProxyEvents.

Context {P : Platform}.

Lemma encoded_name_inv target up enc :
  encoded_name target up = Ok enc ->
  exists name, getFilename target up = Ok name /\ encodeURIComponent name = Ok enc.
Proof.
  unfold encoded_name. destruct (getFilename target up) as [name | e]; [| done].
  intros H. by exists name.
Qed.

Lemma cacheable_spec (up : response) (isRange : bool) (request : request) :
  cacheable up isRange request = true
  <-> status up = 200 /\ isRange = false /\ method request = js "GET".
Proof.
  unfold cacheable. rewrite !andb_true_iff, negb_true_iff, N.eqb_eq, jstr_eqb_eq.
  tauto.
Qed.

Lemma cacheable_looks_up (up : response) (request : request) :
  cacheable up (hhas (js "Range") (req_headers request)) request = true ->
  looks_up request = true.
Proof.
  unfold cacheable, looks_up. rewrite !andb_true_iff. tauto.
Qed.

(** The four ways a run of [proxyFetch] can leave the world. *)
Inductive proxy_run (target : jstr) (request : request) (w : world)
  : outcome response -> world -> Prop :=
| run_invalid e :
    proxy_run target request w (Thrown e) w
| run_hit cached :
    looks_up request = true ->
    edge_cache w !! target = Some cached ->
    proxy_run target request w (Returned (served_from_cache cached))
      (asked target request w)
| run_error e :
    upstream (fetches w) (upstream_call target request) = Throw e
    \/ (exists up, upstream (fetches w) (upstream_call target request) = Ok up
                   /\ encoded_name target up = Throw e) ->
    proxy_run target request w (Returned (upstream_error e)) (sent target request w)
| run_proxied up enc :
    upstream (fetches w) (upstream_call target request) = Ok up ->
    encoded_name target up = Ok enc ->
    proxy_run target request w
      (Returned (rewritten request (hhas (js "Range") (req_headers request)) up enc))
      (if cacheable up (hhas (js "Range") (req_headers request)) request
       then queued target
              (rewritten request (hhas (js "Range") (req_headers request)) up enc)
              (sent target request w)
       else sent target request w).

Lemma proxyFetch_proxy_run target request w :
  proxy_run target request w (fst (proxyFetch target request w))
    (snd (proxyFetch target request w)).
Proof.
  rewrite proxyFetch_run.
  destruct (URL_parse target) as [u |]; [| constructor].
  destruct (looks_up request) eqn:Hlook.
  - destruct (edge_cache w !! target) as [cached |] eqn:Hc; [by constructor |].
    destruct (upstream (fetches w) _) as [up | e] eqn:Hup; [| constructor; by left].
    destruct (encoded_name target up) as [enc | e] eqn:Hn; [| constructor; eauto].
    cbv zeta.
    pose proof (run_proxied target request w up enc Hup Hn) as H.
    by destruct (cacheable up _ request).
  - destruct (upstream (fetches w) _) as [up | e] eqn:Hup; [| constructor; by left].
    destruct (encoded_name target up) as [enc | e] eqn:Hn; [| constructor; eauto].
    cbv zeta.
    pose proof (run_proxied target request w up enc Hup Hn) as H.
    by destruct (cacheable up _ request).
Qed.

Lemma trace_sent target request w :
  trace (sent target request w)
  = trace w ++ (if looks_up request then [CacheMatch target] else [])
      ++ [Fetch (upstream_call target request)].
Proof.
  unfold sent, asked. destruct (looks_up request); cbn; [| done].
  by rewrite <- app_assoc.
Qed.

Lemma sent_frame target request w :
  SHORT_KV (sent target request w) = SHORT_KV w
  /\ edge_cache (sent target request w) = edge_cache w
  /\ background (sent target request w) = background w
  /\ draws (sent target request w) = draws w.
Proof. unfold sent, asked. by destruct (looks_up request). Qed.

(** [proxyFetch] writes neither the store nor the cache. *)
Lemma proxyFetch_frame target request w out w' :
  proxyFetch target request w = (out, w') ->
  SHORT_KV w' = SHORT_KV w /\ edge_cache w' = edge_cache w /\ draws w' = draws w.
Proof.
  intros H. pose proof (proxyFetch_proxy_run target request w) as R.
  rewrite H in R. cbn [fst snd] in R.
  destruct (sent_frame target request w) as (Hk & Hc & Hb & Hd).
  destruct R as [e | cached Hl Hc' | e He | up enc Hup Hn]; [done | | done |].
  - unfold asked. by rewrite Hl.
  - by destruct (cacheable up _ request).
Qed.

End ProxyEvents.

(** ** Requests and upstream answers of the examples *)
Module Scenario.

Definition no_body : result json :=
  Throw (Exn KSyntaxError (js "Unexpected end of JSON input")).

Definition archive_url : jstr :=
  js "https://github.com/a/b/archive/refs/heads/main.zip".

(** [GET /github.com/a/b/archive/refs/heads/main.zip] *)
Definition get_archive : request :=
  Request (js "GET")
    (js "https://mirror.example/github.com/a/b/archive/refs/heads/main.zip")
    [(js "accept", js "*/*"); (js "user-agent", js "curl/8.5.0")] no_body.

(** The same request for the first hundred bytes. *)
Definition get_archive_range : request :=
  Request (js "GET")
    (js "https://mirror.example/github.com/a/b/archive/refs/heads/main.zip")
    [(js "accept", js "*/*"); (js "range", js "bytes=0-99");
     (js "user-agent", js "curl/8.5.0")] no_body.

(** The same request from another client program. *)
Definition get_archive_wget : request :=
  Request (js "GET")
    (js "https://mirror.example/github.com/a/b/archive/refs/heads/main.zip")
    [(js "accept", js "*/*"); (js "user-agent", js "Wget/1.21")] no_body.

Definition archive_200 : response :=
  Response 200
    [ (js "content-length", js "1234");
      (js "content-type", js "application/zip");
      (js "strict-transport-security", js "max-age=31536000") ]
    (BodyStream [80; 75; 3; 4]).

(** Every outbound request is answered with the archive. *)
Definition answers (k : nat) (c : fetch_call) : result response := Ok archive_200.

Definition online : Platform := Fixture.platform (fun k => k) answers.

(** Every outbound request fails in the network. *)
Definition offline : Platform := Fixture.platform (fun k => k) Fixture.no_upstream.

End Scenario.

(** * The claims *)

(** ** C3: headers of the responses of the proxy engine *)

Lemma stored_name_files_queued `{P : Platform} target request up enc w :
  encoded_name target up = Ok enc ->
  stored_name_files w ->
  stored_name_files
    (queued target (rewritten request (hhas (js "Range") (req_headers request)) up enc) w).
Proof.
  intros Hn [Hc Hb]. split; [exact Hc |].
  cbn. apply Forall_app. split; [exact Hb |].
  constructor; [| constructor]. cbn.
  apply encoded_name_inv in Hn as (name & _ & Henc).
  exists name, enc. split; [exact Henc | apply rewritten_disposition].
Qed.

Lemma stored_name_files_settle w : stored_name_files w -> stored_name_files (settle w).
Proof.
  intros [Hc Hb]. split; [| constructor].
  cbn. revert Hc. generalize (edge_cache w).
  induction Hb as [| e b He Hb IH]; intros c Hc; [exact Hc |].
  cbn. apply IH. intros k r.
  destruct (decide (fst e = k)) as [<- | Hne].
  - rewrite lookup_insert_eq. by intros [= <-].
  - rewrite lookup_insert_ne by done. apply Hc.
Qed.

Lemma empty_world_stored : stored_name_files Fixture.empty_world.
Proof.
  split; [| constructor]. intros k c Hk.
  unfold Fixture.empty_world in Hk. cbn [edge_cache] in Hk.
  by rewrite lookup_empty in Hk.
Defined.

(** C3 (as amended).  Every response [proxyFetch] builds from a cached
    entry or from an upstream response carries the three CORS headers, the
    product header, a cache-status marker [HIT], [MISS] or [BYPASS] and a
    [Content-Disposition] with a percent-encoded file name (on a hit, the
    one the entry was stored with).  The only other response is the 502 of
    the [catch] block, returned when the upstream fetch or the derivation
    of the file name throws: it carries the content type of its text and
    nothing else.  The cache keeps holding only responses that name their
    file. *)
Theorem C3_proxy_responses_marked `{P : Platform} target request w resp w' :
  stored_name_files w ->
  proxyFetch target request w = (Returned resp, w') ->
  ((marked resp /\ names_file resp)
   \/ (exists e,
         resp = upstream_error e
         /\ status resp = 502
         /\ resp_headers resp = [(js "content-type", js "text/plain;charset=UTF-8")]
         /\ (upstream (fetches w) (upstream_call target request) = Throw e
             \/ exists up, upstream (fetches w) (upstream_call target request) = Ok up
                           /\ encoded_name target up = Throw e)))
  /\ stored_name_files w'
  /\ stored_name_files (settle w').
Proof.
  intros Hw H. pose proof (proxyFetch_proxy_run target request w) as R.
  rewrite H in R. cbn [fst snd] in R.
  assert (stored_name_files (sent target request w)) as Hsent.
  { destruct Hw as [Hc Hb], (sent_frame target request w) as (_ & Ec & Eb & _).
    split; [by rewrite Ec | by rewrite Eb]. }
  assert (stored_name_files (asked target request w)) as Hasked.
  { unfold asked. by destruct (looks_up request). }
  inversion R as [e | cached Hl Hc | e He | up enc Hup Hn]; subst.
  - split; [left | split; [| apply stored_name_files_settle]; exact Hasked].
    split; [apply served_from_cache_marked |].
    apply served_from_cache_names. destruct Hw as [Hcache _]. by eapply Hcache.
  - split; [right | split; [| apply stored_name_files_settle]; exact Hsent].
    exists e. by repeat split.
  - assert (stored_name_files
              (if cacheable up (hhas (js "Range") (req_headers request)) request
               then queued target
                      (rewritten request (hhas (js "Range") (req_headers request)) up enc)
                      (sent target request w)
               else sent target request w)) as Hfinal.
    { destruct (cacheable up _ request); [| exact Hsent].
      by apply stored_name_files_queued. }
    split; [left | split; [| apply stored_name_files_settle]; exact Hfinal].
    split; [apply rewritten_marked |].
    apply encoded_name_inv in Hn as (name & _ & Henc).
    exists name, enc. split; [exact Henc | apply rewritten_disposition].
Qed.

Lemma C3_proxy_responses_marked_witness :
  exists resp w',
    proxyFetch (P := Scenario.online) Scenario.archive_url Scenario.get_archive
      Fixture.empty_world = (Returned resp, w')
    /\ marked resp /\ names_file resp /\ stored_name_files (settle w').
Proof.
  eexists _, _. split; [vm_compute; reflexivity |].
  edestruct (C3_proxy_responses_marked (P := Scenario.online) Scenario.archive_url
              Scenario.get_archive Fixture.empty_world) as ([[Hm Hn] | (e & He & _)] & _ & Hs).
  - apply empty_world_stored.
  - vm_compute; reflexivity.
  - exact (conj Hm (conj Hn Hs)).
  - discriminate He.
Defined.

(** C3, the claim as stated, fails: with the upstream out of reach, a GET
    for an archive is answered by the 502 of the [catch] block, which has
    no CORS header, no cache-status marker, no product header and no
    [Content-Disposition]. *)
Lemma C3_counterexample :
  exists resp w',
    fetch_handler (P := Scenario.offline) Scenario.get_archive Fixture.empty_world
      = (Returned resp, w')
    /\ status resp = 502
    /\ resp_body resp = BodyText (js "Upstream Error: Network connection lost.")
    /\ hget (js "Access-Control-Allow-Origin") (resp_headers resp) = None
    /\ hget (js "X-Cache-Status") (resp_headers resp) = None
    /\ hget (js "X-Powered-By") (resp_headers resp) = None
    /\ hget (js "Content-Disposition") (resp_headers resp) = None.
Proof. eexists _, _. split; [vm_compute; reflexivity |]. by vm_compute. Qed.

(** ** C5: when a proxied response may be cached *)

Lemma immutable_literal : immutable = js "public, max-age=31536000, immutable".
Proof. reflexivity. Qed.

Lemma background_queued target resp w :
  background (queued target resp w) = background w ++ [(target, resp)].
Proof. reflexivity. Qed.

Lemma list_not_longer {A} (l : list A) (x : A) : l ++ [x] <> l.
Proof.
  intros H. apply (f_equal (@length A)) in H.
  rewrite length_app in H. cbn in H. lia.
Qed.

(** C5.  Let [proxyFetch] pass an upstream response [up] on to the client:
    the cache was not asked or had no entry, the fetch resolved to [up] and
    the file name was derived.  Then the response keeps the status and the
    body of [up]; its [Cache-Control] is the long immutable directive if
    and only if the status of [up] is exactly 200, the request has no
    [Range] header and its method is [GET], and it is [no-store] in every
    other case; and a copy of the response is handed to [ctx.waitUntil] for
    storing, under the target as key, in the first case only.  The edge
    cache itself is as before when the response is returned. *)
Theorem C5_cache_control_and_store `{P : Platform} target request w up enc resp w' :
  proxyFetch target request w = (Returned resp, w') ->
  (if looks_up request then edge_cache w !! target else None) = None ->
  upstream (fetches w) (upstream_call target request) = Ok up ->
  encoded_name target up = Ok enc ->
  let eligible :=
    status up = 200
    /\ hhas (js "Range") (req_headers request) = false
    /\ method request = js "GET" in
  status resp = status up
  /\ resp_body resp = resp_body up
  /\ (carries (js "Cache-Control") (js "public, max-age=31536000, immutable") resp
      <-> eligible)
  /\ (carries (js "Cache-Control") (js "no-store") resp <-> ~ eligible)
  /\ (background w' = background w ++ [(target, resp)] <-> eligible)
  /\ (background w' = background w <-> ~ eligible)
  /\ edge_cache w' = edge_cache w.
Proof.
  intros H Hmiss Hup Hn eligible.
  rewrite proxyFetch_run in H.
  destruct (URL_parse target) as [u |]; [| discriminate H].
  rewrite Hmiss, Hup, Hn in H. cbv zeta in H.
  set (isRange := hhas (js "Range") (req_headers request)) in *.
  pose proof (rewritten_cache_control request isRange up enc) as Hcc.
  pose proof (cacheable_spec up isRange request) as Hspec.
  destruct (sent_frame target request w) as (_ & Hc & Hb & _).
  fold eligible in Hspec.
  destruct (cacheable up isRange request) eqn:Hcache; injection H as <- <-.
  - assert eligible as He by by apply Hspec.
    rewrite immutable_literal in Hcc.
    split; [done |]. split; [done |].
    split; [by split |].
    split.
    { split; [| done]. intros Hns. unfold carries in *. rewrite Hcc in Hns.
      by vm_compute in Hns. }
    split.
    { split; [done |]. intros _. by rewrite background_queued, Hb. }
    split; [| done].
    split; [| done]. intros Hsame. exfalso.
    rewrite background_queued, Hb in Hsame.
    by apply list_not_longer in Hsame.
  - assert (~ eligible) as He.
    { intros He. apply Hspec in He. discriminate He. }
    split; [done |]. split; [done |].
    split.
    { split; [| done]. intros Him. unfold carries in *. rewrite Hcc in Him.
      by vm_compute in Him. }
    split; [by split |].
    split.
    { split; [| done]. intros Hq. rewrite Hb in Hq. symmetry in Hq.
      by apply list_not_longer in Hq. }
    split; [by split |]. done.
Qed.

Lemma C5_cache_control_and_store_witness :
  exists resp w',
    proxyFetch (P := Scenario.online) Scenario.archive_url Scenario.get_archive
      Fixture.empty_world = (Returned resp, w')
    /\ carries (js "Cache-Control") (js "public, max-age=31536000, immutable") resp
    /\ background w' = [(Scenario.archive_url, resp)]
    /\ edge_cache w' = ∅.
Proof.
  eexists _, _. split; [vm_compute; reflexivity |].
  edestruct (C5_cache_control_and_store (P := Scenario.online) Scenario.archive_url
               Scenario.get_archive Fixture.empty_world Scenario.archive_200)
    as (_ & _ & Hcc & _ & Hbg & _ & Hcache).
  - vm_compute; reflexivity.
  - reflexivity.
  - reflexivity.
  - vm_compute; reflexivity.
  - split; [apply Hcc | split; [apply Hbg | exact Hcache]]; by vm_compute.
Defined.

(** ** C6: a request with a [Range] header leaves the cache alone *)

Lemma range_not_looked_up (request : request) :
  hhas (js "Range") (req_headers request) = true -> looks_up request = false.
Proof. unfold looks_up. by intros ->. Qed.

(** C6 (as amended).  A request carrying a [Range] header makes
    [proxyFetch] neither ask the cache nor hand it anything to store: the
    cache and the queue of background writes are as before, also once the
    background work has settled, and the only platform call that can be
    added to the trace is the upstream fetch.  Whenever the upstream
    response is passed on, it carries the marker [BYPASS] and
    [Cache-Control: no-store]; the only other response is the 502 of the
    [catch] block. *)
Theorem C6_range_bypasses_cache `{P : Platform} target request w out w' :
  hhas (js "Range") (req_headers request) = true ->
  proxyFetch target request w = (out, w') ->
  edge_cache w' = edge_cache w
  /\ background w' = background w
  /\ edge_cache (settle w') = edge_cache (settle w)
  /\ (trace w' = trace w
      \/ trace w' = trace w ++ [Fetch (upstream_call target request)])
  /\ (forall resp, out = Returned resp ->
        (carries (js "X-Cache-Status") (js "BYPASS") resp
         /\ carries (js "Cache-Control") (js "no-store") resp
         /\ exists up, upstream (fetches w) (upstream_call target request) = Ok up
                       /\ status resp = status up /\ resp_body resp = resp_body up)
        \/ (exists e, resp = upstream_error e))
  /\ (forall up enc,
        URL_parse target <> None ->
        upstream (fetches w) (upstream_call target request) = Ok up ->
        encoded_name target up = Ok enc ->
        exists resp, out = Returned resp
                     /\ carries (js "X-Cache-Status") (js "BYPASS") resp
                     /\ carries (js "Cache-Control") (js "no-store") resp).
Proof.
  intros Hrange H.
  pose proof (range_not_looked_up request Hrange) as Hlook.
  assert (forall up, cacheable up (hhas (js "Range") (req_headers request)) request = false)
    as Hnc.
  { intros up. unfold cacheable. rewrite Hrange. cbn. by rewrite andb_false_r. }
  assert (sent target request w
          = log (Fetch (upstream_call target request)) (one_more_fetch w)) as Hsent.
  { unfold sent, asked. by rewrite Hlook. }
  assert (forall up enc,
            carries (js "X-Cache-Status") (js "BYPASS")
              (rewritten request (hhas (js "Range") (req_headers request)) up enc)
            /\ carries (js "Cache-Control") (js "no-store")
                 (rewritten request (hhas (js "Range") (req_headers request)) up enc))
    as Hcarry.
  { intros up enc.
    pose proof (rewritten_status request (hhas (js "Range") (req_headers request)) up enc) as H1.
    pose proof (rewritten_cache_control request (hhas (js "Range") (req_headers request)) up enc) as H2.
    rewrite Hnc in H2. rewrite Hrange in H1 at 1. done. }
  assert (edge_cache w' = edge_cache w /\ background w' = background w
          /\ (trace w' = trace w
              \/ trace w' = trace w ++ [Fetch (upstream_call target request)])
          /\ (forall resp, out = Returned resp ->
                (carries (js "X-Cache-Status") (js "BYPASS") resp
                 /\ carries (js "Cache-Control") (js "no-store") resp
                 /\ exists up, upstream (fetches w) (upstream_call target request) = Ok up
                               /\ status resp = status up /\ resp_body resp = resp_body up)
                \/ (exists e, resp = upstream_error e)))
    as (Hc & Hb & Ht & Hr).
  { pose proof (proxyFetch_proxy_run target request w) as R.
    rewrite H in R. cbn [fst snd] in R.
    inversion R as [e | cached Hl Hc | e He | up enc Hup Hn]; subst.
    - repeat split; try done. by left.
    - congruence.
    - rewrite Hsent. repeat split; try done; [by right |].
      intros resp [= <-]. right. by exists e.
    - rewrite Hnc, Hsent. repeat split; try done; [by right |].
      intros resp [= <-]. left. destruct (Hcarry up enc) as [H1 H2].
      split; [exact H1 |]. split; [exact H2 |]. by exists up. }
  split; [exact Hc |]. split; [exact Hb |].
  split; [unfold settle; cbn [edge_cache]; by rewrite Hc, Hb |].
  split; [exact Ht |]. split; [exact Hr |].
  intros up enc Hparse Hup Hn.
  rewrite proxyFetch_run in H.
  destruct (URL_parse target) as [u |]; [| done].
  rewrite Hlook, Hup, Hn in H. cbv zeta in H.
  injection H as <- _. eexists. split; [reflexivity |]. apply Hcarry.
Qed.

Lemma C6_range_bypasses_cache_witness :
  exists resp w',
    proxyFetch (P := Scenario.online) Scenario.archive_url Scenario.get_archive_range
      Fixture.empty_world = (Returned resp, w')
    /\ edge_cache w' = ∅ /\ background w' = []
    /\ carries (js "X-Cache-Status") (js "BYPASS") resp
    /\ carries (js "Cache-Control") (js "no-store") resp.
Proof.
  eexists _, _. split; [vm_compute; reflexivity |].
  edestruct (C6_range_bypasses_cache (P := Scenario.online) Scenario.archive_url
               Scenario.get_archive_range Fixture.empty_world)
    as (Hc & Hb & _ & _ & Hr & _).
  - reflexivity.
  - vm_compute; reflexivity.
  - split; [exact Hc |]. split; [exact Hb |].
    destruct (Hr _ eq_refl) as [(H1 & H2 & _) | (e & He)]; [by split |].
    discriminate He.
Defined.

(** C6, the claim as stated, fails: with the upstream out of reach, the
    request for a range is answered by the 502 of the [catch] block, which
    has neither the marker [BYPASS] nor a [Cache-Control]. *)
Lemma C6_counterexample :
  exists resp w',
    hhas (js "Range") (req_headers Scenario.get_archive_range) = true
    /\ fetch_handler (P := Scenario.offline) Scenario.get_archive_range
         Fixture.empty_world = (Returned resp, w')
    /\ status resp = 502
    /\ hget (js "X-Cache-Status") (resp_headers resp) = None
    /\ hget (js "Cache-Control") (resp_headers resp) = None.
Proof.
  eexists _, _. split; [reflexivity |].
  split; [vm_compute; reflexivity |]. by vm_compute.
Qed.

(** ** C9: the [User-Agent] sent upstream *)

Lemma hdelete_same_name k k' h : same_name k k' -> hdelete k h = hdelete k' h.
Proof.
  intros E. unfold hdelete. apply List.filter_ext.
  intros e. by rewrite (name_is_same _ _ e E).
Qed.

(** C9.  The headers of the upstream request always hold the [User-Agent]
    [Mozilla/5.0 (GitMirror)]; two client requests whose headers differ in
    the [User-Agent] only give the same upstream headers; and every
    outbound fetch a run of [proxyFetch] adds to the trace is sent with
    these headers. *)
Theorem C9_user_agent_overwritten :
  (forall request : request,
     hget (js "User-Agent") (upstream_headers request)
     = Some (js "Mozilla/5.0 (GitMirror)"))
  /\ (forall r1 r2 : request,
        hdelete (js "User-Agent") (req_headers r1)
        = hdelete (js "User-Agent") (req_headers r2) ->
        upstream_headers r1 = upstream_headers r2)
  /\ (forall (P : Platform) target request w c,
        In (Fetch c) (trace (snd (proxyFetch target request w))) ->
        In (Fetch c) (trace w)
        \/ (fc_headers c = upstream_headers request
            /\ hget (js "User-Agent") (fc_headers c)
               = Some (js "Mozilla/5.0 (GitMirror)"))).
Proof.
  assert (forall request : request,
            hget (js "User-Agent") (upstream_headers request)
            = Some (js "Mozilla/5.0 (GitMirror)")) as Hfixed.
  { intros request. rewrite upstream_headers_unfold. by apply hget_hset_same. }
  split; [exact Hfixed |]. split.
  - intros r1 r2 Hsame.
    assert (same_name (js "User-Agent") (js "user-agent")) as Hn by reflexivity.
    rewrite !(hdelete_same_name _ _ _ Hn) in Hsame.
    rewrite !upstream_headers_unfold. unfold hset. f_equal.
    rewrite !(hdelete_same_name _ _ _ Hn).
    rewrite (kept_without_user_agent (req_headers r1)),
            (kept_without_user_agent (req_headers r2)).
    by rewrite Hsame.
  - intros P target request w c Hin.
    pose proof (proxyFetch_proxy_run target request w) as R.
    assert (In (Fetch c) (trace (sent target request w)) ->
            In (Fetch c) (trace w)
            \/ (fc_headers c = upstream_headers request
                /\ hget (js "User-Agent") (fc_headers c)
                   = Some (js "Mozilla/5.0 (GitMirror)"))) as Hsent.
    { rewrite trace_sent. rewrite !in_app_iff.
      intros [Hw | [Hm | [Hf | []]]]; [by left | |].
      - destruct (looks_up request); [| done]. by destruct Hm.
      - injection Hf as <-. right. split; [done | apply Hfixed]. }
    destruct (proxyFetch target request w) as [out w'] eqn:Hrun.
    cbn [fst snd] in *.
    inversion R as [e | cached Hl Hc | e He | up enc Hup Hn]; subst.
    + by left.
    + unfold asked in Hin. rewrite Hl in Hin. cbn in Hin.
      apply in_app_iff in Hin as [Hin | [Hin | []]]; [by left | done].
    + by apply Hsent.
    + destruct (cacheable up _ request); [| by apply Hsent].
      unfold queued in Hin. cbn [trace log with_background] in Hin.
      apply in_app_iff in Hin as [Hin | [Hin | []]]; [by apply Hsent | done].
Qed.

Lemma C9_user_agent_overwritten_witness :
  upstream_headers Scenario.get_archive = upstream_headers Scenario.get_archive_wget
  /\ hget (js "User-Agent") (upstream_headers Scenario.get_archive_wget)
     = Some (js "Mozilla/5.0 (GitMirror)").
Proof.
  destruct C9_user_agent_overwritten as (Hfixed & Hsame & _).
  split; [apply Hsame; reflexivity | apply Hfixed].
Defined.

(** ** C4: the steps of [normalize] *)

(** A [scheme://] prefix in the words of the specification: a scheme as
    RFC 3986 writes it (a letter, then letters, digits, [+], [-] or [.]),
    followed by [://]. *)
Definition is_alpha (c : N) : bool :=
  ((65 <=? c) && (c <=? 90)) || ((97 <=? c) && (c <=? 122)).

Definition is_scheme_char (c : N) : bool :=
  is_alpha c || ((48 <=? c) && (c <=? 57)) || (c =? 43) || (c =? 45) || (c =? 46).

Fixpoint scheme_ends (s : jstr) : bool :=
  match s with
  | [] => false
  | c :: s' => startsWith s (js "://") || (is_scheme_char c && scheme_ends s')
  end.

Definition spec_has_scheme_prefix (s : jstr) : bool :=
  match s with
  | [] => false
  | c :: s' => is_alpha c && scheme_ends s'
  end.

(** The prefix the source tests for: [http://] or [https://], in any
    letter case. *)
Definition has_http_prefix (s : jstr) : Prop :=
  exists p rest,
    s = p ++ rest /\ (toLowerCase p = js "http://" \/ toLowerCase p = js "https://").

(** Neither the first nor the last character is white space. *)
Definition no_outer_space (t : jstr) : Prop :=
  (forall c t', t = c :: t' -> is_space c = false)
  /\ (forall c t', t = t' ++ [c] -> is_space c = false).

Lemma trim_start_spec s :
  exists l, s = l ++ trim_start s
            /\ forallb is_space l = true
            /\ (forall c t', trim_start s = c :: t' -> is_space c = false).
Proof.
  induction s as [| c s (l & Hs & Hl & Hh)].
  - exists []. by repeat split.
  - cbn [trim_start]. destruct (is_space c) eqn:Hc.
    + exists (c :: l). repeat split; [by rewrite Hs at 1 | cbn; by rewrite Hc | done].
    + exists []. repeat split. by intros c' t' [= <- _].
Qed.

Lemma trim_spec s :
  exists l r,
    s = l ++ trim s ++ r
    /\ forallb is_space l = true /\ forallb is_space r = true
    /\ no_outer_space (trim s).
Proof.
  unfold trim, trim_end.
  destruct (trim_start_spec s) as (l & Hs & Hl & Hh).
  destruct (trim_start_spec (rev (trim_start s))) as (r & Hr & Hrs & Hrh).
  set (x := trim_start s) in *. set (y := trim_start (rev x)) in *.
  assert (x = rev y ++ rev r) as Hx.
  { rewrite <- rev_app_distr, <- Hr. by rewrite rev_involutive. }
  exists l, (rev r). split; [by rewrite <- Hx |].
  split; [exact Hl |].
  split.
  { rewrite forallb_forall in *. intros c Hc. apply Hrs. by apply in_rev. }
  split.
  - intros c t' Ht. apply (Hh c (t' ++ rev r)). by rewrite Hx, Ht.
  - intros c t' Ht. apply (Hrh c (rev t')).
    rewrite <- (rev_involutive y), Ht, rev_app_distr. done.
Qed.

Lemma lower_unit_fixed c x :
  (c < 65 \/ 122 < c \/ (90 < c /\ c < 97)) -> lower_unit x = c <-> x = c.
Proof.
  intros Hc. unfold lower_unit.
  destruct ((65 <=? x) && (x <=? 90)) eqn:E; [| done].
  apply andb_true_iff in E as [H1 H2]. apply N.leb_le in H1, H2.
  split; intros; lia.
Qed.

Lemma test_http_scheme_spec s : test_http_scheme s = true <-> has_http_prefix s.
Proof.
  assert (forall x c, ci c x = true <-> lower_unit x = c) as Hci.
  { intros. unfold ci. apply N.eqb_eq. }
  assert (forall r : jstr, startsWith r (js "://") = true
                           <-> exists rest, r = js "://" ++ rest) as Hsep.
  { intros r. split.
    - destruct r as [| a [| b [| c rest]]]; cbn; try done;
        rewrite ?andb_false_r; try done.
      rewrite !andb_true_iff, !N.eqb_eq. intros (<- & <- & <- & _). by exists rest.
    - intros [rest ->]. vm_compute. reflexivity. }
  unfold has_http_prefix. split.
  - destruct s as [| h [| t [| t' [| p r]]]]; cbn [test_http_scheme]; try done.
    rewrite !andb_true_iff, orb_true_iff, !Hci.
    intros ((((Hh & Ht) & Ht') & Hp) & [Hr | Hr]).
    + apply Hsep in Hr as [rest ->].
      exists [h; t; t'; p; 58; 47; 47], rest. split; [done |]. left.
      unfold toLowerCase. cbn [List.map]. by rewrite Hh, Ht, Ht', Hp.
    + destruct r as [| x r']; [done |].
      apply andb_true_iff in Hr as [Hx Hr]. apply Hci in Hx.
      apply Hsep in Hr as [rest ->].
      exists [h; t; t'; p; x; 58; 47; 47], rest. split; [done |]. right.
      unfold toLowerCase. cbn [List.map]. by rewrite Hh, Ht, Ht', Hp, Hx.
  - intros (p & rest & -> & [Hp | Hp]).
    + destruct p as [| h [| t [| t' [| q [| a [| b [| c [| ? ?]]]]]]]]; try done.
      change (js "http://") with [104; 116; 116; 112; 58; 47; 47] in Hp.
      unfold toLowerCase in Hp. cbn [List.map] in Hp.
      injection Hp as Hh Ht Ht' Hq Ha Hb Hc.
      apply (proj1 (lower_unit_fixed 58 a ltac:(lia))) in Ha.
      apply (proj1 (lower_unit_fixed 47 b ltac:(lia))) in Hb.
      apply (proj1 (lower_unit_fixed 47 c ltac:(lia))) in Hc.
      subst a b c.
      cbn [app test_http_scheme]. unfold ci. rewrite Hh, Ht, Ht', Hq. reflexivity.
    + destruct p as [| h [| t [| t' [| q [| x [| a [| b [| c [| ? ?]]]]]]]]]; try done.
      change (js "https://") with [104; 116; 116; 112; 115; 58; 47; 47] in Hp.
      unfold toLowerCase in Hp. cbn [List.map] in Hp.
      injection Hp as Hh Ht Ht' Hq Hx Ha Hb Hc.
      apply (proj1 (lower_unit_fixed 58 a ltac:(lia))) in Ha.
      apply (proj1 (lower_unit_fixed 47 b ltac:(lia))) in Hb.
      apply (proj1 (lower_unit_fixed 47 c ltac:(lia))) in Hc.
      subst a b c.
      cbn [app test_http_scheme]. unfold ci. rewrite Hh, Ht, Ht', Hq, Hx.
      assert (startsWith (58 :: 47 :: 47 :: rest) (js "://") = true) as ->
        by (vm_compute; reflexivity).
      cbn [N.eqb Pos.eqb andb]. by rewrite orb_true_r.
Qed.

Lemma includes_In l s : includes l s = true <-> In s l.
Proof.
  unfold includes. rewrite existsb_exists. split.
  - intros (x & Hin & Hx). apply jstr_eqb_eq in Hx. by subst.
  - intros Hin. exists s. split; [done | apply jstr_eqb_refl].
Qed.

Section NormalizeFacts.

Context {P : Platform}.

Lemma prepared_string s :
  prepared (JStr s)
  = if test_http_scheme (trim s) then trim s else js "https://" ++ trim s.
Proof.
  unfold prepared. cbn [truthy to_String].
  assert (to_String (if nonempty s then JStr s else JStr []) = s) as ->.
  { by destruct s. }
  by destruct (test_http_scheme (trim s)).
Qed.

Lemma normalize_rejects raw u :
  URL_parse (prepared raw) = Some u ->
  ~ In (hostname u) allowed ->
  normalize raw = Throw Host_not_allowed.
Proof.
  intros Hu Hhost. unfold normalize. rewrite Hu.
  destruct (includes allowed (hostname u)) eqn:E; [| done].
  by apply includes_In in E.
Qed.

(** C4 (as amended).  For every raw string, [normalize] trims it
    (removes the white space around it); prepends [https://] exactly when
    the trimmed string does not begin with [http://] or [https://],
    compared without regard to letter case; throws the [TypeError] of the
    URL parser when the resulting string does not parse; throws [Host not
    allowed] exactly when the host name of the parsed URL is none of the
    five allowed ones; and returns the [href] of the parsed URL
    otherwise. *)
Theorem C4_normalize_steps (raw : jstr) :
  (exists l r,
     raw = l ++ trim raw ++ r
     /\ forallb is_space l = true /\ forallb is_space r = true
     /\ no_outer_space (trim raw))
  /\ (has_http_prefix (trim raw) -> prepared (JStr raw) = trim raw)
  /\ (~ has_http_prefix (trim raw) -> prepared (JStr raw) = js "https://" ++ trim raw)
  /\ (URL_parse (prepared (JStr raw)) = None ->
      normalize (JStr raw) = Throw (Exn KTypeError (URL_invalid (prepared (JStr raw)))))
  /\ (forall u,
        URL_parse (prepared (JStr raw)) = Some u ->
        let five :=
          [ js "github.com"; js "raw.githubusercontent.com";
            js "objects.githubusercontent.com"; js "releases.githubusercontent.com";
            js "gist.githubusercontent.com" ] in
        (normalize (JStr raw) = Throw (Exn KError (js "Host not allowed"))
         <-> ~ In (hostname u) five)
        /\ (normalize (JStr raw) = Ok (href u) <-> In (hostname u) five)).
Proof.
  split; [apply trim_spec |].
  split.
  { intros H. apply test_http_scheme_spec in H. by rewrite prepared_string, H. }
  split.
  { intros H. rewrite prepared_string.
    destruct (test_http_scheme (trim raw)) eqn:E; [| done].
    by apply test_http_scheme_spec in E. }
  split.
  { intros H. unfold normalize. by rewrite H. }
  intros u Hu five. unfold normalize. rewrite Hu.
  pose proof (includes_In allowed (hostname u)) as Hin.
  change allowed with five in Hin.
  destruct (includes allowed (hostname u)) eqn:E; cbn [negb].
  - split; split; try done.
    + intros Hn. exfalso. apply Hn. by apply Hin.
    + intros _. by apply Hin.
  - assert (~ In (hostname u) five) as Hn.
    { intros H. apply Hin in H.
      change (includes allowed (hostname u) = true) in H. congruence. }
    split; split; try done.
Qed.

End NormalizeFacts.

Lemma C4_normalize_steps_witness :
  normalize (P := Scenario.offline)
    (JStr (js "  github.com/a/b/archive/refs/heads/main.zip "))
  = Ok Scenario.archive_url.
Proof.
  destruct (C4_normalize_steps (P := Scenario.offline)
              (js "  github.com/a/b/archive/refs/heads/main.zip "))
    as (_ & _ & _ & _ & H).
  edestruct H as [_ [_ Hok]]; [vm_compute; reflexivity |].
  apply Hok. vm_compute. by left.
Defined.

(** C4, the claim as stated, fails: [ftp://github.com/a] has a
    [scheme://] prefix, yet [https://] is put in front of it, so that the
    parser finds the host [ftp] and the call throws [Host not allowed]
    (without the prefix the host would be the allowed [github.com]). *)
Lemma C4_counterexample :
  spec_has_scheme_prefix (trim (js "ftp://github.com/a")) = true
  /\ prepared (P := Scenario.offline) (JStr (js "ftp://github.com/a"))
     = js "https://ftp://github.com/a"
  /\ normalize (P := Scenario.offline) (JStr (js "ftp://github.com/a"))
     = Throw (Exn KError (js "Host not allowed")).
Proof. repeat split; vm_compute; reflexivity. Qed.

(** ** Short codes *)

Section ShortCodes.

Context {P : Platform}.

Lemma floor_of_scaled (q : Q) (n : nat) :
  (0 <= q)%Q -> (q < 1)%Q -> (0 < n)%nat ->
  (Z.to_nat (Qfloor (q * inject_Z (Z.of_nat n))) < n)%nat.
Proof.
  intros H0 H1 Hn.
  set (x := (q * inject_Z (Z.of_nat n))%Q).
  assert (0 <= Qfloor x)%Z as Hlo.
  { change 0%Z with (Qfloor (inject_Z 0)). apply Qfloor_resp_le.
    unfold x. apply Qmult_le_0_compat; [exact H0 |].
    change 0%Q with (inject_Z 0). rewrite <- Zle_Qle. lia. }
  assert (Qfloor x < Z.of_nat n)%Z as Hhi.
  { rewrite Zlt_Qlt. eapply Qle_lt_trans; [apply Qfloor_le |].
    unfold x. apply Qlt_le_trans with (1 * inject_Z (Z.of_nat n))%Q.
    - apply Qmult_lt_compat_r; [| exact H1].
      change 0%Q with (inject_Z 0). rewrite <- Zlt_Qlt. lia.
    - rewrite Qmult_1_l. apply Qle_refl. }
  lia.
Qed.

Lemma random_floor_run n w :
  (0 < n)%nat ->
  exists i, (i < n)%nat /\ random_floor n w = (Returned i, log Random (one_more_draw w)).
Proof.
  intros Hn. eexists. split; [| reflexivity].
  destruct (Math_random_range (draws w)) as [H0 H1].
  by apply floor_of_scaled.
Qed.

Lemma charAt_length (s : jstr) i : (i < length s)%nat -> length (charAt s i) = 1%nat.
Proof.
  intros Hi. unfold charAt.
  destruct (lookup_lt_is_Some_2 s i Hi) as [c ->]. reflexivity.
Qed.

(** What drawing characters leaves unchanged. *)
Definition same_stores (w w' : world) : Prop :=
  SHORT_KV w' = SHORT_KV w /\ edge_cache w' = edge_cache w
  /\ background w' = background w /\ fetches w' = fetches w.

Lemma makeShortCode_from_run n s w :
  exists s' w',
    makeShortCode_from n s w = (Returned s', w')
    /\ length s' = (length s + n)%nat
    /\ same_stores w w'
    /\ draws w' = (draws w + n)%nat.
Proof.
  revert s w. induction n as [| n IH]; intros s w.
  - exists s, w. cbn. unfold same_stores. repeat split; lia.
  - cbn [makeShortCode_from]. unfold bind.
    destruct (random_floor_run (length chars) w) as (i & Hi & ->).
    { vm_compute. lia. }
    destruct (IH (s ++ charAt chars i) (log Random (one_more_draw w)))
      as (s' & w' & -> & Hlen & Hsame & Hd).
    exists s', w'. split; [done |].
    rewrite length_app, charAt_length in Hlen by exact Hi.
    split; [lia |]. split; [exact Hsame |]. cbn in Hd. lia.
Qed.

Lemma makeShortCode_run w :
  exists code w',
    makeShortCode 6 w = (Returned code, w')
    /\ length code = 6%nat /\ same_stores w w'
    /\ draws w' = (draws w + 6)%nat.
Proof.
  destruct (makeShortCode_from_run 6 [] w) as (s' & w' & H & Hl & Hs & Hd).
  by exists s', w'.
Qed.

(** The loop in the words of the specification.  [attempts r w code w']:
    from the world [w], with [r] candidates drawn before, candidates are
    drawn one after the other, each one looked up under [c:]; the drawing
    stops at the first candidate whose key is free, or at the fifth
    candidate whatever its key holds; [code] is the last candidate drawn
    and [w'] the world then. *)
Inductive attempts : nat -> world -> jstr -> world -> Prop :=
| attempt_free r w code w1 :
    makeShortCode 6 w = (Returned code, w1) ->
    truthy_str (SHORT_KV w1 !! (js "c:" ++ code)) = false ->
    attempts r w code (log (KvGet (js "c:" ++ code)) w1)
| attempt_fifth w code w1 :
    makeShortCode 6 w = (Returned code, w1) ->
    attempts 4 w code (log (KvGet (js "c:" ++ code)) w1)
| attempt_again r w code w1 code' w' :
    (r < 4)%nat ->
    makeShortCode 6 w = (Returned code, w1) ->
    truthy_str (SHORT_KV w1 !! (js "c:" ++ code)) = true ->
    attempts (S r) (log (KvGet (js "c:" ++ code)) w1) code' w' ->
    attempts r w code' w'.

Lemma candidate_loop_run fuel r w :
  (r <= 4)%nat -> (5 <= fuel + r)%nat ->
  exists code w',
    candidate_loop fuel r w = (Returned code, w')
    /\ attempts r w code w'
    /\ length code = 6%nat
    /\ same_stores w w'
    /\ exists n, (1 <= n <= 5 - r)%nat /\ draws w' = (draws w + 6 * n)%nat.
Proof.
  revert r w. induction fuel as [| fuel IH]; intros r w Hr Hf; [lia |].
  cbn [candidate_loop]. unfold bind at 1.
  destruct (makeShortCode_run w) as (code & w1 & Hmake & Hlen & Hsame & Hd).
  rewrite Hmake. unfold bind at 1, kv_get.
  destruct (truthy_str (SHORT_KV w1 !! (js "c:" ++ code))) eqn:Hocc; cbn [andb].
  - destruct (S r <? 5)%nat eqn:Hlt.
    + apply Nat.ltb_lt in Hlt.
      destruct (IH (S r) (log (KvGet (js "c:" ++ code)) w1))
        as (code' & w' & Hrun & Hatt & Hlen' & Hsame' & n & Hn & Hd'); [lia | lia |].
      exists code', w'. split; [exact Hrun |].
      split; [eapply attempt_again; eauto; lia |].
      split; [exact Hlen' |].
      split.
      { unfold same_stores in *. cbn in Hsame'. intuition congruence. }
      exists (S n). split; [lia |]. cbn in Hd'. lia.
    + apply Nat.ltb_ge in Hlt. assert (r = 4)%nat as -> by lia.
      exists code, (log (KvGet (js "c:" ++ code)) w1). split; [done |].
      split; [by apply attempt_fifth |]. split; [exact Hlen |].
      split; [exact Hsame |]. exists 1%nat. split; [lia |]. cbn. lia.
  - exists code, (log (KvGet (js "c:" ++ code)) w1). split; [done |].
    split; [by apply attempt_free |]. split; [exact Hlen |].
    split; [exact Hsame |]. exists 1%nat. split; [lia |]. cbn. lia.
Qed.

End ShortCodes.

(** ** The short-link registry *)

Section Registry.

Context {P : Platform}.

(** The world after the two writes of lines 55 and 56. *)
Definition recorded (code target : jstr) (w : world) : world :=
  snd (kv_put (js "u:" ++ sha1 target) code (snd (kv_put (js "c:" ++ code) target w))).

Lemma keys_differ (code hash : jstr) : js "u:" ++ hash <> js "c:" ++ code.
Proof. discriminate. Qed.

Lemma recorded_hash code target w :
  SHORT_KV (recorded code target w) !! (js "u:" ++ sha1 target) = Some code.
Proof. unfold recorded, kv_put. cbn [snd SHORT_KV log with_kv]. apply lookup_insert_eq. Qed.

Lemma recorded_code code target w :
  SHORT_KV (recorded code target w) !! (js "c:" ++ code) = Some target.
Proof.
  unfold recorded, kv_put. cbn [snd SHORT_KV log with_kv].
  rewrite lookup_insert_ne by apply keys_differ. apply lookup_insert_eq.
Qed.

Lemma recorded_trace code target w :
  trace (recorded code target w)
  = trace w ++ [KvPut (js "c:" ++ code) target; KvPut (js "u:" ++ sha1 target) code].
Proof. unfold recorded, kv_put. cbn [snd trace log with_kv]. by rewrite <- app_assoc. Qed.

Lemma issue_run target w :
  exists code w1,
    candidate_loop 5 0 w = (Returned code, w1)
    /\ issue target (sha1 target) w = (Returned code, recorded code target w1)
    /\ attempts 0 w code w1
    /\ length code = 6%nat
    /\ same_stores w w1
    /\ exists n, (1 <= n <= 5)%nat /\ draws w1 = (draws w + 6 * n)%nat.
Proof.
  destruct (candidate_loop_run 5 0 w) as (code & w1 & Hrun & Hatt & Hlen & Hsame & Hn);
    [lia | lia |].
  exists code, w1. split; [exact Hrun |].
  split; [| exact (conj Hatt (conj Hlen (conj Hsame Hn)))].
  unfold issue, bind. by rewrite Hrun.
Qed.

Lemma shorten_existing request payload original target c w :
  req_json request = Ok payload ->
  prop_url payload = Some original ->
  truthy original = true ->
  normalize original = Ok target ->
  SHORT_KV w !! (js "u:" ++ sha1 target) = Some c ->
  c <> [] ->
  shorten request w
  = (Returned (shortened c target), log (KvGet (js "u:" ++ sha1 target)) w).
Proof.
  intros Hjson Hurl Htruthy Hnorm Hc Hne.
  unfold shorten, try_catch, shorten_try, bind at 1, lift.
  rewrite Hjson. cbn [outcome_of]. rewrite Hurl, Htruthy. cbn [negb].
  unfold bind at 1, lift. rewrite Hnorm. cbn [outcome_of].
  unfold bind at 1, kv_get. rewrite Hc.
  assert (truthy_str (Some c) = true) as -> by by destruct c.
  reflexivity.
Qed.

Lemma shorten_fresh request payload original target w :
  req_json request = Ok payload ->
  prop_url payload = Some original ->
  truthy original = true ->
  normalize original = Ok target ->
  truthy_str (SHORT_KV w !! (js "u:" ++ sha1 target)) = false ->
  exists code w1,
    candidate_loop 5 0 (log (KvGet (js "u:" ++ sha1 target)) w) = (Returned code, w1)
    /\ attempts 0 (log (KvGet (js "u:" ++ sha1 target)) w) code w1
    /\ length code = 6%nat
    /\ SHORT_KV w1 = SHORT_KV w
    /\ shorten request w = (Returned (shortened code target), recorded code target w1).
Proof.
  intros Hjson Hurl Htruthy Hnorm Hfree.
  destruct (issue_run target (log (KvGet (js "u:" ++ sha1 target)) w))
    as (code & w1 & Hloop & Hissue & Hatt & Hlen & Hsame & _).
  exists code, w1. split; [exact Hloop |]. split; [exact Hatt |].
  split; [exact Hlen |]. split; [apply Hsame |].
  unfold shorten, try_catch, shorten_try, bind at 1, lift.
  rewrite Hjson. cbn [outcome_of]. rewrite Hurl, Htruthy. cbn [negb].
  unfold bind at 1, lift. rewrite Hnorm. cbn [outcome_of].
  unfold bind at 1, kv_get. rewrite Hfree. cbn [negb].
  unfold bind at 1. by rewrite Hissue.
Qed.

(** The two cases together. *)
Lemma shorten_valid request payload original target w :
  req_json request = Ok payload ->
  prop_url payload = Some original ->
  truthy original = true ->
  normalize original = Ok target ->
  exists code w1,
    shorten request w = (Returned (shortened code target), w1)
    /\ code <> []
    /\ SHORT_KV w1 !! (js "u:" ++ sha1 target) = Some code.
Proof.
  intros Hjson Hurl Htruthy Hnorm.
  destruct (truthy_str (SHORT_KV w !! (js "u:" ++ sha1 target))) eqn:Hocc.
  - destruct (SHORT_KV w !! (js "u:" ++ sha1 target)) as [c |] eqn:Hc; [| done].
    assert (c <> []) as Hne by (by destruct c).
    exists c, (log (KvGet (js "u:" ++ sha1 target)) w).
    split; [by eapply shorten_existing |]. by split.
  - destruct (shorten_fresh request payload original target w)
      as (code & w1 & _ & _ & Hlen & _ & Hrun); try done.
    exists code, (recorded code target w1). split; [exact Hrun |].
    split; [by destruct code | apply recorded_hash].
Qed.

Lemma normalize_nonempty u target : normalize (JStr u) = Ok target -> u <> [].
Proof.
  intros H ->. unfold normalize in H.
  change (prepared (JStr [])) with (js "https://") in H.
  by rewrite URL_parse_no_host in H.
Qed.

Lemma normalize_target_nonempty original target :
  normalize original = Ok target -> target <> [].
Proof.
  unfold normalize.
  destruct (URL_parse (prepared original)) as [u |] eqn:Hu; [| done].
  destruct (includes allowed (hostname u)); [| done].
  cbn. intros [= <-]. by eapply href_nonempty.
Qed.

End Registry.

(** More requests and platforms for the examples. *)
Module Registry_scenario.

Definition archive : jstr := js "github.com/a/b/archive/refs/heads/main.zip".
Definition tool : jstr := js "github.com/c/d/releases/download/v1/tool.exe".
Definition tool_url : jstr := js "https://github.com/c/d/releases/download/v1/tool.exe".

(** A random source that returns 0 at every call: every candidate is
    [aaaaaa]. *)
Definition stuck : Platform := Fixture.platform (fun _ => O) Fixture.no_upstream.

Definition get_short : request :=
  Request (js "GET") (js "https://mirror.example/d/aaaaaa") [] Scenario.no_body.

End Registry_scenario.

Section RegistryClaims.

Context {P : Platform}.

(** A [POST] to [/api/shorten] is handled by branch 3. *)
Lemma fetch_handler_shorten request u0 w :
  URL_parse (url request) = Some u0 ->
  pathname u0 = js "/api/shorten" ->
  method request = js "POST" ->
  fetch_handler request w = shorten request w.
Proof.
  intros Hu Hp Hm. unfold fetch_handler, dispatch. rewrite Hu, Hp, Hm. reflexivity.
Qed.

(** C1.  For every URL [u] that [normalize] accepts, two calls of the
    shorten branch in a row return the same code, and the second one only
    reads the key [u:{sha1(normalize(u))}]: it finds the code there,
    draws no candidate and writes nothing. *)
Theorem C1_create_twice_same_code request payload u target w :
  req_json request = Ok payload ->
  prop_url payload = Some (JStr u) ->
  normalize (JStr u) = Ok target ->
  exists code w1 w2,
    shorten request w = (Returned (shortened code target), w1)
    /\ shorten request w1 = (Returned (shortened code target), w2)
    /\ SHORT_KV w1 !! (js "u:" ++ sha1 target) = Some code
    /\ w2 = log (KvGet (js "u:" ++ sha1 target)) w1
    /\ SHORT_KV w2 = SHORT_KV w1
    /\ draws w2 = draws w1
    /\ trace w2 = trace w1 ++ [KvGet (js "u:" ++ sha1 target)].
Proof.
  intros Hjson Hurl Hnorm.
  assert (truthy (JStr u) = true) as Htruthy.
  { pose proof (normalize_nonempty u target Hnorm). by destruct u. }
  destruct (shorten_valid request payload (JStr u) target w)
    as (code & w1 & Hrun & Hne & Hstored); try done.
  exists code, w1, (log (KvGet (js "u:" ++ sha1 target)) w1).
  split; [exact Hrun |].
  split; [by eapply shorten_existing |].
  by repeat split.
Qed.

(** C2 (as amended).  For every URL [u] that [normalize] accepts: if the
    store holds no code for [u] yet, or holds a code whose [c:] key still
    maps to [normalize(u)], then the code the shorten branch returns
    resolves to [normalize(u)]: [c:{code}] holds it, and the short-link
    branch reads that key once and hands exactly this target to the proxy
    engine, nothing else being changed. *)
Theorem C2_resolve_after_create request payload u target w :
  req_json request = Ok payload ->
  prop_url payload = Some (JStr u) ->
  normalize (JStr u) = Ok target ->
  (forall c, SHORT_KV w !! (js "u:" ++ sha1 target) = Some c -> c <> [] ->
             SHORT_KV w !! (js "c:" ++ c) = Some target) ->
  exists code w1,
    shorten request w = (Returned (shortened code target), w1)
    /\ SHORT_KV w1 !! (js "c:" ++ code) = Some target
    /\ forall request',
         short_link code request' w1
         = proxyFetch target request' (log (KvGet (js "c:" ++ code)) w1).
Proof.
  intros Hjson Hurl Hnorm Hconsistent.
  assert (truthy (JStr u) = true) as Htruthy.
  { pose proof (normalize_nonempty u target Hnorm). by destruct u. }
  assert (target <> []) as Htarget by by eapply normalize_target_nonempty.
  assert (exists code w1,
            shorten request w = (Returned (shortened code target), w1)
            /\ SHORT_KV w1 !! (js "c:" ++ code) = Some target)
    as (code & w1 & Hrun & Hcode).
  { destruct (truthy_str (SHORT_KV w !! (js "u:" ++ sha1 target))) eqn:Hocc.
    - destruct (SHORT_KV w !! (js "u:" ++ sha1 target)) as [c |] eqn:Hc; [| done].
      assert (c <> []) as Hne by (by destruct c).
      exists c, (log (KvGet (js "u:" ++ sha1 target)) w).
      split; [by eapply shorten_existing |]. by apply Hconsistent.
    - destruct (shorten_fresh request payload (JStr u) target w)
        as (code & w1 & _ & _ & _ & _ & Hrun); try done.
      exists code, (recorded code target w1). split; [exact Hrun |].
      apply recorded_code. }
  exists code, w1. split; [exact Hrun |]. split; [exact Hcode |].
  intros request'. unfold short_link, bind, kv_get. rewrite Hcode.
  by destruct target.
Qed.

(** Any two bounds that are large enough give the same run. *)
Lemma candidate_loop_fuel f1 f2 r w :
  (5 <= f1 + r)%nat -> (5 <= f2 + r)%nat -> (r <= 4)%nat ->
  candidate_loop f1 r w = candidate_loop f2 r w.
Proof.
  revert f2 r w. induction f1 as [| f1 IH]; intros f2 r w H1 H2 Hr; [lia |].
  destruct f2 as [| f2]; [lia |].
  cbn [candidate_loop]. unfold bind.
  destruct (makeShortCode 6 w) as [[c | e |] w1]; try done.
  unfold kv_get.
  destruct (truthy_str (SHORT_KV w1 !! (js "c:" ++ c)) && (S r <? 5)%nat) eqn:Hc;
    [| done].
  apply andb_true_iff in Hc as [_ Hlt]. apply Nat.ltb_lt in Hlt.
  apply IH; lia.
Qed.

(** C7.  The loop that draws candidates ends for every bound of five
    iterations or more, with the same result: it draws between one and
    five candidates, stops at the first whose [c:] key is free or at the
    fifth whatever that key holds, and yields the last candidate drawn, a
    string of six characters.  So the shorten branch returns a code for
    every input that is a truthy [url] accepted by [normalize], and for no
    request does it throw or fail to return. *)
Theorem C7_candidate_loop_terminates :
  (forall fuel w,
     (5 <= fuel)%nat ->
     exists code w' n,
       candidate_loop fuel 0 w = (Returned code, w')
       /\ candidate_loop fuel 0 w = candidate_loop 5 0 w
       /\ attempts 0 w code w'
       /\ length code = 6%nat
       /\ (1 <= n <= 5)%nat /\ draws w' = (draws w + 6 * n)%nat)
  /\ (forall w code w1,
        makeShortCode 6 w = (Returned code, w1) ->
        candidate_loop 1 4 w = (Returned code, log (KvGet (js "c:" ++ code)) w1))
  /\ (forall request payload original target w,
        req_json request = Ok payload ->
        prop_url payload = Some original ->
        truthy original = true ->
        normalize original = Ok target ->
        exists code w',
          shorten request w = (Returned (shortened code target), w') /\ code <> [])
  /\ (forall request w, exists resp w', shorten request w = (Returned resp, w')).
Proof.
  split.
  { intros fuel w Hfuel.
    destruct (candidate_loop_run fuel 0 w) as (code & w' & Hrun & Hatt & Hlen & _ & n & Hn & Hd);
      [lia | lia |].
    destruct (candidate_loop_run 5 0 w) as (code5 & w5 & Hrun5 & _); [lia | lia |].
    exists code, w', n. split; [exact Hrun |].
    split.
    { apply candidate_loop_fuel; lia. }
    split; [exact Hatt |]. split; [exact Hlen |]. split; [lia | exact Hd]. }
  split.
  { intros w code w1 Hmake. cbn [candidate_loop]. unfold bind at 1. rewrite Hmake.
    unfold bind, kv_get. cbn [Nat.ltb Nat.leb]. by rewrite andb_false_r. }
  split.
  { intros request payload original target w Hjson Hurl Htruthy Hnorm.
    destruct (shorten_valid request payload original target w)
      as (code & w1 & Hrun & Hne & _); try done.
    by exists code, w1. }
  intros request w.
  destruct (req_json request) as [payload | e] eqn:Hjson.
  2:{ eexists _, _. unfold shorten, try_catch, shorten_try, bind, lift.
      rewrite Hjson. reflexivity. }
  destruct (prop_url payload) as [original |] eqn:Hurl.
  2:{ eexists _, _. unfold shorten, try_catch, shorten_try, bind, lift.
      rewrite Hjson. cbn [outcome_of]. rewrite Hurl. reflexivity. }
  destruct (truthy original) eqn:Htruthy.
  2:{ eexists _, _. unfold shorten, try_catch, shorten_try, bind, lift.
      rewrite Hjson. cbn [outcome_of]. rewrite Hurl, Htruthy. reflexivity. }
  destruct (normalize original) as [target | e] eqn:Hnorm.
  2:{ eexists _, _. unfold shorten, try_catch, shorten_try, bind at 1, lift.
      rewrite Hjson. cbn [outcome_of]. rewrite Hurl, Htruthy. cbn [negb].
      unfold bind at 1, lift. rewrite Hnorm. reflexivity. }
  destruct (shorten_valid request payload original target w)
    as (code & w1 & Hrun & _); try done.
  by eexists _, _.
Qed.

End RegistryClaims.

Lemma C1_create_twice_same_code_witness :
  exists code w1 w2,
    shorten (P := Scenario.offline) (Fixture.post_shorten Registry_scenario.archive)
      Fixture.empty_world = (Returned (shortened code Scenario.archive_url), w1)
    /\ shorten (P := Scenario.offline) (Fixture.post_shorten Registry_scenario.archive) w1
       = (Returned (shortened code Scenario.archive_url), w2)
    /\ SHORT_KV w2 = SHORT_KV w1
    /\ draws w2 = draws w1.
Proof.
  destruct (C1_create_twice_same_code (P := Scenario.offline)
              (Fixture.post_shorten Registry_scenario.archive)
              (JObj [(js "url", JStr Registry_scenario.archive)])
              Registry_scenario.archive Scenario.archive_url Fixture.empty_world)
    as (code & w1 & w2 & H1 & H2 & _ & _ & Hkv & Hd & _).
  - reflexivity.
  - reflexivity.
  - vm_compute; reflexivity.
  - exists code, w1, w2. exact (conj H1 (conj H2 (conj Hkv Hd))).
Defined.

Lemma C2_resolve_after_create_witness :
  exists code w1,
    shorten (P := Scenario.offline) (Fixture.post_shorten Registry_scenario.archive)
      Fixture.empty_world = (Returned (shortened code Scenario.archive_url), w1)
    /\ SHORT_KV w1 !! (js "c:" ++ code) = Some Scenario.archive_url
    /\ short_link (P := Scenario.offline) code Registry_scenario.get_short w1
       = proxyFetch (P := Scenario.offline) Scenario.archive_url
           Registry_scenario.get_short (log (KvGet (js "c:" ++ code)) w1).
Proof.
  destruct (C2_resolve_after_create (P := Scenario.offline)
              (Fixture.post_shorten Registry_scenario.archive)
              (JObj [(js "url", JStr Registry_scenario.archive)])
              Registry_scenario.archive Scenario.archive_url Fixture.empty_world)
    as (code & w1 & H1 & H2 & H3).
  - reflexivity.
  - reflexivity.
  - vm_compute; reflexivity.
  - intros c Hc. unfold Fixture.empty_world in Hc. cbn [SHORT_KV] in Hc.
    by rewrite lookup_empty in Hc.
  - exists code, w1. exact (conj H1 (conj H2 (H3 _))).
Defined.

(** C2, the claim as stated, fails.  Starting from the empty store, with a
    random source that keeps returning the same number: the archive is
    shortened to [aaaaaa]; the tool is shortened next, all five of its
    candidates are the occupied [aaaaaa], the fifth is accepted and
    [c:aaaaaa] is overwritten; shortening the archive again returns
    [aaaaaa], which now resolves to the tool. *)
Lemma C2_counterexample :
  let run := fetch_handler (P := Registry_scenario.stuck) in
  let w1 := snd (run (Fixture.post_shorten Registry_scenario.archive) Fixture.empty_world) in
  let w2 := snd (run (Fixture.post_shorten Registry_scenario.tool) w1) in
  let w3 := snd (run (Fixture.post_shorten Registry_scenario.archive) w2) in
  fst (run (Fixture.post_shorten Registry_scenario.archive) Fixture.empty_world)
  = Returned (shortened (js "aaaaaa") Scenario.archive_url)
  /\ fst (run (Fixture.post_shorten Registry_scenario.tool) w1)
     = Returned (shortened (js "aaaaaa") Registry_scenario.tool_url)
  /\ fst (run (Fixture.post_shorten Registry_scenario.archive) w2)
     = Returned (shortened (js "aaaaaa") Scenario.archive_url)
  /\ normalize (P := Registry_scenario.stuck) (JStr Registry_scenario.archive)
     = Ok Scenario.archive_url
  /\ SHORT_KV w3 !! js "c:aaaaaa" = Some Registry_scenario.tool_url
  /\ Registry_scenario.tool_url <> Scenario.archive_url
  /\ run Registry_scenario.get_short w3
     = proxyFetch (P := Registry_scenario.stuck) Registry_scenario.tool_url
         Registry_scenario.get_short (log (KvGet (js "c:aaaaaa")) w3).
Proof.
  cbv zeta.
  split; [vm_compute; reflexivity |].
  split; [vm_compute; reflexivity |].
  split; [vm_compute; reflexivity |].
  split; [vm_compute; reflexivity |].
  split; [vm_compute; reflexivity |].
  split; [by vm_compute |].
  vm_compute; reflexivity.
Qed.

Lemma C7_candidate_loop_terminates_witness :
  (exists code w',
     candidate_loop (P := Registry_scenario.stuck) 9 0 Fixture.empty_world
     = (Returned code, w')
     /\ length code = 6%nat)
  /\ (exists code w',
        shorten (P := Registry_scenario.stuck)
          (Fixture.post_shorten Registry_scenario.archive) Fixture.empty_world
        = (Returned (shortened code Scenario.archive_url), w')).
Proof.
  destruct (C7_candidate_loop_terminates (P := Registry_scenario.stuck))
    as (Hloop & _ & Hvalid & _).
  split.
  - destruct (Hloop 9%nat Fixture.empty_world ltac:(lia))
      as (code & w' & n & Hrun & _ & _ & Hlen & _).
    by exists code, w'.
  - destruct (Hvalid (Fixture.post_shorten Registry_scenario.archive)
                (JObj [(js "url", JStr Registry_scenario.archive)])
                (JStr Registry_scenario.archive) Scenario.archive_url
                Fixture.empty_world)
      as (code & w' & Hrun & _).
    + reflexivity.
    + reflexivity.
    + reflexivity.
    + vm_compute; reflexivity.
    + by exists code, w'.
Defined.

(** ** C10: the root path and the empty proxy path *)

Section Routing.

Context {P : Platform}.

Definition ui_response (u : URL) : response :=
  new_Response (BodyPage (PageUI (origin u))) 200 (new_Headers ui_headers).

Lemma slash_literal : js "/" = [47].
Proof. reflexivity. Qed.

Lemma dispatch_BadRequest_tests request u :
  dispatch request u = BadRequest
  <-> jstr_eqb (method request) (js "OPTIONS") = false
      /\ jstr_eqb (pathname u) (js "/") = false
      /\ startsWith (pathname u) (js "/d/") = false
      /\ jstr_eqb (pathname u) (js "/api/shorten")
         && jstr_eqb (method request) (js "POST") = false
      /\ jstr_eqb (pathname u) (js "/api/meta") = false
      /\ nonempty (slice (pathname u) 1) = false.
Proof.
  unfold dispatch.
  destruct (jstr_eqb (method request) (js "OPTIONS")); [split; [done | by intros [? _]] |].
  destruct (jstr_eqb (pathname u) (js "/")); [split; [done | by intros (_ & ? & _)] |].
  destruct (startsWith (pathname u) (js "/d/"));
    [split; [done | by intros (_ & _ & ? & _)] |].
  destruct (jstr_eqb (pathname u) (js "/api/shorten")
            && jstr_eqb (method request) (js "POST"));
    [split; [done | by intros (_ & _ & _ & ? & _)] |].
  destruct (jstr_eqb (pathname u) (js "/api/meta"));
    [split; [done | by intros (_ & _ & _ & _ & ? & _)] |].
  cbv zeta.
  destruct (nonempty (slice (pathname u) 1)); cbn [negb];
    [split; [done | by intros (_ & _ & _ & _ & _ & ?)] | done].
Qed.

Lemma jstr_eqb_longer (c : N) (lit : jstr) :
  (2 <= length lit)%nat -> jstr_eqb [c] lit = false.
Proof.
  intros Hl. apply jstr_eqb_neq. intros <-. cbn in Hl. lia.
Qed.

Lemma dispatch_BadRequest request u :
  dispatch request u = BadRequest
  <-> method request <> js "OPTIONS"
      /\ (pathname u = [] \/ exists c, pathname u = [c] /\ c <> 47).
Proof.
  rewrite dispatch_BadRequest_tests, jstr_eqb_neq.
  destruct (pathname u) as [| c [| d rest]] eqn:Hp.
  - split; [intros [Hm _]; split; [done | by left] |].
    intros [Hm _]. by repeat split.
  - assert (jstr_eqb [c] (js "/") = false <-> c <> 47) as Hslash.
    { rewrite jstr_eqb_neq, slash_literal. split; congruence. }
    assert (startsWith [c] (js "/d/") = false) as Hd.
    { change (js "/d/") with [47; 100; 47]. cbn [startsWith]. apply andb_false_r. }
    rewrite Hslash, Hd, !jstr_eqb_longer by (vm_compute; lia).
    split.
    + intros (Hm & Hc & _). split; [done |]. right. by exists c.
    + intros (Hm & [? | (c' & [= <-] & Hc)]); [done |]. by repeat split.
  - split; [by intros (_ & _ & _ & _ & _ & ?) |].
    intros [_ [? | (c' & ? & _)]]; done.
Qed.

(** C10.  A request whose parsed path is exactly [/] is answered with the
    page of the user interface whatever its method, [OPTIONS] apart; and
    the [Bad Request] branch is taken only for a path that is empty or a
    single character other than [/], hence never for the path of an HTTP
    request, which begins with [/]. *)
Theorem C10_root_serves_ui request u w :
  URL_parse (url request) = Some u ->
  (method request <> js "OPTIONS" -> pathname u = js "/" ->
   dispatch request u = UI
   /\ fetch_handler request w = (Returned (ui_response u), w))
  /\ ((exists rest, pathname u = 47 :: rest) -> dispatch request u <> BadRequest)
  /\ (dispatch request u = BadRequest
      <-> method request <> js "OPTIONS"
          /\ (pathname u = [] \/ exists c, pathname u = [c] /\ c <> 47)).
Proof.
  intros Hu. split; [| split; [| apply dispatch_BadRequest]].
  - intros Hm Hp.
    assert (dispatch request u = UI) as Hd.
    { unfold dispatch. rewrite Hp.
      apply jstr_eqb_neq in Hm. by rewrite Hm, jstr_eqb_refl. }
    split; [exact Hd |]. unfold fetch_handler. by rewrite Hu, Hd.
  - intros [rest Hp] Hbad. apply dispatch_BadRequest in Hbad as [_ [He | (c & Hc & Hne)]].
    + congruence.
    + rewrite Hp in Hc. congruence.
Qed.

End Routing.

Module Routing_scenario.

(** [POST /] with a JSON body *)
Definition post_root : request :=
  Request (js "POST") (js "https://mirror.example/") []
    (Ok (JObj [(js "url", JStr Registry_scenario.archive)])).

End Routing_scenario.

Lemma C10_root_serves_ui_witness :
  exists u,
    fetch_handler (P := Scenario.offline) Routing_scenario.post_root Fixture.empty_world
    = (Returned (ui_response u), Fixture.empty_world)
    /\ dispatch Routing_scenario.post_root u <> BadRequest.
Proof.
  eexists.
  edestruct (C10_root_serves_ui (P := Scenario.offline) Routing_scenario.post_root)
    as (Hui & Hbad & _).
  - vm_compute; reflexivity.
  - split.
    + apply Hui; [by vm_compute | reflexivity].
    + apply Hbad. exists []. reflexivity.
Defined.

(** ** C8: the metadata probe *)

Section Metadata.

Context {P : Platform}.

Definition metadata_failed (details : jstr) : response :=
  json_response
    [ (js "error", DStr (js "Failed to fetch metadata"));
      (js "details", DStr details) ] 400.

(** The two requests of the probe, each under a timeout of 5000 ms. *)
Definition head_request (target : jstr) : fetch_call :=
  FetchCall target (js "HEAD") [] (Some 5000).

Definition ranged_request (target : jstr) : fetch_call :=
  FetchCall target (js "GET") [(js "range", js "bytes=0-0")] (Some 5000).

(** The response is OK and has a [content-length] (one that is not the
    empty string). *)
Definition complete (r : response) : Prop :=
  ok r = true
  /\ exists v, hget (js "content-length") (resp_headers r) = Some v /\ v <> [].

Lemma complete_test r :
  negb (ok r) || negb (truthy_str (hget (js "content-length") (resp_headers r))) = false
  <-> complete r.
Proof.
  unfold complete. rewrite orb_false_iff, !negb_false_iff.
  destruct (hget (js "content-length") (resp_headers r)) as [v |]; cbn.
  - split.
    + intros [Hok Hv]. split; [done |]. exists v. split; [done |]. by destruct v.
    + intros [Hok (v' & [= <-] & Hv)]. split; [done |]. by destruct v.
  - split; [by intros [_ ?] | by intros [_ (v & ? & _)]].
Qed.

Lemma meta_run url raw w :
  searchParams_get (js "url") url = Some raw -> raw <> [] ->
  meta url w
  = try_catch (meta_try raw) (fun e => ret (metadata_failed (message e))) w.
Proof.
  intros Hraw Hne. unfold meta. rewrite Hraw.
  destruct raw; [done | reflexivity].
Qed.

(** C8.  For a request to [/api/meta] with a [url] parameter: when the
    host of the parsed URL is outside the allow-list the answer is the 400
    with details [Host not allowed], and no request goes out.  Otherwise
    the first outbound request is a [HEAD] under a timeout of 5000 ms;
    when its response is OK and has a content length, no other request is
    made; when it is not OK or has no content length, exactly one more
    request is made, a [GET] with [Range: bytes=0-0] under the same
    timeout, and if the response to that one is not OK the answer is the
    400 with error [Failed to fetch metadata] (details [File not
    reachable]).  A [HEAD] that throws gives the same 400 with the message
    of the exception. *)
Theorem C8_metadata_probe (url : URL) raw w :
  searchParams_get (js "url") url = Some raw ->
  raw <> [] ->
  (forall u,
     URL_parse (prepared (JStr raw)) = Some u ->
     ~ In (hostname u)
          [ js "github.com"; js "raw.githubusercontent.com";
            js "objects.githubusercontent.com"; js "releases.githubusercontent.com";
            js "gist.githubusercontent.com" ] ->
     meta url w = (Returned (metadata_failed (js "Host not allowed")), w)
     /\ status (metadata_failed (js "Host not allowed")) = 400)
  /\ (forall target r1,
        normalize (JStr raw) = Ok target ->
        upstream (fetches w) (head_request target) = Ok r1 ->
        exists out w',
          meta url w = (Returned out, w')
          /\ (complete r1 -> trace w' = trace w ++ [Fetch (head_request target)])
          /\ (~ complete r1 ->
              trace w'
              = trace w ++ [Fetch (head_request target); Fetch (ranged_request target)]
              /\ forall r2,
                   upstream (S (fetches w)) (ranged_request target) = Ok r2 ->
                   ok r2 = false ->
                   out = metadata_failed (js "File not reachable")))
  /\ (forall target e,
        normalize (JStr raw) = Ok target ->
        upstream (fetches w) (head_request target) = Throw e ->
        exists w',
          meta url w = (Returned (metadata_failed (message e)), w')
          /\ trace w' = trace w ++ [Fetch (head_request target)]).
Proof.
  intros Hraw Hne. rewrite (meta_run url raw w Hraw Hne).
  split; [| split].
  - intros u Hu Hhost. split; [| reflexivity].
    unfold try_catch, meta_try, bind at 1, lift.
    by rewrite (normalize_rejects (JStr raw) u Hu Hhost).
  - intros target r1 Hnorm Hhead.
    unfold try_catch, meta_try, bind at 1, lift. rewrite Hnorm. cbn [outcome_of].
    unfold head_request, ranged_request in *.
    unfold bind at 1, fetchWithTimeout, platform_fetch at 1, default_timeout.
    rewrite Hhead. cbn [outcome_of].
    change (new_Headers [(js "Range", js "bytes=0-0")]) with [(js "range", js "bytes=0-0")].
    pose proof (complete_test r1) as Htest.
    destruct (negb (ok r1)
              || negb (truthy_str (hget (js "content-length") (resp_headers r1))))
      eqn:Hretry.
    + assert (~ complete r1) as Hnot.
      { intros Hc. apply Htest in Hc. discriminate Hc. }
      unfold bind at 1, platform_fetch. cbn [fetches log one_more_fetch].
      destruct (upstream (S (fetches w)) _) as [r2 | e2] eqn:Hr2; cbn [outcome_of].
      * destruct (ok r2) eqn:Hok2; cbn [negb].
        -- unfold bind, lift.
           destruct (getFilename target r2) as [name | e3]; cbn [outcome_of].
           ++ eexists _, _. split; [reflexivity |]. split; [done |].
              intros _. split; [cbn; by rewrite <- app_assoc |].
              intros r2' [= <-] Hbad. congruence.
           ++ eexists _, _. split; [reflexivity |]. split; [done |].
              intros _. split; [cbn; by rewrite <- app_assoc |].
              intros r2' [= <-] Hbad. congruence.
        -- eexists _, _. split; [reflexivity |]. split; [done |].
           intros _. split; [cbn; by rewrite <- app_assoc |].
           intros r2' [= <-] _. reflexivity.
      * eexists _, _. split; [reflexivity |]. split; [done |].
        intros _. split; [cbn; by rewrite <- app_assoc |]. by intros r2' [=].
    + assert (complete r1) as Hc by by apply Htest.
      unfold bind at 1, ret.
      destruct Hc as [Hok _]. rewrite Hok. cbn [negb].
      unfold bind, lift.
      destruct (getFilename target r1) as [name | e3]; cbn [outcome_of];
        eexists _, _; (split; [reflexivity |]); split; try done.
      all: intros Hnot; exfalso; apply Hnot; by apply Htest.
  - intros target e Hnorm Hhead.
    unfold try_catch, meta_try, bind at 1, lift. rewrite Hnorm. cbn [outcome_of].
    unfold head_request in *.
    unfold bind at 1, fetchWithTimeout, platform_fetch, default_timeout.
    rewrite Hhead. cbn [outcome_of].
    eexists. split; reflexivity.
Qed.

End Metadata.

Module Metadata_scenario.

(** [GET /api/meta?url=github.com/a/b/archive/refs/heads/main.zip], as
    parsed *)
Definition meta_archive : URL :=
  snd (Fixture.https (js "mirror.example") (js "/api/meta")
         [(js "url", Registry_scenario.archive)]
         (js "?url=github.com" ++ Fixture.main_zip)).

Definition method_not_allowed : response := Response 405 [] BodyNull.
Definition missing : response := Response 404 [] (BodyStream []).

(** The upstream refuses [HEAD] and has no such file. *)
Definition refusing : Platform :=
  Fixture.platform (fun k => k)
    (fun k c => if jstr_eqb (fc_method c) (js "HEAD")
                then Ok method_not_allowed else Ok missing).

(** [GET /api/meta?url=example.com/x] *)
Definition get_meta_elsewhere : request :=
  Request (js "GET") (js "https://mirror.example/api/meta?url=example.com/x") []
    Scenario.no_body.

End Metadata_scenario.

Lemma C8_metadata_probe_witness :
  exists w',
    meta (P := Metadata_scenario.refusing) Metadata_scenario.meta_archive
      Fixture.empty_world
    = (Returned (metadata_failed (js "File not reachable")), w')
    /\ trace w'
       = [ Fetch (head_request Scenario.archive_url);
           Fetch (ranged_request Scenario.archive_url) ].
Proof.
  destruct (C8_metadata_probe (P := Metadata_scenario.refusing)
              Metadata_scenario.meta_archive Registry_scenario.archive
              Fixture.empty_world) as (_ & Hprobe & _).
  - reflexivity.
  - discriminate.
  - destruct (Hprobe Scenario.archive_url Metadata_scenario.method_not_allowed)
      as (out & w' & Hrun & _ & Hretry).
    + vm_compute; reflexivity.
    + reflexivity.
    + destruct Hretry as [Ht Hout].
      { intros [Hok _]. discriminate Hok. }
      exists w'. rewrite Hrun.
      rewrite (Hout Metadata_scenario.missing eq_refl eq_refl).
      split; [reflexivity | exact Ht].
Defined.

(** The example of the specification: a probe for a host outside the
    allow-list. *)
Example meta_host_not_allowed :
  fetch_handler (P := Scenario.online) Metadata_scenario.get_meta_elsewhere
    Fixture.empty_world
  = (Returned (metadata_failed (js "Host not allowed")), Fixture.empty_world).
Proof. vm_compute. reflexivity. Qed.

(** * Further properties of the worker *)

(** ** Splitting a string *)

Lemma split_go_nonempty sep skip cur s : split_go sep skip cur s <> [].
Proof.
  revert skip cur. induction s as [| c s IH]; intros skip cur; [done |].
  cbn [split_go]. destruct skip; [| apply IH].
  destruct (startsWith (c :: s) sep); [done | apply IH].
Qed.

Lemma last_cons_nonempty {A} (x : A) (l : list A) (d : A) :
  l <> [] -> List.last (x :: l) d = List.last l d.
Proof. by destruct l. Qed.

(** A string without the separator character is one piece. *)
Lemma split_go_no_separator (c : N) (cur s : jstr) :
  ~ In c s -> split_go [c] 0 cur s = [rev cur ++ s].
Proof.
  revert cur. induction s as [| x s IH]; intros cur Hc.
  - cbn. by rewrite app_nil_r.
  - cbn [split_go startsWith].
    destruct (N.eqb_spec c x) as [-> | Hne]; [exfalso; apply Hc; by left |].
    cbn [andb]. rewrite IH by (intros H; apply Hc; by right).
    cbn [rev]. by rewrite <- app_assoc.
Qed.

(** The last piece of [base ++ c :: rest] is [rest] when [rest] has no
    separator [c]. *)
Lemma pop_split_go_suffix (c : N) (cur base rest : jstr) :
  ~ In c rest -> pop (split_go [c] 0 cur (base ++ c :: rest)) = rest.
Proof.
  intros Hc. revert cur. induction base as [| x base IH]; intros cur.
  - cbn [app split_go startsWith]. rewrite N.eqb_refl. cbn [andb length Nat.sub].
    unfold pop. rewrite last_cons_nonempty by apply split_go_nonempty.
    by rewrite split_go_no_separator.
  - cbn [app split_go startsWith].
    destruct (c =? x); cbn [andb length Nat.sub].
    + unfold pop. rewrite last_cons_nonempty by apply split_go_nonempty. apply IH.
    + apply IH.
Qed.

Lemma pop_split_suffix (c : N) (base rest : jstr) :
  ~ In c rest -> pop (split [c] (base ++ c :: rest)) = rest.
Proof. apply pop_split_go_suffix. Qed.


(** ** [makeShortCode]: length and alphabet *)

Section CodeAlphabet.

Context {P : Platform}.

(** The glyphs the alphabet leaves out: zero, capital o, small l and
    capital i.  The digit one is part of the alphabet. *)
Definition ambiguous : jstr := js "0OlI".

Lemma chars_unambiguous : Forall (fun c => ~ In c ambiguous) chars.
Proof.
  apply List.Forall_forall. intros c Hc Ha.
  assert (existsb (fun a => existsb (N.eqb a) ambiguous) chars = false) as Hno
    by (vm_compute; reflexivity).
  assert (existsb (fun a => existsb (N.eqb a) ambiguous) chars = true) as Hyes.
  { apply existsb_exists. exists c. split; [exact Hc |].
    apply existsb_exists. exists c. split; [exact Ha | apply N.eqb_refl]. }
  congruence.
Qed.

Lemma charAt_in (s : jstr) i c : charAt s i = [c] -> In c s.
Proof.
  unfold charAt. destruct (s !! i) as [d |] eqn:Hd; [| done].
  intros [= <-]. apply list_elem_of_In. by eapply list_elem_of_lookup_2.
Qed.

Lemma makeShortCode_from_alphabet n s w :
  Forall (fun c => In c chars) s ->
  exists s' w',
    makeShortCode_from n s w = (Returned s', w')
    /\ length s' = (length s + n)%nat
    /\ Forall (fun c => In c chars) s'
    /\ same_stores w w'
    /\ draws w' = (draws w + n)%nat
    /\ trace w' = trace w ++ repeat Random n.
Proof.
  revert s w. induction n as [| n IH]; intros s w Hs.
  - exists s, w. cbn. unfold same_stores. rewrite app_nil_r. repeat split; try done; lia.
  - cbn [makeShortCode_from]. unfold bind.
    destruct (random_floor_run (length chars) w) as (i & Hi & ->).
    { vm_compute. lia. }
    assert (exists c, charAt chars i = [c]) as [c Hc].
    { unfold charAt. destruct (lookup_lt_is_Some_2 chars i Hi) as [c ->]. by exists c. }
    destruct (IH (s ++ charAt chars i) (log Random (one_more_draw w)))
      as (s' & w' & -> & Hlen & Hall & Hsame & Hd & Ht).
    { apply Forall_app. split; [exact Hs |]. rewrite Hc.
      constructor; [by eapply charAt_in | constructor]. }
    exists s', w'. split; [done |].
    rewrite length_app, Hc in Hlen. cbn in Hlen.
    split; [lia |]. split; [exact Hall |]. split; [exact Hsame |].
    split; [cbn in Hd; lia |].
    rewrite Ht. cbn [trace log one_more_draw repeat]. by rewrite <- app_assoc.
Qed.

(** X1.  For every length and every random source, [makeShortCode]
    returns a string of that length whose characters all come from the
    alphabet of 58, so that none of them is a zero, a capital o, a small l
    or a capital i (the digit one does belong to the alphabet); it makes
    one call of [Math.random] per character and touches neither the store
    nor the cache. *)
Theorem makeShortCode_alphabet (len : nat) (w : world) :
  exists code w',
    makeShortCode len w = (Returned code, w')
    /\ length code = len
    /\ Forall (fun c => In c chars) code
    /\ Forall (fun c => ~ In c (js "0OlI")) code
    /\ length chars = 58%nat /\ In 49 chars
    /\ draws w' = (draws w + len)%nat
    /\ trace w' = trace w ++ repeat Random len
    /\ SHORT_KV w' = SHORT_KV w /\ edge_cache w' = edge_cache w
    /\ background w' = background w.
Proof.
  destruct (makeShortCode_from_alphabet len [] w) as (code & w' & Hrun & Hlen & Hall & Hsame & Hd & Ht).
  { constructor. }
  exists code, w'. split; [exact Hrun |]. split; [exact Hlen |].
  split; [exact Hall |].
  split.
  { pose proof chars_unambiguous as Hu. rewrite List.Forall_forall in *.
    intros c Hc. apply Hu. by apply Hall. }
  split; [reflexivity |]. split; [vm_compute; tauto |]. split; [exact Hd |]. split; [exact Ht |].
  destruct Hsame as (Hk & Hc & Hb & _). by repeat split.
Qed.

End CodeAlphabet.

(** ** [sha1]: the shape of a hash *)

Definition is_lower_hex (c : N) : Prop :=
  (48 <= c /\ c <= 57) \/ (97 <= c /\ c <= 102).

Lemma hex_digit_lower d : d < 16 -> is_lower_hex (hex_digit d).
Proof.
  intros Hd. unfold hex_digit, is_lower_hex.
  destruct (N.ltb_spec d 10); lia.
Qed.

Lemma be_bytes_bytes n x :
  length (SHA1.be_bytes n x) = n /\ Forall (fun b => b < 256) (SHA1.be_bytes n x).
Proof.
  induction n as [| n [IHl IHb]]; [by split |].
  cbn [SHA1.be_bytes]. split; [cbn; by rewrite IHl |].
  constructor; [| exact IHb].
  change 255 with (N.ones 8). rewrite N.land_ones.
  apply N.mod_lt. discriminate.
Qed.

Lemma digest_bytes msg :
  length (SHA1.digest msg) = 20%nat /\ Forall (fun b => b < 256) (SHA1.digest msg).
Proof.
  unfold SHA1.digest. cbv zeta.
  split.
  - rewrite !length_app. by rewrite !(proj1 (be_bytes_bytes 4 _)).
  - rewrite !Forall_app. repeat split; apply be_bytes_bytes.
Qed.

Lemma hex_bytes_shape (l : list N) :
  Forall (fun b => b < 256) l ->
  length (concat (List.map hex_byte l)) = (2 * length l)%nat
  /\ Forall is_lower_hex (concat (List.map hex_byte l)).
Proof.
  induction 1 as [| b l Hb Hl [IHlen IHall]]; [by split |].
  cbn [List.map concat]. split.
  - rewrite length_app, IHlen. cbn. lia.
  - apply Forall_app. split; [| exact IHall].
    unfold hex_byte. constructor; [| constructor; [| constructor]].
    + apply hex_digit_lower. apply N.Div0.div_lt_upper_bound. lia.
    + apply hex_digit_lower. apply N.mod_lt. discriminate.
Qed.

(** X2.  The hash of any string is 40 characters long, each a digit or a
    letter from a to f in lower case; two hash keys [u:{hash}] therefore
    have the same length, and no hash is empty. *)
Theorem sha1_forty_hex_digits (str : jstr) :
  length (sha1 str) = 40%nat
  /\ Forall is_lower_hex (sha1 str)
  /\ sha1 str <> []
  /\ length (js "u:" ++ sha1 str) = 42%nat.
Proof.
  destruct (digest_bytes (utf8 str)) as [Hlen Hall].
  destruct (hex_bytes_shape _ Hall) as [Hl Hh]. rewrite Hlen in Hl.
  unfold sha1. split; [exact Hl |]. split; [exact Hh |].
  split.
  - intros H. rewrite H in Hl. discriminate Hl.
  - rewrite length_app, Hl. reflexivity.
Qed.

(** ** Headers sent upstream and headers passed back *)

Lemma Forall_hdelete (Q : jstr * jstr -> Prop) k (h : headers) :
  Forall Q h -> Forall Q (hdelete k h).
Proof.
  rewrite !List.Forall_forall. intros H e He.
  apply List.filter_In in He as [He _]. by apply H.
Qed.

Lemma Forall_hset (Q : jstr * jstr -> Prop) k v (h : headers) :
  Forall Q h -> Q (toLowerCase k, v) -> Forall Q (hset k v h).
Proof.
  intros Hh Hk. unfold hset. apply Forall_app. split; [by apply Forall_hdelete |].
  by constructor.
Qed.

Lemma hget_in k v (h : headers) :
  hget k h = Some v -> exists e, In e h /\ toLowerCase (fst e) = toLowerCase k.
Proof.
  unfold hget. destruct (List.filter (name_is k) h) as [| e es] eqn:Hf; [done |].
  intros _. assert (In e (List.filter (name_is k) h)) as He by (rewrite Hf; by left).
  apply List.filter_In in He as [He Hn]. exists e. split; [exact He |].
  by apply jstr_eqb_eq in Hn.
Qed.

Lemma hget_hdelete_same k k' (h : headers) :
  same_name k k' -> hget k' (hdelete k h) = None.
Proof. intros E. unfold hget. by rewrite (named_hdelete_same _ _ _ E). Qed.

Lemma hhas_hget k (h : headers) : hhas k h = true <-> hget k h <> None.
Proof.
  unfold hhas, hget. induction h as [| e h IH]; [done |].
  cbn [existsb List.filter]. destruct (name_is k e); [done |]. exact IH.
Qed.

(** X3.  The headers of the upstream request hold no header but
    [range], [user-agent], [accept] and [accept-encoding]: whatever else
    the client sends (a cookie, an authorization) is not passed on, and
    asking the upstream headers for any other name gives nothing. *)
Theorem upstream_headers_only_kept (request : request) :
  Forall (fun e => In (fst e) [js "range"; js "user-agent"; js "accept"; js "accept-encoding"])
    (upstream_headers request)
  /\ (forall k v,
        hget k (upstream_headers request) = Some v ->
        In (toLowerCase k) [js "range"; js "user-agent"; js "accept"; js "accept-encoding"])
  /\ hget (js "Cookie") (upstream_headers request) = None
  /\ hget (js "Authorization") (upstream_headers request) = None.
Proof.
  set (keep := [js "range"; js "user-agent"; js "accept"; js "accept-encoding"]).
  assert (Forall (fun e : jstr * jstr => In (fst e) keep) (upstream_headers request))
    as Hall.
  { rewrite upstream_headers_unfold.
    apply Forall_hset; [| vm_compute; tauto].
    assert (forall (h acc : headers),
              Forall (fun e : jstr * jstr => In (fst e) keep) acc ->
              Forall (fun e : jstr * jstr => In (fst e) keep) (fold_left keep_step h acc))
      as Hfold; [| apply Hfold; constructor].
    induction h as [| e h IH]; intros acc Hacc; [exact Hacc |].
    cbn [fold_left]. apply IH. unfold keep_step.
    destruct (includes headersToKeep (toLowerCase (fst e))) eqn:Hk; [| exact Hacc].
    apply Forall_hset; [exact Hacc |]. cbn [fst].
    by apply includes_In in Hk. }
  assert (forall k v, hget k (upstream_headers request) = Some v -> In (toLowerCase k) keep)
    as Hget.
  { intros k v Hk. apply hget_in in Hk as (e & He & Hn).
    rewrite List.Forall_forall in Hall. specialize (Hall e He).
    assert (toLowerCase (fst e) = fst e) as Hlow.
    { unfold keep in Hall. cbn [In] in Hall.
      destruct Hall as [<- | [<- | [<- | [<- | []]]]]; reflexivity. }
    by rewrite <- Hn, Hlow. }
  split; [exact Hall |]. split; [exact Hget |].
  split.
  - destruct (hget (js "Cookie") (upstream_headers request)) as [v |] eqn:H; [| done].
    apply Hget in H. vm_compute in H. intuition discriminate.
  - destruct (hget (js "Authorization") (upstream_headers request)) as [v |] eqn:H; [| done].
    apply Hget in H. vm_compute in H. intuition discriminate.
Qed.

(** The names the rewriting of an upstream response removes or sets. *)
Definition rewritten_names : list jstr :=
  [ js "link"; js "strict-transport-security";
    js "access-control-allow-origin"; js "access-control-allow-methods";
    js "access-control-allow-headers"; js "x-cache-status"; js "x-powered-by";
    js "content-disposition"; js "cache-control" ].

Section PassThrough.

Context {P : Platform}.

Lemma not_rewritten_name k name :
  ~ In (toLowerCase k) rewritten_names -> In name rewritten_names -> ~ same_name name k.
Proof.
  intros Hk Hn Hs. unfold same_name in Hs. apply Hk. rewrite <- Hs.
  unfold rewritten_names in *. cbn [In] in Hn.
  repeat (destruct Hn as [<- | Hn]; [vm_compute; tauto |]). destruct Hn.
Qed.

(** X4.  The response built from an upstream response has the status and
    the body of the upstream response; the upstream's [link] and
    [strict-transport-security] are gone; and every upstream header the
    engine neither removes nor sets reaches the client with the value the
    upstream gave it (the content type too, the body being a stream). *)
Theorem proxy_rewrite_passes_headers target request isRange up w resp w' :
  proxy_rewrite target request isRange up w = (Returned resp, w') ->
  status resp = status up
  /\ resp_body resp = resp_body up
  /\ hget (js "Link") (resp_headers resp) = None
  /\ hget (js "Strict-Transport-Security") (resp_headers resp) = None
  /\ (forall k,
        ~ In (toLowerCase k) rewritten_names ->
        toLowerCase k <> js "content-type" ->
        hget k (resp_headers resp) = hget k (resp_headers up))
  /\ (is_string_body (resp_body up) = false ->
      hget (js "Content-Type") (resp_headers resp)
      = hget (js "Content-Type") (resp_headers up)).
Proof.
  rewrite proxy_rewrite_run.
  destruct (encoded_name target up) as [enc | e]; [| done].
  cbv zeta. intros [= <- _].
  split; [reflexivity |]. split; [reflexivity |].
  assert (forall k,
            ~ In (toLowerCase k) rewritten_names ->
            hget k (if cacheable up isRange request
                    then hset (js "Cache-Control") immutable
                           (hset (js "Content-Disposition")
                              (js "attachment; filename*=UTF-8''" ++ enc)
                              (hset (js "X-Powered-By") (js "GitMirror-Pro")
                                 (hset (js "X-Cache-Status")
                                    (if isRange then js "BYPASS" else js "MISS")
                                    (set_cors
                                       (hdelete (js "strict-transport-security")
                                          (hdelete (js "link") (resp_headers up)))))))
                    else hset (js "Cache-Control") (js "no-store")
                           (hset (js "Content-Disposition")
                              (js "attachment; filename*=UTF-8''" ++ enc)
                              (hset (js "X-Powered-By") (js "GitMirror-Pro")
                                 (hset (js "X-Cache-Status")
                                    (if isRange then js "BYPASS" else js "MISS")
                                    (set_cors
                                       (hdelete (js "strict-transport-security")
                                          (hdelete (js "link") (resp_headers up))))))))
            = hget k (resp_headers up)) as Hpass.
  { intros k Hk.
    assert (forall name, In name rewritten_names -> ~ same_name name k) as Hne.
    { intros name. by apply not_rewritten_name. }
    assert (forall name v h, In (toLowerCase name) rewritten_names ->
              hget k (hset name v h) = hget k h) as Hset.
    { intros name v h Hn. apply hget_hset_other. intros Hs.
      apply (Hne (toLowerCase name) Hn). unfold same_name in *.
      by rewrite toLowerCase_idem. }
    assert (forall name h, In (toLowerCase name) rewritten_names ->
              hget k (hdelete name h) = hget k h) as Hdel.
    { intros name h Hn. apply hget_hdelete_other. intros Hs.
      apply (Hne (toLowerCase name) Hn). unfold same_name in *.
      by rewrite toLowerCase_idem. }
    rewrite set_cors_unfold.
    destruct (cacheable up isRange request);
      rewrite !Hset, !Hdel by (vm_compute; tauto); reflexivity. }
  unfold rewritten. cbv zeta. cbn [resp_headers new_Response].
  split.
  { destruct (cacheable up isRange request), (is_string_body (resp_body up) && _);
      rewrite ?(hget_app_other (js "content-type")) by names_differ;
      read_header; apply hget_hdelete_same; reflexivity. }
  split.
  { destruct (cacheable up isRange request), (is_string_body (resp_body up) && _);
      rewrite ?(hget_app_other (js "content-type")) by names_differ;
      read_header; apply hget_hdelete_same; reflexivity. }
  split.
  { intros k Hk Hct.
    assert (~ same_name (js "content-type") k) as Hnct.
    { unfold same_name. intros Hs. apply Hct. by rewrite <- Hs. }
    rewrite <- (Hpass k Hk).
    destruct (is_string_body (resp_body up) && _); [| done].
    by apply hget_app_other. }
  intros Hbody. rewrite Hbody. cbn [andb].
  apply Hpass. vm_compute. intuition discriminate.
Qed.

End PassThrough.

(** ** The file name in [Content-Disposition] *)

(** The characters [encodeURIComponent] produces: the unreserved ones and
    the percent sign of an escape. *)
Definition uri_safe (c : N) : Prop := unreserved c = true \/ c = 37.

Lemma upper_hex_digit_unreserved d : d < 16 -> unreserved (upper_hex_digit d) = true.
Proof.
  intros Hd.
  assert (forallb (fun n => unreserved (upper_hex_digit (N.of_nat n))) (seq 0 16) = true)
    as Hall by (vm_compute; reflexivity).
  rewrite forallb_forall in Hall.
  rewrite <- (N2Nat.id d). apply Hall. apply in_seq. lia.
Qed.

Lemma escape_safe (bytes : list N) :
  Forall (fun b => b < 256) bytes -> Forall uri_safe (escape bytes).
Proof.
  induction 1 as [| b l Hb Hl IH]; [constructor |].
  unfold escape. cbn [List.map concat]. apply Forall_app. split; [| exact IH].
  unfold escape_byte. constructor; [by right |].
  constructor; [left | constructor; [left | constructor]].
  - apply upper_hex_digit_unreserved. apply N.Div0.div_lt_upper_bound. lia.
  - apply upper_hex_digit_unreserved. apply N.mod_lt. discriminate.
Qed.

Lemma utf8_point_bytes cp : cp < 1114112 -> Forall (fun b => b < 256) (utf8_point cp).
Proof.
  intros Hcp. unfold utf8_point.
  assert (forall x, N.land x 63 < 64) as Hland.
  { intros x. change 63 with (N.ones 6). rewrite N.land_ones. apply N.mod_lt. discriminate. }
  assert (forall n, N.shiftr cp n = cp / 2 ^ n) as Hshift by (intros; apply N.shiftr_div_pow2).
  destruct (N.ltb_spec cp 128); [repeat constructor; lia |].
  destruct (N.ltb_spec cp 2048).
  { pose proof (Hland cp). repeat constructor; try lia.
    rewrite Hshift. assert (cp / 2 ^ 6 < 32) by (apply N.Div0.div_lt_upper_bound; cbn; lia).
    lia. }
  destruct (N.ltb_spec cp 65536).
  { pose proof (Hland cp). pose proof (Hland (N.shiftr cp 6)).
    repeat constructor; try lia.
    rewrite Hshift. assert (cp / 2 ^ 12 < 16) by (apply N.Div0.div_lt_upper_bound; cbn; lia).
    lia. }
  pose proof (Hland cp). pose proof (Hland (N.shiftr cp 6)).
  pose proof (Hland (N.shiftr cp 12)).
  repeat constructor; try lia.
  rewrite Hshift. assert (cp / 2 ^ 18 < 8) by (apply N.Div0.div_lt_upper_bound; cbn; lia).
  lia.
Qed.

Lemma pair_point c d :
  is_high c = true -> is_low d = true ->
  65536 + N.shiftl (c - 55296) 10 + (d - 56320) < 1114112.
Proof.
  unfold is_high, is_low. rewrite !andb_true_iff, !N.leb_le.
  intros [? ?] [? ?]. rewrite N.shiftl_mul_pow2. cbn. lia.
Qed.

Lemma prepend_safe (p : jstr) (r : result jstr) enc :
  prepend p r = Ok enc -> exists rest, r = Ok rest /\ enc = p ++ rest.
Proof. destruct r as [rest | e]; [| done]. intros [= <-]. by exists rest. Qed.

Lemma encodeURIComponent_safe (s enc : jstr) :
  Forall (fun c => c < 65536) s ->
  encodeURIComponent s = Ok enc ->
  Forall uri_safe enc.
Proof.
  revert enc.
  assert (forall n (s enc : jstr), (length s <= n)%nat ->
            Forall (fun c => c < 65536) s -> encodeURIComponent s = Ok enc ->
            Forall uri_safe enc) as Hind; [| intros enc; by apply (Hind (length s))].
  induction n as [| n IH]; intros s0 enc Hlen Hs.
  { destruct s0; [| cbn in Hlen; lia]. intros [= <-]. constructor. }
  destruct s0 as [| c s']; [intros [= <-]; constructor |].
  cbn in Hlen. inversion Hs as [| ? ? Hc Hs']; subst.
  cbn [encodeURIComponent].
  destruct (unreserved c) eqn:Hu.
  { intros H. apply prepend_safe in H as (rest & Hr & ->).
    constructor; [by left |]. apply (IH s'); [lia | done | done]. }
  destruct (is_high c) eqn:Hh.
  { destruct s' as [| d s'']; [done |].
    destruct (is_low d) eqn:Hl; [| done].
    intros H. apply prepend_safe in H as (rest & Hr & ->).
    inversion Hs' as [| ? ? Hd Hs'']; subst. cbn in Hlen.
    apply Forall_app. split.
    - apply escape_safe, utf8_point_bytes. by apply pair_point.
    - apply (IH s''); [lia | done | done]. }
  destruct (is_low c); [done |].
  intros H. apply prepend_safe in H as (rest & Hr & ->).
  apply Forall_app. split.
  - apply escape_safe, utf8_point_bytes. lia.
  - apply (IH s'); [lia | done | done].
Qed.

Lemma uri_safe_printable c :
  uri_safe c -> 33 <= c /\ c <= 126 /\ c <> 34 /\ c <> 59 /\ c <> 92 /\ c <> 44.
Proof.
  intros [Hu | ->]; [| lia].
  unfold unreserved in Hu. rewrite !orb_true_iff, !andb_true_iff, !N.leb_le in Hu.
  destruct Hu as [[[H | H] | H] | H]; try lia.
  apply existsb_exists in H as (x & Hx & Hcx). apply N.eqb_eq in Hcx. subst x.
  vm_compute in Hx. lia.
Qed.

Section Disposition.

Context {P : Platform}.

(** X5.  When the derived file name is a string of 16-bit code units, the
    [Content-Disposition] of the proxied response is [attachment;
    filename*=UTF-8''] followed by the encoding of that name, and the
    encoding consists of unreserved characters and percent escapes only:
    printable ASCII, with no space, double quote, semicolon, comma or
    backslash that could end or split the header value. *)
Theorem proxy_rewrite_disposition_safe target request isRange up w resp w' name :
  proxy_rewrite target request isRange up w = (Returned resp, w') ->
  getFilename target up = Ok name ->
  Forall (fun c => c < 65536) name ->
  exists enc,
    encodeURIComponent name = Ok enc
    /\ hget (js "Content-Disposition") (resp_headers resp)
       = Some (js "attachment; filename*=UTF-8''" ++ enc)
    /\ Forall uri_safe enc
    /\ Forall (fun c => 33 <= c /\ c <= 126 /\ c <> 34 /\ c <> 59 /\ c <> 92 /\ c <> 44) enc.
Proof.
  rewrite proxy_rewrite_run. unfold encoded_name. intros Hrun Hname Hunits.
  rewrite Hname in Hrun.
  destruct (encodeURIComponent name) as [enc | e] eqn:Henc; [| done].
  cbv zeta in Hrun. injection Hrun as <- _.
  exists enc. split; [reflexivity |].
  split; [apply rewritten_disposition |].
  pose proof (encodeURIComponent_safe name enc Hunits Henc) as Hsafe.
  split; [exact Hsafe |].
  eapply List.Forall_impl; [| exact Hsafe]. apply uri_safe_printable.
Qed.

End Disposition.

(** ** [getFilename] *)

Lemma split_go_no_match (sep cur s : jstr) :
  contains s sep = false -> split_go sep 0 cur s = [rev cur ++ s].
Proof.
  revert cur. induction s as [| x s IH]; intros cur Hc.
  - cbn. by rewrite app_nil_r.
  - cbn [contains] in Hc. apply orb_false_iff in Hc as [Hs Hc].
    cbn [split_go]. rewrite Hs, IH by exact Hc. cbn [rev]. by rewrite <- app_assoc.
Qed.

Lemma contains_no_char (c : N) (s : jstr) : ~ In c s -> contains s [c; c] = false.
Proof.
  induction s as [| x s IH]; intros Hc; [reflexivity |].
  cbn [contains startsWith].
  destruct (N.eqb_spec c x) as [-> | Hne]; [exfalso; apply Hc; by left |].
  cbn [andb orb]. apply IH. intros H. apply Hc. by right.
Qed.

(** [charset''value] splits into the two pieces. *)
Lemma split_charset_value (charset value : jstr) :
  ~ In 39 charset -> ~ In 39 value ->
  split (js "''") (charset ++ js "''" ++ value) = [charset; value].
Proof.
  intros Hc Hv. unfold split. change (js "''") with [39; 39].
  assert (forall cur, split_go [39; 39] 0 cur (charset ++ [39; 39] ++ value)
                      = [rev cur ++ charset; value]) as H; [| by rewrite H].
  induction charset as [| x charset IH]; intros cur.
  - cbn [app split_go startsWith N.eqb Pos.eqb andb length Nat.sub].
    rewrite app_nil_r.
    by rewrite (split_go_no_match [39; 39] [] value (contains_no_char 39 value Hv)).
  - cbn [app split_go startsWith].
    destruct (N.eqb_spec 39 x) as [<- | Hne]; [exfalso; apply Hc; by left |].
    cbn [andb]. rewrite IH by (intros H; apply Hc; by right).
    cbn [rev]. by rewrite <- app_assoc.
Qed.

Lemma strip_quotes_inner (s : jstr) c d (mid : jstr) :
  s = c :: mid ++ [d] -> is_quote c = false -> is_quote d = false ->
  strip_quotes s = s.
Proof.
  intros -> Hc Hd. unfold strip_quotes. rewrite Hc.
  change (c :: mid ++ [d]) with ((c :: mid) ++ [d]).
  rewrite rev_unit. by rewrite Hd.
Qed.

Section Filenames.

Context {P : Platform}.

(** X6.  Without a [content-disposition] on the response (or with an
    empty one) the file name is the last segment of the path of the URL:
    the piece after the last slash when that piece is not empty, and
    [downloaded-file] when the path ends in a slash.  The name is never
    empty and holds no slash. *)
Theorem getFilename_from_path url u res dir name :
  URL_parse url = Some u ->
  hget (js "content-disposition") (resp_headers res) = None
  \/ hget (js "content-disposition") (resp_headers res) = Some [] ->
  pathname u = dir ++ 47 :: name ->
  ~ In 47 name ->
  exists file,
    getFilename url res = Ok file
    /\ file = (if nonempty name then name else js "downloaded-file")
    /\ file <> []
    /\ ~ In 47 file.
Proof.
  intros Hu Hcd Hp Hname.
  exists (if nonempty name then name else js "downloaded-file").
  split.
  - unfold getFilename. rewrite Hu, Hp.
    change (js "/") with [47]. rewrite pop_split_suffix by exact Hname.
    by destruct Hcd as [-> | ->].
  - split; [reflexivity |].
    destruct name; cbn [nonempty]; [| by split].
    split; [done |]. vm_compute. intuition discriminate.
Qed.

(** X7.  When the response names its file with the extended parameter
    [filename*=charset''value] (white space around it aside; neither piece
    empty, neither holding a quote), the file name is the percent-decoded
    [value], whatever a plain [filename] parameter beside it says; a value
    that does not decode makes the call throw. *)
Theorem getFilename_extended url u res cd g charset value :
  URL_parse url = Some u ->
  hget (js "content-disposition") (resp_headers res) = Some cd ->
  cd <> [] ->
  match_filename_star cd = Some g ->
  trim g = charset ++ js "''" ++ value ->
  charset <> [] -> value <> [] ->
  Forall (fun c => is_quote c = false) charset ->
  Forall (fun c => is_quote c = false) value ->
  getFilename url res = decodeURIComponent value.
Proof.
  intros Hu Hcd Hne Hstar Htrim Hc0 Hv0 Hc Hv.
  assert (forall s, Forall (fun c => is_quote c = false) s -> ~ In 39 s) as Hq.
  { intros s Hs Hin. rewrite List.Forall_forall in Hs. by apply Hs in Hin. }
  unfold getFilename. rewrite Hu, Hcd.
  assert (nonempty cd = true) as -> by (by destruct cd).
  rewrite Hstar, Htrim.
  assert (strip_quotes (charset ++ js "''" ++ value) = charset ++ js "''" ++ value) as ->.
  { destruct charset as [| c charset]; [done |].
    destruct (exists_last Hv0) as (value' & d & ->).
    apply (strip_quotes_inner _ c d (charset ++ js "''" ++ value')).
    - cbn. by rewrite <- !app_assoc.
    - by inversion Hc.
    - apply Forall_app in Hv as [_ Hd]. by inversion Hd. }
  rewrite split_charset_value by (by apply Hq). reflexivity.
Qed.

(** X8.  When the value of the extended parameter, trimmed and without
    a quote at either end, holds no two apostrophes in a row (a bare
    [filename*=name], or the form [charset'language'value] with a
    language tag), the whole of it is percent-decoded and returned as the
    file name: the charset and the language are not cut off. *)
Theorem getFilename_extended_whole url u res cd g :
  URL_parse url = Some u ->
  hget (js "content-disposition") (resp_headers res) = Some cd ->
  cd <> [] ->
  match_filename_star cd = Some g ->
  contains (strip_quotes (trim g)) (js "''") = false ->
  getFilename url res = decodeURIComponent (strip_quotes (trim g)).
Proof.
  intros Hu Hcd Hne Hstar Hno.
  unfold getFilename. rewrite Hu, Hcd.
  assert (nonempty cd = true) as -> by (by destruct cd).
  rewrite Hstar. unfold split. by rewrite (split_go_no_match _ [] _ Hno).
Qed.

End Filenames.

(** ** [detectType] *)


Example detectType_upper_case :
  detectType (js "https://github.com/a/b/blob/main/SETUP.EXE") = js "Binary".
Proof. reflexivity. Qed.

(** ** The direct proxy branch *)

Lemma trim_start_app (l k : jstr) c :
  is_space c = false -> trim_start (l ++ c :: k) = trim_start l ++ c :: k.
Proof.
  intros Hc. induction l as [| x l IH]; cbn [app trim_start].
  - by rewrite Hc.
  - destruct (is_space x); [exact IH | reflexivity].
Qed.

Lemma trim_end_app (p r : jstr) c :
  is_space c = false -> trim_end ((p ++ [c]) ++ r) = (p ++ [c]) ++ trim_end r.
Proof.
  intros Hc. unfold trim_end.
  rewrite rev_app_distr, rev_unit, trim_start_app by exact Hc.
  rewrite rev_app_distr. rewrite <- (rev_unit p c).
  by rewrite rev_involutive.
Qed.

Lemma trim_behind_prefix (p r : jstr) a c :
  is_space a = false -> is_space c = false ->
  trim ((a :: p ++ [c]) ++ r) = (a :: p ++ [c]) ++ trim_end r.
Proof.
  intros Ha Hc. unfold trim.
  cbn [app trim_start]. rewrite Ha.
  change (a :: (p ++ [c]) ++ r) with (((a :: p) ++ [c]) ++ r).
  by rewrite trim_end_app.
Qed.

Lemma trim_first_kept (a : N) (r : jstr) :
  is_space a = false -> trim (a :: r) = a :: trim_end r.
Proof.
  intros Ha. unfold trim. cbn [trim_start]. rewrite Ha.
  change (a :: r) with (([] ++ [a]) ++ r). by rewrite trim_end_app.
Qed.

Section DirectProxy.

Context {P : Platform}.

Lemma prepared_with_scheme (rawPath : jstr) a r :
  rawPath = a :: r -> is_space a = false -> lower_unit a <> 104 ->
  prepared (JStr (js "https://" ++ rawPath)) = prepared (JStr rawPath).
Proof.
  intros -> Ha Hh. rewrite !prepared_string.
  rewrite (trim_first_kept a r Ha).
  change (js "https://" ++ a :: r)
    with ((104 :: [116; 116; 112; 115; 58; 47] ++ [47]) ++ a :: r).
  rewrite trim_behind_prefix by reflexivity.
  rewrite (trim_end_app [] r a Ha : trim_end (a :: r) = a :: trim_end r).
  assert (test_http_scheme (a :: trim_end r) = false) as ->.
  { destruct (trim_end r) as [| ? [| ? [| ? ?]]]; cbn [test_http_scheme]; try done.
    unfold ci at 1. by apply N.eqb_neq in Hh as ->. }
  reflexivity.
Qed.

Lemma proxy_run_normalize (rawPath : jstr) (request : request) (w : world) :
  proxy rawPath request w
  = match normalize (JStr rawPath) with
    | Ok target => proxyFetch target request w
    | Throw _ => (Returned (new_Response (BodyText (js "Invalid URL format")) 400 []), w)
    end.
Proof.
  assert (normalize (JStr (js "https://" ++ rawPath)) = normalize (JStr rawPath)
          \/ (startsWith rawPath (js "github.com")
              || startsWith rawPath (js "raw.githubusercontent.com")) = false) as Hsame.
  { destruct (startsWith rawPath (js "github.com")
              || startsWith rawPath (js "raw.githubusercontent.com")) eqn:Hs; [| by right].
    left. apply orb_true_iff in Hs.
    assert (exists a r, rawPath = a :: r /\ (a = 103 \/ a = 114)) as (a & r & -> & Ha).
    { destruct rawPath as [| a r]; [by destruct Hs |]. exists a, r. split; [done |].
      destruct Hs as [Hs | Hs];
        [change (js "github.com") with (103 :: js "ithub.com") in Hs
        | change (js "raw.githubusercontent.com") with (114 :: js "aw.githubusercontent.com") in Hs];
        cbn [startsWith] in Hs; apply andb_true_iff in Hs as [Hs _];
        apply N.eqb_eq in Hs; auto. }
    unfold normalize.
    rewrite (prepared_with_scheme (a :: r) a r eq_refl);
      [done | by destruct Ha as [-> | ->] | by destruct Ha as [-> | ->]]. }
  unfold proxy.
  destruct (startsWith rawPath (js "https") || startsWith rawPath (js "http"));
    [by destruct (normalize (JStr rawPath)) |].
  destruct Hsame as [Hsame | ->]; [| by destruct (normalize (JStr rawPath))].
  destruct (startsWith rawPath (js "github.com")
            || startsWith rawPath (js "raw.githubusercontent.com"));
    [rewrite Hsame |]; by destruct (normalize (JStr rawPath)).
Qed.

(** X10.  The three cases the handler makes of the path (it begins with
    [http], it begins with [github.com] or [raw.githubusercontent.com],
    anything else) all give what [normalize] gives on the path itself: the
    request is answered by the proxy engine on that target, or with 400
    [Invalid URL format] and no effect when [normalize] throws. *)
Theorem proxy_is_normalize (rawPath : jstr) (request : request) (w : world) :
  proxy rawPath request w
  = match normalize (JStr rawPath) with
    | Ok target => proxyFetch target request w
    | Throw _ => (Returned (new_Response (BodyText (js "Invalid URL format")) 400 []), w)
    end.
Proof. apply proxy_run_normalize. Qed.

End DirectProxy.

(** ** Unknown short codes *)

Section ShortLinks.

Context {P : Platform}.

(** X11.  A request for [/d/<code>], whatever its method except
    [OPTIONS], whose code has no target in the store (or an empty one) is
    answered with the 404 page; the handler has read the key [c:<code>]
    once and has done nothing else: no upstream request, no cache lookup,
    no write. *)
Theorem short_link_unknown_code request u code w :
  URL_parse (url request) = Some u ->
  pathname u = js "/d/" ++ code ->
  method request <> js "OPTIONS" ->
  SHORT_KV w !! (js "c:" ++ code) = None \/ SHORT_KV w !! (js "c:" ++ code) = Some [] ->
  fetch_handler request w = (Returned not_found, log (KvGet (js "c:" ++ code)) w)
  /\ status not_found = 404
  /\ resp_body not_found = BodyPage Page404
  /\ carries (js "Content-Type") (js "text/html; charset=UTF-8") not_found.
Proof.
  intros Hu Hp Hm Hmissing.
  split; [| by repeat split].
  unfold fetch_handler. rewrite Hu.
  assert (dispatch request u = ShortLink code) as ->.
  { unfold dispatch. rewrite Hp.
    apply jstr_eqb_neq in Hm. rewrite Hm.
    assert (jstr_eqb (js "/d/" ++ code) (js "/") = false) as ->.
    { apply jstr_eqb_neq. discriminate. }
    reflexivity. }
  unfold short_link, bind, kv_get.
  by destruct Hmissing as [-> | ->].
Qed.

End ShortLinks.

(** ** The cache round trip *)

Section CacheRoundTrip.

Context {P : Platform}.



End CacheRoundTrip.

(** ** What one request does to the world *)

(** The world grew by these platform calls. *)
Definition added (evs : list event) (w w' : world) : Prop :=
  trace w' = trace w ++ evs.

Definition is_store_read_or_draw (ev : event) : Prop :=
  match ev with
  | KvGet _ | Random => True
  | _ => False
  end.

Definition is_store_call_or_draw (ev : event) : Prop :=
  match ev with
  | KvGet _ | KvPut _ _ | Random => True
  | _ => False
  end.

(** An answer of the two API routes: [json(data, status)] with status
    200 or 400. *)
Definition api_response (resp : response) : Prop :=
  exists data st, resp = json_response data st /\ (st = 200 \/ st = 400).

Lemma api_response_headers resp :
  api_response resp ->
  (status resp = 200 \/ status resp = 400)
  /\ (exists data, resp_body resp = BodyJSON data)
  /\ carries (js "Content-Type") (js "application/json") resp
  /\ carries (js "Access-Control-Allow-Origin") (js "*") resp
  /\ carries (js "Access-Control-Allow-Methods") (js "GET, HEAD, POST, OPTIONS") resp
  /\ carries (js "Access-Control-Allow-Headers") (js "Content-Type, Range") resp.
Proof.
  intros (data & st & -> & Hst).
  split; [exact Hst |]. split; [by exists data |].
  repeat split; reflexivity.
Qed.

Section Effects.

Context {P : Platform}.

Lemma candidate_loop_quiet fuel r w code w1 :
  candidate_loop fuel r w = (Returned code, w1) ->
  exists evs, added evs w w1 /\ Forall is_store_read_or_draw evs.
Proof.
  revert r w. induction fuel as [| fuel IH]; intros r w; [done |].
  cbn [candidate_loop]. unfold bind at 1.
  destruct (makeShortCode_from_alphabet 6 [] w (Forall_nil_2 _))
    as (c & w0 & Hmake & _ & _ & _ & _ & Ht).
  unfold makeShortCode. rewrite Hmake. unfold bind at 1, kv_get.
  assert (added (repeat Random 6 ++ [KvGet (js "c:" ++ c)]) w
            (log (KvGet (js "c:" ++ c)) w0)) as Hstep.
  { unfold added. cbn [trace log]. by rewrite Ht, <- app_assoc. }
  assert (Forall is_store_read_or_draw (repeat Random 6 ++ [KvGet (js "c:" ++ c)])) as Hq.
  { by repeat constructor. }
  destruct (truthy_str (SHORT_KV w0 !! (js "c:" ++ c)) && (S r <? 5)%nat).
  - intros Hrun. apply IH in Hrun as (evs & Ha & Hf).
    exists ((repeat Random 6 ++ [KvGet (js "c:" ++ c)]) ++ evs).
    split; [| by apply Forall_app].
    unfold added in *. by rewrite Ha, Hstep, <- app_assoc.
  - intros [= <- <-]. eauto.
Qed.

(** The three ways the shorten branch ends. *)
Inductive shorten_outcome (request : request) (w : world) : response -> world -> Prop :=
| shorten_rejected msg :
    shorten_outcome request w (json_response [(js "error", DStr msg)] 400) w
| shorten_found original target c :
    normalize original = Ok target ->
    SHORT_KV w !! (js "u:" ++ sha1 target) = Some c -> c <> [] ->
    shorten_outcome request w (shortened c target)
      (log (KvGet (js "u:" ++ sha1 target)) w)
| shorten_issued original target code w1 :
    normalize original = Ok target ->
    truthy_str (SHORT_KV w !! (js "u:" ++ sha1 target)) = false ->
    candidate_loop 5 0 (log (KvGet (js "u:" ++ sha1 target)) w) = (Returned code, w1) ->
    length code = 6%nat ->
    shorten_outcome request w (shortened code target) (recorded code target w1).

Lemma shorten_ends request w :
  exists resp w',
    shorten request w = (Returned resp, w') /\ shorten_outcome request w resp w'.
Proof.
  destruct (req_json request) as [payload | e] eqn:Hjson.
  2:{ eexists _, _. split; [| apply (shorten_rejected _ _ (message e))].
      unfold shorten, try_catch, shorten_try, bind, lift. by rewrite Hjson. }
  destruct (prop_url payload) as [original |] eqn:Hurl.
  2:{ eexists _, _. split; [| apply (shorten_rejected _ _ (js "URL is required"))].
      unfold shorten, try_catch, shorten_try, bind, lift.
      rewrite Hjson. cbn [outcome_of]. by rewrite Hurl. }
  destruct (truthy original) eqn:Htruthy.
  2:{ eexists _, _. split; [| apply (shorten_rejected _ _ (js "URL is required"))].
      unfold shorten, try_catch, shorten_try, bind, lift.
      rewrite Hjson. cbn [outcome_of]. by rewrite Hurl, Htruthy. }
  destruct (normalize original) as [target | e] eqn:Hnorm.
  2:{ eexists _, _. split; [| apply (shorten_rejected _ _ (message e))].
      unfold shorten, try_catch, shorten_try, bind at 1, lift.
      rewrite Hjson. cbn [outcome_of]. rewrite Hurl, Htruthy. cbn [negb].
      unfold bind at 1, lift. by rewrite Hnorm. }
  destruct (truthy_str (SHORT_KV w !! (js "u:" ++ sha1 target))) eqn:Hocc.
  - destruct (SHORT_KV w !! (js "u:" ++ sha1 target)) as [c |] eqn:Hc; [| done].
    assert (c <> []) as Hne by (by destruct c).
    eexists _, _. split; [by eapply shorten_existing |].
    by eapply shorten_found.
  - destruct (shorten_fresh request payload original target w)
      as (code & w1 & Hloop & _ & Hlen & _ & Hrun); try done.
    eexists _, _. split; [exact Hrun |]. by eapply shorten_issued.
Qed.

(** The ways the metadata branch ends: nothing sent, the [HEAD] sent, or
    the [HEAD] and the ranged [GET] sent. *)
Inductive meta_outcome (url : URL) (w : world) : world -> Prop :=
| meta_unsent :
    meta_outcome url w w
| meta_head raw target :
    searchParams_get (js "url") url = Some raw ->
    normalize (JStr raw) = Ok target ->
    meta_outcome url w (log (Fetch (head_request target)) (one_more_fetch w))
| meta_head_and_range raw target :
    searchParams_get (js "url") url = Some raw ->
    normalize (JStr raw) = Ok target ->
    meta_outcome url w
      (log (Fetch (ranged_request target))
         (one_more_fetch (log (Fetch (head_request target)) (one_more_fetch w)))).

Lemma api_json data st : st = 200 \/ st = 400 -> api_response (json_response data st).
Proof. intros H. by exists data, st. Qed.

Lemma meta_ends url w :
  exists resp w',
    meta url w = (Returned resp, w') /\ api_response resp /\ meta_outcome url w w'.
Proof.
  unfold meta.
  destruct (searchParams_get (js "url") url) as [raw |] eqn:Hraw.
  2:{ eexists _, _. split; [reflexivity |]. split; [apply api_json; by right | constructor]. }
  destruct (nonempty raw); cbn [negb].
  2:{ eexists _, _. split; [reflexivity |]. split; [apply api_json; by right | constructor]. }
  unfold try_catch, meta_try, bind at 1, lift.
  destruct (normalize (JStr raw)) as [target | e] eqn:Hnorm; cbn [outcome_of].
  2:{ eexists _, _. split; [reflexivity |]. split; [apply api_json; by right | constructor]. }
  unfold bind at 1, fetchWithTimeout, platform_fetch at 1, default_timeout.
  change (new_Headers [(js "Range", js "bytes=0-0")]) with [(js "range", js "bytes=0-0")].
  fold (head_request target). fold (ranged_request target).
  destruct (upstream (fetches w) (head_request target)) as [r1 | e1]; cbn [outcome_of].
  2:{ eexists _, _. split; [reflexivity |].
      split; [apply api_json; by right | by eapply meta_head]. }
  destruct (negb (ok r1) || negb (truthy_str (hget (js "content-length") (resp_headers r1)))).
  - unfold bind at 1, platform_fetch.
    destruct (upstream _ (ranged_request target)) as [r2 | e2]; cbn [outcome_of].
    2:{ eexists _, _. split; [reflexivity |].
        split; [apply api_json; by right | by eapply meta_head_and_range]. }
    destruct (negb (ok r2)).
    { eexists _, _. split; [reflexivity |].
      split; [apply api_json; by right | by eapply meta_head_and_range]. }
    unfold bind, lift.
    destruct (getFilename target r2) as [name | e3]; cbn [outcome_of];
      eexists _, _; (split; [reflexivity |]); (split; [| by eapply meta_head_and_range]);
      apply api_json; auto.
  - unfold bind at 1, ret.
    destruct (negb (ok r1)).
    { eexists _, _. split; [reflexivity |].
      split; [apply api_json; by right | by eapply meta_head]. }
    unfold bind, lift.
    destruct (getFilename target r1) as [name | e3]; cbn [outcome_of];
      eexists _, _; (split; [reflexivity |]); (split; [| by eapply meta_head]);
      apply api_json; auto.
Qed.

End Effects.

Section BranchAnswers.

Context {P : Platform}.

Lemma issued_stores w code w1 key :
  candidate_loop 5 0 (log (KvGet key) w) = (Returned code, w1) ->
  same_stores w w1
  /\ exists evs, added (KvGet key :: evs) w w1 /\ Forall is_store_read_or_draw evs.
Proof.
  intros Hrun.
  destruct (candidate_loop_run 5 0 (log (KvGet key) w))
    as (code' & w1' & Hrun' & _ & _ & Hsame & _); [lia | lia |].
  rewrite Hrun in Hrun'. injection Hrun' as <- <-.
  split; [exact Hsame |].
  apply candidate_loop_quiet in Hrun as (evs & Ha & Hq).
  exists evs. split; [| exact Hq].
  unfold added in *. rewrite Ha. cbn [trace log]. by rewrite <- app_assoc.
Qed.

Lemma shorten_summary (request : request) (w : world) :
  exists resp w',
    shorten request w = (Returned resp, w')
    /\ (status resp = 200 \/ status resp = 400)
    /\ carries (js "Content-Type") (js "application/json") resp
    /\ carries (js "Access-Control-Allow-Origin") (js "*") resp
    /\ (status resp = 400 -> w' = w)
    /\ (status resp = 200 ->
        exists code target original,
          resp = shortened code target
          /\ code <> []
          /\ normalize original = Ok target
          /\ SHORT_KV w' !! (js "u:" ++ sha1 target) = Some code)
    /\ edge_cache w' = edge_cache w
    /\ background w' = background w
    /\ fetches w' = fetches w
    /\ exists evs, added evs w w' /\ Forall is_store_call_or_draw evs.
Proof.
  destruct (shorten_ends request w) as (resp & w' & Hrun & Hout).
  exists resp, w'. split; [exact Hrun |].
  destruct Hout as [msg | original target c Hnorm Hc Hne
                   | original target code w1 Hnorm Hfree Hloop Hlen].
  - split; [by right |]. split; [reflexivity |]. split; [reflexivity |].
    split; [done |]. split; [done |]. repeat split.
    exists []. split; [unfold added; by rewrite app_nil_r | constructor].
  - split; [by left |]. split; [reflexivity |]. split; [reflexivity |].
    split; [done |].
    split; [intros _; by exists c, target, original |].
    repeat split.
    exists [KvGet (js "u:" ++ sha1 target)]. split; [reflexivity | by repeat constructor].
  - destruct (issued_stores _ _ _ _ Hloop) as ((Hk & Hc & Hb & Hf) & evs & Ha & Hq).
    split; [by left |]. split; [reflexivity |]. split; [reflexivity |].
    split; [done |].
    split.
    { intros _. exists code, target, original. split; [done |].
      split; [by destruct code |]. split; [done | apply recorded_hash]. }
    split; [exact Hc |]. split; [exact Hb |]. split; [exact Hf |].
    exists ((KvGet (js "u:" ++ sha1 target) :: evs)
              ++ [KvPut (js "c:" ++ code) target; KvPut (js "u:" ++ sha1 target) code]).
    split.
    + unfold added in *. by rewrite recorded_trace, Ha, <- app_assoc.
    + apply Forall_app. split; [constructor; [done |] | by repeat constructor].
      eapply List.Forall_impl; [| exact Hq]. by intros [].
Qed.

(** X13.  The shorten branch answers every request with a JSON response
    that carries the CORS headers, with status 200 or 400 (the store is one
    that answers every call).  On a 400 the world is untouched: the store
    was not even read.  On a 200 the body names a code that is not empty
    and that the store now holds under the hash key of the target, a
    target [normalize] returned.  In no case does the branch contact the
    upstream or the cache: its platform calls are store reads, store
    writes and random draws. *)
Theorem shorten_answers (request : request) (w : world) :
  exists resp w',
    shorten request w = (Returned resp, w')
    /\ (status resp = 200 \/ status resp = 400)
    /\ carries (js "Content-Type") (js "application/json") resp
    /\ carries (js "Access-Control-Allow-Origin") (js "*") resp
    /\ (status resp = 400 -> w' = w)
    /\ (status resp = 200 ->
        exists code target original,
          resp = shortened code target
          /\ code <> []
          /\ normalize original = Ok target
          /\ SHORT_KV w' !! (js "u:" ++ sha1 target) = Some code)
    /\ edge_cache w' = edge_cache w
    /\ background w' = background w
    /\ fetches w' = fetches w
    /\ exists evs, added evs w w' /\ Forall is_store_call_or_draw evs.
Proof. apply shorten_summary. Qed.

(** A probe request of the metadata branch for a target [normalize]
    returned, under the timeout of 5000 ms. *)
Definition is_probe (ev : event) : Prop :=
  exists c raw,
    ev = Fetch c
    /\ normalize (JStr raw) = Ok (fc_url c)
    /\ fc_timeout c = Some 5000
    /\ (c = head_request (fc_url c) \/ c = ranged_request (fc_url c)).

Lemma meta_summary (url : URL) (w : world) :
  exists resp w',
    meta url w = (Returned resp, w')
    /\ (status resp = 200 \/ status resp = 400)
    /\ carries (js "Content-Type") (js "application/json") resp
    /\ carries (js "Access-Control-Allow-Origin") (js "*") resp
    /\ SHORT_KV w' = SHORT_KV w
    /\ edge_cache w' = edge_cache w
    /\ background w' = background w
    /\ draws w' = draws w
    /\ exists evs,
         added evs w w' /\ (length evs <= 2)%nat /\ Forall is_probe evs
         /\ fetches w' = (fetches w + length evs)%nat.
Proof.
  destruct (meta_ends url w) as (resp & w' & Hrun & Hapi & Hout).
  exists resp, w'. split; [exact Hrun |].
  destruct (api_response_headers resp Hapi) as (Hst & _ & Hct & Hcors & _).
  split; [exact Hst |]. split; [exact Hct |]. split; [exact Hcors |].
  assert (forall target raw, normalize (JStr raw) = Ok target ->
            is_probe (Fetch (head_request target))
            /\ is_probe (Fetch (ranged_request target))) as Hprobe.
  { intros target raw Hn. split; eexists _, raw; repeat split; try done; auto. }
  destruct Hout as [| raw target Hraw Hnorm | raw target Hraw Hnorm].
  - repeat split. exists []. unfold added. rewrite app_nil_r. cbn.
    repeat split; [lia | constructor | lia].
  - repeat split. exists [Fetch (head_request target)].
    split; [reflexivity |]. split; [cbn; lia |].
    split; [constructor; [apply (Hprobe target raw Hnorm) | constructor] |].
    cbn. lia.
  - repeat split.
    exists [Fetch (head_request target); Fetch (ranged_request target)].
    split; [unfold added; cbn; by rewrite <- app_assoc |]. split; [cbn; lia |].
    split; [repeat constructor; apply (Hprobe target raw Hnorm) |].
    cbn. lia.
Qed.


End BranchAnswers.

(** ** The handler as a whole *)

(** A platform call of the proxy engine for [target]. *)
Definition is_engine_call (target : jstr) (request : request) (ev : event) : Prop :=
  ev = CacheMatch target
  \/ ev = Fetch (upstream_call target request)
  \/ exists r, ev = CachePut target r.

(** What a request may do to the world, branch by branch. *)
Definition branch_effect {P : Platform} (b : branch) (request : request)
    (w w' : world) : Prop :=
  match b with
  | Preflight | UI | BadRequest => w' = w
  | Shorten =>
      edge_cache w' = edge_cache w /\ background w' = background w
      /\ fetches w' = fetches w
      /\ exists evs, added evs w w' /\ Forall is_store_call_or_draw evs
  | Meta =>
      SHORT_KV w' = SHORT_KV w /\ edge_cache w' = edge_cache w
      /\ background w' = background w /\ draws w' = draws w
      /\ exists evs, added evs w w' /\ Forall is_probe evs
  | ShortLink code =>
      SHORT_KV w' = SHORT_KV w /\ edge_cache w' = edge_cache w /\ draws w' = draws w
      /\ exists evs,
           added (KvGet (js "c:" ++ code) :: evs) w w'
           /\ (evs = []
               \/ exists target,
                    SHORT_KV w !! (js "c:" ++ code) = Some target /\ target <> []
                    /\ Forall (is_engine_call target request) evs)
  | Proxy rawPath =>
      SHORT_KV w' = SHORT_KV w /\ edge_cache w' = edge_cache w /\ draws w' = draws w
      /\ exists evs,
           added evs w w'
           /\ (evs = []
               \/ exists target,
                    normalize (JStr rawPath) = Ok target
                    /\ Forall (is_engine_call target request) evs)
  end.

Section Handler.

Context {P : Platform}.

Lemma proxyFetch_added target request w out w' :
  proxyFetch target request w = (out, w') ->
  exists evs, added evs w w' /\ Forall (is_engine_call target request) evs.
Proof.
  intros H. pose proof (proxyFetch_proxy_run target request w) as R.
  rewrite H in R. cbn [fst snd] in R. unfold added.
  assert (exists evs, trace (sent target request w) = trace w ++ evs
                      /\ Forall (is_engine_call target request) evs) as (es & Hs & Hq).
  { rewrite trace_sent. eexists. split; [reflexivity |].
    apply Forall_app. split; [| constructor; [right; by left | constructor]].
    destruct (looks_up request); [constructor; [by left | constructor] | constructor]. }
  inversion R as [e | cached Hl Hc | e He | up enc Hup Hn]; subst.
  - exists []. split; [by rewrite app_nil_r | constructor].
  - unfold asked. rewrite Hl. exists [CacheMatch target].
    split; [reflexivity | constructor; [by left | constructor]].
  - by exists es.
  - destruct (cacheable up _ request); [| by exists es].
    eexists (es ++ [CachePut target _]). split.
    + unfold queued. cbn [trace log with_background]. by rewrite Hs, <- app_assoc.
    + apply Forall_app. split; [exact Hq |].
      constructor; [right; right; by eexists | constructor].
Qed.

Lemma handler_effects request u w out w' :
  URL_parse (url request) = Some u ->
  fetch_handler request w = (out, w') ->
  branch_effect (dispatch request u) request w w'
  /\ edge_cache w' = edge_cache w
  /\ (dispatch request u <> Shorten -> SHORT_KV w' = SHORT_KV w).
Proof.
  intros Hu. unfold fetch_handler. rewrite Hu.
  destruct (dispatch request u) as [| | code | | | | rawPath] eqn:Hd; cbn [branch_effect].
  - by intros [= _ <-].
  - by intros [= _ <-].
  - unfold short_link, bind, kv_get.
    assert (added [KvGet (js "c:" ++ code)] w (log (KvGet (js "c:" ++ code)) w)) as Hread
      by reflexivity.
    destruct (SHORT_KV w !! (js "c:" ++ code)) as [t |] eqn:Ht.
    2:{ intros [= _ <-]. split; [| by split]. repeat split. exists []. by split; [| left]. }
    destruct (nonempty t) eqn:Hne.
    2:{ intros [= _ <-]. split; [| by split]. repeat split. exists []. by split; [| left]. }
    intros Hrun.
    destruct (proxyFetch_frame _ _ _ _ _ Hrun) as (Hk & Hc & Hdr).
    destruct (proxyFetch_added _ _ _ _ _ Hrun) as (evs & Ha & Hq).
    split; [| by split]. repeat split; try done.
    exists evs. split; [unfold added in *; rewrite Ha; cbn; by rewrite <- app_assoc |].
    right. exists t. split; [done |]. split; [by destruct t | exact Hq].
  - intros Hrun.
    destruct (shorten_summary request w)
      as (resp & w1 & Hrun1 & _ & _ & _ & _ & _ & Hc & Hb & Hf & Hev).
    rewrite Hrun in Hrun1. injection Hrun1 as _ <-.
    split; [| by split]. by repeat split.
  - intros Hrun.
    destruct (meta_summary u w)
      as (resp & w1 & Hrun1 & _ & _ & _ & Hk & Hc & Hb & Hdr & evs & Ha & _ & Hq & _).
    rewrite Hrun in Hrun1. injection Hrun1 as _ <-.
    split; [| by split]. repeat split; try done. by exists evs.
  - by intros [= _ <-].
  - rewrite proxy_run_normalize.
    destruct (normalize (JStr rawPath)) as [target | e] eqn:Hn.
    2:{ intros [= _ <-]. split; [| by split]. repeat split.
        exists []. split; [unfold added; by rewrite app_nil_r | by left]. }
    intros Hrun.
    destruct (proxyFetch_frame _ _ _ _ _ Hrun) as (Hk & Hc & Hdr).
    destruct (proxyFetch_added _ _ _ _ _ Hrun) as (evs & Ha & Hq).
    split; [| by split]. repeat split; try done.
    exists evs. split; [exact Ha |]. right. by exists target.
Qed.

(** X15.  Whatever the request, the handler affects the world only as
    its branch allows.  The preflight, the page of the user interface and
    the [Bad Request] answer leave the world as it is.  The shorten branch
    reaches only the store and the random source.  The metadata branch only
    sends its probes.  The short-link branch reads the one key [c:<code>]
    and then only the proxy engine acts, for the target stored there; the
    direct proxy branch lets only the proxy engine act, for the target
    [normalize] returned for the path.  The last three never write the
    store and no branch writes the cache before it answers. *)
Theorem handler_branch_effects request u w out w' :
  URL_parse (url request) = Some u ->
  fetch_handler request w = (out, w') ->
  branch_effect (dispatch request u) request w w'
  /\ edge_cache w' = edge_cache w
  /\ (dispatch request u <> Shorten -> SHORT_KV w' = SHORT_KV w).
Proof. intros; eapply handler_effects; eauto. Qed.

End Handler.

(** ** Targets and the store *)

(** A target the worker may fetch: the [href] of a parsed URL whose host
    name is one of the five allowed ones. *)
Definition allowed_target {P : Platform} (t : jstr) : Prop :=
  exists s u,
    URL_parse s = Some u
    /\ In (hostname u)
         [ js "github.com"; js "raw.githubusercontent.com";
           js "objects.githubusercontent.com"; js "releases.githubusercontent.com";
           js "gist.githubusercontent.com" ]
    /\ t = href u.

(** Every target the store holds under a [c:] key is an allowed one. *)
Definition store_targets_allowed {P : Platform} (w : world) : Prop :=
  forall code t,
    SHORT_KV w !! (js "c:" ++ code) = Some t -> t <> [] -> allowed_target t.

(** The platform call reaches an allowed target only. *)
Definition reaches_allowed {P : Platform} (ev : event) : Prop :=
  match ev with
  | Fetch c => allowed_target (fc_url c)
  | CacheMatch k | CachePut k _ => allowed_target k
  | _ => True
  end.

Section Targets.

Context {P : Platform}.

Lemma normalize_allowed raw t : normalize raw = Ok t -> allowed_target t.
Proof.
  unfold normalize.
  destruct (URL_parse (prepared raw)) as [u |] eqn:Hu; [| done].
  destruct (includes allowed (hostname u)) eqn:Hin; [| done].
  cbn [negb]. intros [= <-]. exists (prepared raw), u.
  split; [exact Hu |]. split; [| reflexivity]. by apply includes_In in Hin.
Qed.

Lemma recorded_store code target w :
  SHORT_KV (recorded code target w)
  = <[js "u:" ++ sha1 target := code]> (<[js "c:" ++ code := target]> (SHORT_KV w)).
Proof. reflexivity. Qed.

(** What the shorten branch does to the store. *)
Lemma shorten_store request w out w' :
  shorten request w = (out, w') ->
  (forall k v, SHORT_KV w !! k = Some v -> is_Some (SHORT_KV w' !! k))
  /\ (forall h c, SHORT_KV w !! (js "u:" ++ h) = Some c -> c <> [] ->
                  SHORT_KV w' !! (js "u:" ++ h) = Some c)
  /\ (forall code t, SHORT_KV w' !! (js "c:" ++ code) = Some t ->
                     SHORT_KV w !! (js "c:" ++ code) = Some t \/ allowed_target t).
Proof.
  intros Hrun.
  destruct (shorten_ends request w) as (resp & w1 & Hrun1 & Hout).
  rewrite Hrun in Hrun1. injection Hrun1 as _ <-.
  destruct Hout as [msg | original target c Hnorm Hc Hne
                   | original target code w1 Hnorm Hfree Hloop Hlen].
  - repeat split; eauto.
  - repeat split; eauto.
  - destruct (issued_stores _ _ _ _ Hloop) as ((Hk & _) & _).
    rewrite recorded_store, Hk.
    split; [| split].
    + intros k v Hv.
      destruct (decide (js "u:" ++ sha1 target = k)) as [<- | Hne1];
        [rewrite lookup_insert_eq; eauto |].
      rewrite lookup_insert_ne by done.
      destruct (decide (js "c:" ++ code = k)) as [<- | Hne2];
        [rewrite lookup_insert_eq; eauto |].
      rewrite lookup_insert_ne by done. eauto.
    + intros h c Hc Hne.
      destruct (decide (js "u:" ++ sha1 target = js "u:" ++ h)) as [Heq | Hne1].
      { rewrite <- Heq in Hc. rewrite Hc in Hfree. by destruct c. }
      rewrite lookup_insert_ne by done.
      rewrite lookup_insert_ne by (apply not_eq_sym, keys_differ). exact Hc.
    + intros code' t.
      rewrite lookup_insert_ne by apply keys_differ.
      destruct (decide (js "c:" ++ code = js "c:" ++ code')) as [<- | Hne2].
      * rewrite lookup_insert_eq. intros [= <-]. right. by eapply normalize_allowed.
      * rewrite lookup_insert_ne by done. by left.
Qed.

Lemma engine_calls_allowed target request evs :
  allowed_target target ->
  Forall (is_engine_call target request) evs -> Forall reaches_allowed evs.
Proof.
  intros Ht. apply List.Forall_impl.
  intros ev [-> | [-> | [r ->]]]; exact Ht.
Qed.

Lemma handler_targets request w out w' :
  store_targets_allowed w ->
  fetch_handler request w = (out, w') ->
  store_targets_allowed w'
  /\ exists evs, added evs w w' /\ Forall reaches_allowed evs.
Proof.
  intros Hw Hrun.
  destruct (URL_parse (url request)) as [u |] eqn:Hu.
  2:{ unfold fetch_handler in Hrun. rewrite Hu in Hrun. injection Hrun as _ <-.
      split; [exact Hw |]. exists []. split; [unfold added; by rewrite app_nil_r | constructor]. }
  destruct (handler_effects request u w out w' Hu Hrun) as (Heff & _ & Hkv).
  assert (SHORT_KV w' = SHORT_KV w -> store_targets_allowed w') as Hsame.
  { intros E code t. rewrite E. apply Hw. }
  destruct (dispatch request u) as [| | code | | | | rawPath] eqn:Hd; cbn [branch_effect] in Heff.
  - subst w'. split; [exact Hw |].
    exists []. split; [unfold added; by rewrite app_nil_r | constructor].
  - subst w'. split; [exact Hw |].
    exists []. split; [unfold added; by rewrite app_nil_r | constructor].
  - destruct Heff as (Hk & _ & _ & evs & Ha & Hev).
    split; [by apply Hsame |].
    exists (KvGet (js "c:" ++ code) :: evs). split; [exact Ha |].
    constructor; [done |].
    destruct Hev as [-> | (t & Ht & Hne & Hq)]; [constructor |].
    eapply engine_calls_allowed; [| exact Hq]. by eapply Hw.
  - unfold fetch_handler in Hrun. rewrite Hu, Hd in Hrun.
    destruct (shorten_store request w out w' Hrun) as (_ & _ & Hc).
    destruct Heff as (_ & _ & _ & evs & Ha & Hq).
    split.
    + intros code t Ht Hne. destruct (Hc code t Ht) as [Hold | Hnew]; [| exact Hnew].
      by eapply Hw.
    + exists evs. split; [exact Ha |].
      eapply List.Forall_impl; [| exact Hq]. by intros [].
  - destruct Heff as (Hk & _ & _ & _ & evs & Ha & Hq).
    split; [by apply Hsame |]. exists evs. split; [exact Ha |].
    eapply List.Forall_impl; [| exact Hq].
    intros ev (c & raw & -> & Hn & _). cbn. by eapply normalize_allowed.
  - subst w'. split; [exact Hw |].
    exists []. split; [unfold added; by rewrite app_nil_r | constructor].
  - destruct Heff as (Hk & _ & _ & evs & Ha & Hev).
    split; [by apply Hsame |]. exists evs. split; [exact Ha |].
    destruct Hev as [-> | (t & Ht & Hq)]; [constructor |].
    eapply engine_calls_allowed; [| exact Hq]. by eapply normalize_allowed.
Qed.

(** X16.  If every target the store holds under a [c:] key is the
    [href] of a URL with an allowed host, then, whatever the request, it is
    still so after the handler has run, and every outbound request the
    handler makes, every cache lookup and every cache write it hands over
    is for such a target: hosts outside the five are never fetched or
    cached (what the upstream redirects to is up to the platform). *)
Theorem handler_reaches_allowed_targets request w out w' :
  store_targets_allowed w ->
  fetch_handler request w = (out, w') ->
  store_targets_allowed w'
  /\ exists evs, added evs w w' /\ Forall reaches_allowed evs.
Proof. intros; eapply handler_targets; eauto. Qed.

(** X17.  Whatever the request, the handler never removes a key from the
    store and never changes the code a hash key [u:...] holds once it
    holds one that is not empty; only a [POST] to [/api/shorten] changes
    the store at all. *)
Theorem store_is_append_only request w out w' :
  fetch_handler request w = (out, w') ->
  (forall k v, SHORT_KV w !! k = Some v -> is_Some (SHORT_KV w' !! k))
  /\ (forall h c, SHORT_KV w !! (js "u:" ++ h) = Some c -> c <> [] ->
                  SHORT_KV w' !! (js "u:" ++ h) = Some c)
  /\ (SHORT_KV w' <> SHORT_KV w ->
      exists u, URL_parse (url request) = Some u
                /\ pathname u = js "/api/shorten" /\ method request = js "POST").
Proof.
  intros Hrun.
  assert (SHORT_KV w' = SHORT_KV w ->
          (forall k v, SHORT_KV w !! k = Some v -> is_Some (SHORT_KV w' !! k))
          /\ (forall h c, SHORT_KV w !! (js "u:" ++ h) = Some c -> c <> [] ->
                          SHORT_KV w' !! (js "u:" ++ h) = Some c)) as Hsame.
  { intros ->. split; eauto. }
  destruct (URL_parse (url request)) as [u |] eqn:Hu.
  2:{ unfold fetch_handler in Hrun. rewrite Hu in Hrun. injection Hrun as _ <-.
      destruct Hsame as [H1 H2]; [done |]. by repeat split. }
  destruct (handler_effects request u w out w' Hu Hrun) as (_ & _ & Hkv).
  assert (dispatch request u = Shorten \/ dispatch request u <> Shorten) as [Hd | Hd]
    by (destruct (dispatch request u); (by left) || (by right)).
  - unfold fetch_handler in Hrun. rewrite Hu, Hd in Hrun.
    destruct (shorten_store request w out w' Hrun) as (H1 & H2 & _).
    split; [exact H1 |]. split; [exact H2 |].
    intros _. exists u. split; [done |].
    unfold dispatch in Hd.
    destruct (jstr_eqb (method request) (js "OPTIONS")); [done |].
    destruct (jstr_eqb (pathname u) (js "/")); [done |].
    destruct (startsWith (pathname u) (js "/d/")); [done |].
    destruct (jstr_eqb (pathname u) (js "/api/shorten")) eqn:Hp,
             (jstr_eqb (method request) (js "POST")) eqn:Hm; cbn [andb] in Hd.
    + by apply jstr_eqb_eq in Hp, Hm.
    + destruct (jstr_eqb (pathname u) (js "/api/meta")); [done |].
      cbv zeta in Hd. by destruct (negb _).
    + destruct (jstr_eqb (pathname u) (js "/api/meta")); [done |].
      cbv zeta in Hd. by destruct (negb _).
    + destruct (jstr_eqb (pathname u) (js "/api/meta")); [done |].
      cbv zeta in Hd. by destruct (negb _).
  - destruct (Hsame (Hkv Hd)) as [H1 H2].
    split; [exact H1 |]. split; [exact H2 |]. intros Hne. by rewrite (Hkv Hd) in Hne.
Qed.

End Targets.

(** ** More on [normalize], on what escapes the handler, on the order of writes *)

Lemma trim_start_fixed (t : jstr) :
  (forall c t', t = c :: t' -> is_space c = false) -> trim_start t = t.
Proof. destruct t as [| c t']; [done |]. intros H. cbn. by rewrite (H c t' eq_refl). Qed.

Lemma trim_fixed (t : jstr) : no_outer_space t -> trim t = t.
Proof.
  intros [Hhead Hlast]. unfold trim, trim_end.
  rewrite (trim_start_fixed t Hhead).
  rewrite trim_start_fixed; [apply rev_involutive |].
  intros c t' Hrev. apply (Hlast c (rev t')).
  by rewrite <- (rev_involutive t), Hrev.
Qed.

Lemma trim_idempotent (s : jstr) : trim (trim s) = trim s.
Proof.
  destruct (trim_spec s) as (_ & _ & _ & _ & _ & Hno). by apply trim_fixed.
Qed.

Section NormalizeMore.

Context {P : Platform}.

(** X18.  [normalize] does not look at the white space around its
    argument, and writing [https://] in front of an argument that starts
    with a character other than white space and has no [http://] or
    [https://] prefix of its own changes nothing: [normalize] gives the
    same result, value or exception. *)
Theorem normalize_ignores_space_and_prefix (raw : jstr) :
  normalize (JStr (trim raw)) = normalize (JStr raw)
  /\ (forall a r,
        raw = a :: r -> is_space a = false -> ~ has_http_prefix (trim raw) ->
        normalize (JStr (js "https://" ++ raw)) = normalize (JStr raw)).
Proof.
  split.
  - unfold normalize. by rewrite !prepared_string, trim_idempotent.
  - intros a r -> Ha Hno.
    unfold normalize. rewrite !prepared_string.
    assert (test_http_scheme (trim (a :: r)) = false) as Htest.
    { destruct (test_http_scheme (trim (a :: r))) eqn:E; [| done].
      by apply test_http_scheme_spec in E. }
    rewrite Htest.
    change (js "https://" ++ a :: r)
      with ((104 :: [116; 116; 112; 115; 58; 47] ++ [47]) ++ a :: r).
    rewrite trim_behind_prefix by reflexivity.
    rewrite (trim_first_kept a r Ha).
    rewrite (trim_end_app [] r a Ha : trim_end (a :: r) = a :: trim_end r).
    reflexivity.
Qed.

(** X19.  The handler always ends: it returns a response or throws; and
    what it throws is the [TypeError] of a URL constructor only, either for
    the URL of the request or for the target handed to [new Request] by the
    proxy engine (the store and the cache being ones that answer every
    call).  The shorten and the metadata branch turn every exception
    into a 400 answer. *)
Theorem handler_throws_only_invalid_url request w out w' :
  fetch_handler request w = (out, w') ->
  out <> OutOfFuel
  /\ (forall e,
        out = Thrown e ->
        kind e = KTypeError
        /\ (URL_parse (url request) = None /\ w' = w
            \/ exists u target,
                 URL_parse (url request) = Some u
                 /\ URL_parse target = None
                 /\ e = Exn KTypeError (URL_invalid target)
                 /\ ((exists code, dispatch request u = ShortLink code)
                     \/ (exists rawPath, dispatch request u = Proxy rawPath))))
  /\ (forall u, URL_parse (url request) = Some u ->
        dispatch request u = Shorten \/ dispatch request u = Meta ->
        exists resp, out = Returned resp).
Proof.
  intros Hrun.
  assert (forall target wx ox wy,
            proxyFetch target request wx = (ox, wy) ->
            ox <> OutOfFuel
            /\ forall e, ox = Thrown e ->
                 URL_parse target = None /\ e = Exn KTypeError (URL_invalid target)) as Hengine.
  { intros target wx ox wy. rewrite proxyFetch_run.
    destruct (URL_parse target) as [u |].
    2:{ intros [= <- _]. split; [done |]. by intros e [= <-]. }
    destruct (if looks_up request then edge_cache wx !! target else None);
      [intros [= <- _]; by split |].
    destruct (upstream (fetches wx) (upstream_call target request)) as [up | e0];
      [| intros [= <- _]; by split].
    destruct (encoded_name target up); intros [= <- _]; by split. }
  unfold fetch_handler in Hrun.
  destruct (URL_parse (url request)) as [u |] eqn:Hu.
  2:{ injection Hrun as <- <-. split; [done |]. split; [| done].
      intros e [= <-]. split; [done |]. by left. }
  destruct (dispatch request u) as [| | code | | | | rawPath] eqn:Hd.
  - injection Hrun as <- _. split; [done |]. split; [done |]. intros u' [= <-] [? | ?]; congruence.
  - injection Hrun as <- _. split; [done |]. split; [done |]. intros u' [= <-] [? | ?]; congruence.
  - assert (out <> OutOfFuel
            /\ forall e, out = Thrown e ->
                 exists target, URL_parse target = None
                                /\ e = Exn KTypeError (URL_invalid target)) as [Hf Ht].
    { unfold short_link, bind, kv_get in Hrun.
      destruct (SHORT_KV w !! (js "c:" ++ code)) as [t |];
        [| injection Hrun as <- _; by split].
      destruct (nonempty t); [| injection Hrun as <- _; by split].
      destruct (Hengine _ _ _ _ Hrun) as [H1 H2]. split; [exact H1 |].
      intros e He. exists t. by apply H2. }
    split; [exact Hf |]. split; [| intros u' [= <-] [? | ?]; congruence].
    intros e He. destruct (Ht e He) as (t & Hp & ->). split; [done |].
    right. exists u, t. repeat split; try done. left. by exists code.
  - destruct (shorten_ends request w) as (resp & w1 & Hrun1 & _).
    rewrite Hrun in Hrun1. injection Hrun1 as -> _.
    split; [done |]. split; [done |]. intros _ _ _. by exists resp.
  - destruct (meta_ends u w) as (resp & w1 & Hrun1 & _).
    rewrite Hrun in Hrun1. injection Hrun1 as -> _.
    split; [done |]. split; [done |]. intros _ _ _. by exists resp.
  - injection Hrun as <- _. split; [done |]. split; [done |]. intros u' [= <-] [? | ?]; congruence.
  - assert (out <> OutOfFuel
            /\ forall e, out = Thrown e ->
                 exists target, URL_parse target = None
                                /\ e = Exn KTypeError (URL_invalid target)) as [Hf Ht].
    { rewrite proxy_run_normalize in Hrun.
      destruct (normalize (JStr rawPath)) as [t | e0];
        [| injection Hrun as <- _; by split].
      destruct (Hengine _ _ _ _ Hrun) as [H1 H2]. split; [exact H1 |].
      intros e He. exists t. by apply H2. }
    split; [exact Hf |]. split; [| intros u' [= <-] [? | ?]; congruence].
    intros e He. destruct (Ht e He) as (t & Hp & ->). split; [done |].
    right. exists u, t. repeat split; try done. right. by exists rawPath.
Qed.

(** X20.  When the shorten branch issues a code, its last two platform
    calls are the write of [c:{code}] and then the write of [u:{hash}], in
    this order, after the read of [u:{hash}] and nothing but draws and
    reads of candidate keys: the store never holds the hash key of a code
    whose [c:] key has not been written.  When it issues none, it writes
    nothing. *)
Theorem shorten_writes_code_before_hash (request : request) (w : world) :
  exists resp w',
    shorten request w = (Returned resp, w')
    /\ (SHORT_KV w' = SHORT_KV w
        /\ (w' = w \/ exists key, w' = log (KvGet key) w)
        \/ exists code target evs,
             resp = shortened code target
             /\ added (KvGet (js "u:" ++ sha1 target) :: evs
                         ++ [ KvPut (js "c:" ++ code) target;
                              KvPut (js "u:" ++ sha1 target) code ]) w w'
             /\ Forall is_store_read_or_draw evs
             /\ truthy_str (SHORT_KV w !! (js "u:" ++ sha1 target)) = false
             /\ SHORT_KV w' !! (js "c:" ++ code) = Some target
             /\ SHORT_KV w' !! (js "u:" ++ sha1 target) = Some code).
Proof.
  destruct (shorten_ends request w) as (resp & w' & Hrun & Hout).
  exists resp, w'. split; [exact Hrun |].
  destruct Hout as [msg | original target c Hnorm Hc Hne
                   | original target code w1 Hnorm Hfree Hloop Hlen].
  - left. split; [done | by left].
  - left. split; [done | right; by eexists].
  - right. destruct (issued_stores _ _ _ _ Hloop) as (_ & evs & Ha & Hq).
    exists code, target, evs. split; [done |].
    split.
    { unfold added in *. rewrite recorded_trace, Ha.
      cbn [app]. by rewrite <- app_assoc. }
    split; [exact Hq |]. split; [exact Hfree |].
    split; [apply recorded_code | apply recorded_hash].
Qed.

End NormalizeMore.

(** * Examples of the properties above *)

(** An upstream that names its files in [content-disposition]. *)
Module Filename_scenario.

(** A plain parameter and the extended one beside it *)
Definition extended : jstr :=
  js "attachment; filename=report.zip; filename*=UTF-8''report%20v2.zip".

(** The extended parameter with a language tag *)
Definition tagged : jstr := js "attachment; filename*=UTF-8'en'report.zip".

(** The first capture group of [/filename\*\s*=\s*([^;]+)/i] on the two
    values above; no other value is asked for. *)
Definition star (cd : jstr) : option jstr :=
  if jstr_eqb cd extended then Some (js "UTF-8''report%20v2.zip")
  else if jstr_eqb cd tagged then Some (js "UTF-8'en'report.zip")
  else None.

(** The second capture group of [/filename\s*=\s*("?)([^";]+)\1/i] *)
Definition plain (cd : jstr) : option jstr :=
  if jstr_eqb cd extended then Some (js "report.zip") else None.

(** [decodeURIComponent] on the one escaped string of the examples and on
    the strings without a percent sign; on any other string it is not
    asked, and answers as on a malformed escape. *)
Definition decode (s : jstr) : result jstr :=
  if jstr_eqb s (js "report%20v2.zip") then Ok (js "report v2.zip")
  else if forallb (fun c => negb (c =? 37)) s then Ok s
  else Throw (Exn KURIError (js "URI malformed")).

Definition report_200 : response :=
  Response 200
    [ (js "content-disposition", extended);
      (js "content-type", js "application/zip") ]
    (BodyStream [80; 75; 3; 4]).

Definition tagged_200 : response :=
  Response 200 [(js "content-disposition", tagged)] (BodyStream [80; 75; 3; 4]).

(** Every outbound request is answered with the report. *)
Definition naming : Platform :=
  {| URL_parse := Fixture.parse;
     URL_invalid := fun _ => js "Invalid URL";
     URL_parse_no_host := eq_refl;
     href_nonempty := Fixture.parse_href_nonempty;
     Math_random := Fixture.random (fun k => k);
     Math_random_range := Fixture.random_range (fun k => k);
     upstream := fun _ _ => Ok report_200;
     String_of := fun _ => js "[object Object]";
     Number_of := Fixture.number;
     decodeURIComponent := decode;
     match_filename_star := star;
     match_filename := plain |}.

(** A request whose URL the constructor rejects *)
Definition get_nowhere : request :=
  Request (js "GET") (js "not a url") [] Scenario.no_body.

End Filename_scenario.

Lemma proxy_rewrite_passes_headers_witness :
  exists resp w',
    proxy_rewrite (P := Scenario.online) Scenario.archive_url Scenario.get_archive false
      Scenario.archive_200 Fixture.empty_world = (Returned resp, w')
    /\ status resp = 200
    /\ resp_body resp = BodyStream [80; 75; 3; 4]
    /\ hget (js "Strict-Transport-Security") (resp_headers resp) = None
    /\ hget (js "Content-Length") (resp_headers resp) = Some (js "1234")
    /\ hget (js "Content-Type") (resp_headers resp) = Some (js "application/zip").
Proof.
  eexists _, _. split; [vm_compute; reflexivity |].
  edestruct (proxy_rewrite_passes_headers (P := Scenario.online) Scenario.archive_url
               Scenario.get_archive false Scenario.archive_200 Fixture.empty_world)
    as (Hs & Hb & _ & Hsts & Hk & Hct).
  - vm_compute; reflexivity.
  - split; [exact Hs |]. split; [exact Hb |]. split; [exact Hsts |].
    split; [| exact (Hct eq_refl)].
    apply (Hk (js "Content-Length")).
    + vm_compute. intuition discriminate.
    + by vm_compute.
Defined.

Lemma proxy_rewrite_disposition_safe_witness :
  exists resp w',
    proxy_rewrite (P := Filename_scenario.naming) Scenario.archive_url
      Scenario.get_archive false Filename_scenario.report_200 Fixture.empty_world
    = (Returned resp, w')
    /\ hget (js "Content-Disposition") (resp_headers resp)
       = Some (js "attachment; filename*=UTF-8''report%20v2.zip").
Proof.
  eexists _, _. split; [vm_compute; reflexivity |].
  edestruct (proxy_rewrite_disposition_safe (P := Filename_scenario.naming)
               Scenario.archive_url Scenario.get_archive false
               Filename_scenario.report_200 Fixture.empty_world)
    with (name := js "report v2.zip") as (enc & Henc & Hcd & _).
  - vm_compute; reflexivity.
  - vm_compute; reflexivity.
  - repeat (constructor; [reflexivity |]). constructor.
  - injection Henc as <-. exact Hcd.
Defined.

Lemma getFilename_from_path_witness :
  getFilename (P := Scenario.online) Scenario.archive_url Scenario.archive_200
  = Ok (js "main.zip").
Proof.
  edestruct (getFilename_from_path (P := Scenario.online) Scenario.archive_url)
    with (res := Scenario.archive_200) (dir := js "/a/b/archive/refs/heads")
         (name := js "main.zip") as (file & Hrun & Hfile & _).
  - vm_compute; reflexivity.
  - left. reflexivity.
  - reflexivity.
  - vm_compute. intuition discriminate.
  - rewrite Hrun, Hfile. reflexivity.
Defined.

Lemma getFilename_extended_witness :
  getFilename (P := Filename_scenario.naming) Scenario.archive_url
    Filename_scenario.report_200
  = Ok (js "report v2.zip").
Proof.
  eapply eq_trans.
  - eapply (getFilename_extended (P := Filename_scenario.naming) Scenario.archive_url)
      with (cd := Filename_scenario.extended) (g := js "UTF-8''report%20v2.zip")
           (charset := js "UTF-8") (value := js "report%20v2.zip").
    + vm_compute; reflexivity.
    + reflexivity.
    + discriminate.
    + reflexivity.
    + reflexivity.
    + discriminate.
    + discriminate.
    + repeat (constructor; [reflexivity |]). constructor.
    + repeat (constructor; [reflexivity |]). constructor.
  - reflexivity.
Defined.

Lemma getFilename_extended_whole_witness :
  getFilename (P := Filename_scenario.naming) Scenario.archive_url
    Filename_scenario.tagged_200
  = Ok (js "UTF-8'en'report.zip").
Proof.
  eapply eq_trans.
  - eapply (getFilename_extended_whole (P := Filename_scenario.naming)
              Scenario.archive_url)
      with (cd := Filename_scenario.tagged) (g := js "UTF-8'en'report.zip").
    + vm_compute; reflexivity.
    + reflexivity.
    + discriminate.
    + reflexivity.
    + reflexivity.
  - reflexivity.
Defined.

Lemma short_link_unknown_code_witness :
  fetch_handler (P := Scenario.online) Registry_scenario.get_short Fixture.empty_world
  = (Returned not_found, log (KvGet (js "c:aaaaaa")) Fixture.empty_world).
Proof.
  edestruct (short_link_unknown_code (P := Scenario.online) Registry_scenario.get_short)
    with (code := js "aaaaaa") (w := Fixture.empty_world) as (Hrun & _).
  - vm_compute; reflexivity.
  - reflexivity.
  - discriminate.
  - left. reflexivity.
  - exact Hrun.
Defined.


Lemma handler_branch_effects_witness :
  exists out w',
    fetch_handler (P := Scenario.online) Scenario.get_archive Fixture.empty_world
    = (out, w')
    /\ branch_effect (P := Scenario.online) (Proxy Registry_scenario.archive)
         Scenario.get_archive Fixture.empty_world w'
    /\ edge_cache w' = ∅
    /\ SHORT_KV w' = ∅.
Proof.
  eexists _, _. split; [vm_compute; reflexivity |].
  edestruct (handler_branch_effects (P := Scenario.online) Scenario.get_archive)
    with (w := Fixture.empty_world) as (Hb & Hc & Hk).
  - vm_compute; reflexivity.
  - vm_compute; reflexivity.
  - split; [exact Hb |]. split; [exact Hc |]. apply Hk. by vm_compute.
Defined.

Lemma handler_reaches_allowed_targets_witness :
  exists out w',
    fetch_handler (P := Registry_scenario.stuck)
      (Fixture.post_shorten Registry_scenario.archive) Fixture.empty_world
    = (out, w')
    /\ SHORT_KV w' !! js "c:aaaaaa" = Some Scenario.archive_url
    /\ allowed_target (P := Registry_scenario.stuck) Scenario.archive_url.
Proof.
  eexists _, _. split; [vm_compute; reflexivity |].
  edestruct (handler_reaches_allowed_targets (P := Registry_scenario.stuck)
               (Fixture.post_shorten Registry_scenario.archive) Fixture.empty_world)
    as (Hstore & _).
  - intros code t Hc. discriminate Hc.
  - vm_compute; reflexivity.
  - split; [vm_compute; reflexivity |].
    apply (Hstore (js "aaaaaa")); [vm_compute; reflexivity | discriminate].
Defined.

Lemma store_is_append_only_witness :
  let w1 := snd (fetch_handler (P := Registry_scenario.stuck)
                   (Fixture.post_shorten Registry_scenario.archive) Fixture.empty_world) in
  let w2 := snd (fetch_handler (P := Registry_scenario.stuck)
                   (Fixture.post_shorten Registry_scenario.tool) w1) in
  SHORT_KV w2 !! (js "u:" ++ sha1 Scenario.archive_url) = Some (js "aaaaaa").
Proof.
  intros w1 w2.
  destruct (store_is_append_only (P := Registry_scenario.stuck)
              (Fixture.post_shorten Registry_scenario.tool) w1
              (fst (fetch_handler (P := Registry_scenario.stuck)
                      (Fixture.post_shorten Registry_scenario.tool) w1)) w2)
    as (_ & Hkeep & _).
  - apply surjective_pairing.
  - apply Hkeep; [vm_compute; reflexivity | discriminate].
Defined.

Lemma handler_throws_only_invalid_url_witness :
  exists e,
    fetch_handler (P := Scenario.offline) Filename_scenario.get_nowhere
      Fixture.empty_world = (Thrown e, Fixture.empty_world)
    /\ kind e = KTypeError.
Proof.
  eexists. split; [vm_compute; reflexivity |].
  edestruct (handler_throws_only_invalid_url (P := Scenario.offline)
               Filename_scenario.get_nowhere Fixture.empty_world) as (_ & Hthrow & _).
  - vm_compute; reflexivity.
  - destruct (Hthrow _ eq_refl) as [Hk _]. exact Hk.
Defined.
